(** * go-pgrouter: LSN-aware read/write routing for PostgreSQL

    A shallow embedding of the routing layer (package [dbresolver]) and the
    properties its specification states about it.

    - [LSN]         lsn.go: the WAL position value type, [ParseLSN], [String]
    - [QueryKind]   query_type_checker.go: the regexp classifier
    - [Router]      causalconsistency.go, pg_lsn_checker.go: context carrier,
                    adapter, [RouteQuery], [UpdateLSNAfterWrite]
    - [Facade]      db.go, tx.go: [ExecContext], [QueryContext], transactions
    - [Middleware]  middleware.go: inbound cookie, [SetLSNCookie]

    Go integers are [N] with the wrap-around written out, Go strings are
    [string] (a sequence of bytes), pointers to [LSNContext] are addresses
    into a [gmap] heap. *)

From Stdlib Require Import NArith ZArith List String Ascii Bool Lia.
From stdpp Require Import gmap.
Import ListNotations.

Local Open Scope string_scope.
Local Open Scope N_scope.

(* ===================================================================== *)
(** * LSN value type (lsn.go) *)
(* ===================================================================== *)

Module LSN.

(** [type LSN struct { Upper uint32; Lower uint32 }] *)
Record LSN : Type := mkLSN { Upper : N; Lower : N }.

(** The zero value [LSN{}]. *)
Definition zero : LSN := mkLSN 0 0.

Definition uint32 (n : N) : N := n mod 2 ^ 32.
Definition uint64 (n : N) : N := n mod 2 ^ 64.
Definition maxUint64 : N := 2 ^ 64 - 1.

(** Both halves are in the range of [uint32]. *)
Definition wf (l : LSN) : Prop := Upper l < 2 ^ 32 /\ Lower l < 2 ^ 32.

(** ** strings.Split(s, "/") *)

(** Splitting around every occurrence of the separator byte: the result has
    one more element than there are separators. *)
Fixpoint Split (s : string) (sep : ascii) : list string :=
  match s with
  | EmptyString => [EmptyString]
  | String c s' =>
      if Ascii.eqb c sep then EmptyString :: Split s' sep
      else match Split s' sep with
           | hd :: tl => String c hd :: tl
           | [] => [String c EmptyString]
           end
  end.

(** ** strconv.ParseUint(s, base, bitSize) for an explicit base *)

(** [lower(c) = c | ('x' - 'X')] *)
Definition lower (c : N) : N := N.lor c 32.

(** The digit value of a byte: ['0'..'9'], then letters of either case. *)
Definition digit_val (c : ascii) : option N :=
  let b := N_of_ascii c in
  if (48 <=? b) && (b <=? 57) then Some (b - 48)
  else if (97 <=? lower b) && (lower b <=? 122) then Some (lower b - 97 + 10)
  else None.

(** The loop over the bytes of [s]; [None] stands for either error
    (syntax or range). *)
Fixpoint ParseUint_loop (base maxVal cutoff : N) (s : string) (n : N) : option N :=
  match s with
  | EmptyString => Some n
  | String c s' =>
      match digit_val c with
      | None => None
      | Some d =>
          if base <=? d then None
          else if cutoff <=? n then None
          else
            let n' := uint64 (n * base) in
            let n1 := uint64 (n' + d) in
            if (n1 <? n') || (maxVal <? n1) then None
            else ParseUint_loop base maxVal cutoff s' n1
      end
  end.

Definition ParseUint (s : string) (base bitSize : N) : option N :=
  match s with
  | EmptyString => None
  | _ => ParseUint_loop base (2 ^ bitSize - 1) (maxUint64 / base + 1) s 0
  end.

(** ** ParseLSN *)

Definition ParseLSN (lsnStr : string) : option LSN :=
  match lsnStr with
  | EmptyString => None
  | _ =>
      match Split lsnStr "/" with
      | [p0; p1] =>
          match ParseUint p0 16 32 with
          | None => None
          | Some upper =>
              match ParseUint p1 16 32 with
              | None => None
              | Some lower => Some (mkLSN (uint32 upper) (uint32 lower))
              end
          end
      | _ => None
      end
  end.

(** ** fmt.Sprintf("%X", u) *)

Definition udigits : string := "0123456789ABCDEF".

Definition udigit (d : N) : ascii :=
  match String.get (N.to_nat d) udigits with
  | Some c => c
  | None => "?"%char
  end.

(** The formatting loop writes digits from the least significant one into
    the buffer, towards the front.  A 64-bit value has at most 16 of them. *)
Fixpoint fmt_hex_loop (fuel : nat) (u : N) (buf : string) : string :=
  match fuel with
  | O => String (udigit u) buf
  | S fuel' =>
      if 16 <=? u
      then fmt_hex_loop fuel' (N.shiftr u 4) (String (udigit (N.land u 15)) buf)
      else String (udigit u) buf
  end.

Definition fmtX (u : N) : string := fmt_hex_loop 16 u EmptyString.

(** ** Comparison *)

Definition Compare (lsn other : LSN) : Z :=
  if Upper lsn <? Upper other then (-1)%Z
  else if Upper other <? Upper lsn then 1%Z
  else if Lower lsn <? Lower other then (-1)%Z
  else if Lower other <? Lower lsn then 1%Z
  else 0%Z.

Definition LessThan (lsn other : LSN) : bool := (Compare lsn other <? 0)%Z.
Definition LessThanOrEqual (lsn other : LSN) : bool := (Compare lsn other <=? 0)%Z.
Definition GreaterThan (lsn other : LSN) : bool := (0 <? Compare lsn other)%Z.
Definition GreaterThanOrEqual (lsn other : LSN) : bool := (0 <=? Compare lsn other)%Z.
Definition Equals (lsn other : LSN) : bool := (Compare lsn other =? 0)%Z.

Definition IsZero (lsn : LSN) : bool := (Upper lsn =? 0) && (Lower lsn =? 0).

Definition ToUint64 (lsn : LSN) : N :=
  N.lor (uint64 (N.shiftl (Upper lsn) 32)) (Lower lsn).

Definition Subtract (lsn other : LSN) : N :=
  if LessThan lsn other then 0
  else uint64 (2 ^ 64 + ToUint64 lsn - ToUint64 other).

Definition LSNFromUint64 (value : N) : LSN :=
  mkLSN (uint32 (N.shiftr value 32)) (uint32 (N.land value 4294967295)).

Definition Add (lsn : LSN) (bytes : N) : LSN :=
  LSNFromUint64 (uint64 (ToUint64 lsn + bytes)).

(** ** strings.ToUpper on ASCII text *)

Definition upper_ascii (c : ascii) : ascii :=
  let b := N_of_ascii c in
  if (97 <=? b) && (b <=? 122) then ascii_of_N (b - 32) else c.

Fixpoint ToUpper (s : string) : string :=
  match s with
  | EmptyString => EmptyString
  | String c s' => String (upper_ascii c) (ToUpper s')
  end.

(** ** Valid LSN strings, in the specification's words

    "Two hexadecimal segments of 1-8 digits separated by exactly one
    solidus, leading zeros permitted." *)

Definition is_hex_digit (c : ascii) : bool :=
  let b := N_of_ascii c in
  ((48 <=? b) && (b <=? 57)) || ((65 <=? b) && (b <=? 70)) || ((97 <=? b) && (b <=? 102)).

Fixpoint all_hex (s : string) : bool :=
  match s with
  | EmptyString => true
  | String c s' => is_hex_digit c && all_hex s'
  end.

Definition hex_segment (s : string) : bool :=
  all_hex s && (1 <=? String.length s)%nat && (String.length s <=? 8)%nat.

Definition valid_lsn_string (s : string) : Prop :=
  exists a b, s = a ++ "/" ++ b /\ hex_segment a = true /\ hex_segment b = true.

(** A segment without its leading zeros; one digit always stays. *)
Fixpoint strip0 (s : string) : string :=
  match s with
  | String c (String _ _ as s') => if Ascii.eqb c "0" then strip0 s' else s
  | _ => s
  end.

(** The value of a string of hexadecimal digits read after [n]. *)
Fixpoint hexfold (s : string) (n : N) : N :=
  match s with
  | EmptyString => n
  | String.String c s' =>
      match digit_val c with
      | Some d => hexfold s' (16 * n + d)
      | None => n
      end
  end.

(** [func (lsn LSN) String() string]: [fmt.Sprintf("%X/%X", lsn.Upper, lsn.Lower)].
    From here on the constructor of [string] is written [String.String]. *)
Definition String (lsn : LSN) : string :=
  fmtX (Upper lsn) ++ "/" ++ fmtX (Lower lsn).

End LSN.

(* ===================================================================== *)
(** * Query-kind classifier (query_type_checker.go) *)
(* ===================================================================== *)

Module QueryKind.

(** [type QueryType int] with its three constants. *)
Inductive QueryType : Type :=
| QueryTypeUnknown
| QueryTypeRead
| QueryTypeWrite.

Definition QueryType_eqb (a b : QueryType) : bool :=
  match a, b with
  | QueryTypeUnknown, QueryTypeUnknown => true
  | QueryTypeRead, QueryTypeRead => true
  | QueryTypeWrite, QueryTypeWrite => true
  | _, _ => false
  end.

(** ** The text the regexp engine reads

    Package regexp reads its input one UTF-8 rune at a time
    ([utf8.DecodeRuneInString]); a byte that starts no valid encoding reads
    as [RuneError] and has width 1. *)

Definition rune : Type := N.
Definition RuneError : rune := 0xFFFD.

(** The table [first] of package utf8 for a leading byte [>= 0x80]: the
    size of the encoding and the accepted range of the second byte. *)
Definition first (b0 : N) : option (nat * N * N) :=
  if b0 <? 0xC2 then None
  else if b0 <=? 0xDF then Some (2%nat, 0x80, 0xBF)
  else if b0 =? 0xE0 then Some (3%nat, 0xA0, 0xBF)
  else if b0 <=? 0xEC then Some (3%nat, 0x80, 0xBF)
  else if b0 =? 0xED then Some (3%nat, 0x80, 0x9F)
  else if b0 <=? 0xEF then Some (3%nat, 0x80, 0xBF)
  else if b0 =? 0xF0 then Some (4%nat, 0x90, 0xBF)
  else if b0 <=? 0xF3 then Some (4%nat, 0x80, 0xBF)
  else if b0 =? 0xF4 then Some (4%nat, 0x80, 0x8F)
  else None.

Definition cont (b : N) : bool := (0x80 <=? b) && (b <=? 0xBF).
Definition maskx (b : N) : N := N.land b 0x3F.

Fixpoint runes (s : string) : list rune :=
  match s with
  | EmptyString => []
  | String c0 t0 =>
      let b0 := N_of_ascii c0 in
      if b0 <? 0x80 then b0 :: runes t0
      else
        match first b0, t0 with
        | Some (sz, lo, hi), String c1 t1 =>
            let b1 := N_of_ascii c1 in
            if (b1 <? lo) || (hi <? b1) then RuneError :: runes t0
            else
              match sz, t1 with
              | 2%nat, _ =>
                  N.lor (N.shiftl (N.land b0 0x1F) 6) (maskx b1) :: runes t1
              | _, EmptyString => RuneError :: runes t0
              | _, String c2 t2 =>
                  let b2 := N_of_ascii c2 in
                  if negb (cont b2) then RuneError :: runes t0
                  else
                    match sz, t2 with
                    | 3%nat, _ =>
                        N.lor (N.shiftl (N.land b0 0x0F) 12)
                          (N.lor (N.shiftl (maskx b1) 6) (maskx b2)) :: runes t2
                    | _, EmptyString => RuneError :: runes t0
                    | _, String c3 t3 =>
                        let b3 := N_of_ascii c3 in
                        if negb (cont b3) then RuneError :: runes t0
                        else
                          N.lor (N.shiftl (N.land b0 0x07) 18)
                            (N.lor (N.shiftl (maskx b1) 12)
                               (N.lor (N.shiftl (maskx b2) 6) (maskx b3)))
                          :: runes t3
                    end
              end
        | _, _ => RuneError :: runes t0
        end
  end.

(** ** Regular expressions (the fragment of RE2 syntax the pattern uses) *)

Inductive regex : Type :=
| Empty                                   (* matches the empty string *)
| Lit (r : rune) (foldCase : bool)        (* one literal rune *)
| Class (ranges : list (rune * rune))     (* a character class *)
| BeginText                               (* [^] without the m flag *)
| WordBoundary                            (* [\b] *)
| Cat (a b : regex)
| Alt (a b : regex)
| Star (a : regex).

(** [unicode.SimpleFold] on the orbits that contain an ASCII letter: every
    letter folds to its other case, and two orbits have a third member,
    the Kelvin sign (with K, k) and the long s (with S, s).  Runes of other
    orbits are left alone here; the pattern has no literal among them. *)
Definition SimpleFold (r : rune) : rune :=
  if r =? 0x4B then 0x6B
  else if r =? 0x6B then 0x212A
  else if r =? 0x212A then 0x4B
  else if r =? 0x53 then 0x73
  else if r =? 0x73 then 0x17F
  else if r =? 0x17F then 0x53
  else if (0x41 <=? r) && (r <=? 0x5A) then r + 32
  else if (0x61 <=? r) && (r <=? 0x7A) then r - 32
  else r.

(** The fold loop of [Inst.MatchRunePos] for a single literal:
    [for r1 := SimpleFold(r0); r1 != r0; r1 = SimpleFold(r1)]. *)
Fixpoint fold_loop (fuel : nat) (r0 r1 r : rune) : bool :=
  match fuel with
  | O => false
  | S fuel' =>
      if r1 =? r0 then false
      else if r =? r1 then true
      else fold_loop fuel' r0 (SimpleFold r1) r
  end.

Definition match_lit (r0 : rune) (foldCase : bool) (r : rune) : bool :=
  (r =? r0) || (foldCase && fold_loop 4 r0 (SimpleFold r0) r).

Definition match_class (ranges : list (rune * rune)) (r : rune) : bool :=
  existsb (fun lh => (fst lh <=? r) && (r <=? snd lh)) ranges.

(** [syntax.IsWordChar]: the word characters of [\b] are ASCII only. *)
Definition IsWordChar (r : rune) : bool :=
  ((0x41 <=? r) && (r <=? 0x5A)) || ((0x61 <=? r) && (r <=? 0x7A))
  || ((0x30 <=? r) && (r <=? 0x39)) || (r =? 0x5F).

Definition is_word (o : option rune) : bool :=
  match o with
  | Some r => IsWordChar r
  | None => false
  end.

(** A position in the text: the rune before it (none at the beginning) and
    the text after it. *)
Definition kont : Type := option rune -> list rune -> bool.

(** Iteration for [Star]: either stop here, or take one more round that
    consumes something.  The text gets shorter each round, so [fuel] larger
    than its length is never used up. *)
Fixpoint star_loop (fuel : nat) (step : option rune -> list rune -> kont -> bool)
    (prev : option rune) (s : list rune) (k : kont) : bool :=
  k prev s ||
  match fuel with
  | O => false
  | S fuel' =>
      step prev s
        (fun p t => (length t <? length s)%nat && star_loop fuel' step p t k)
  end.

(** [matches r prev s k]: some match of [r] at this position ends at a
    position that [k] accepts. *)
Fixpoint matches (r : regex) (prev : option rune) (s : list rune) (k : kont) : bool :=
  match r with
  | Empty => k prev s
  | Lit r0 f =>
      match s with
      | x :: s' => match_lit r0 f x && k (Some x) s'
      | [] => false
      end
  | Class ranges =>
      match s with
      | x :: s' => match_class ranges x && k (Some x) s'
      | [] => false
      end
  | BeginText =>
      match prev with
      | None => k prev s
      | Some _ => false
      end
  | WordBoundary => xorb (is_word prev) (is_word (head s)) && k prev s
  | Cat a b => matches a prev s (fun p t => matches b p t k)
  | Alt a b => matches a prev s k || matches b prev s k
  | Star a => star_loop (S (length s)) (matches a) prev s k
  end.

(** Unanchored search, as [MatchString] does: a match may start at any
    position of the text. *)
Fixpoint search (r : regex) (prev : option rune) (s : list rune) : bool :=
  matches r prev s (fun _ _ => true) ||
  match s with
  | [] => false
  | x :: s' => search r (Some x) s'
  end.

Definition MatchString (r : regex) (s : string) : bool :=
  search r None (runes s).

(** ** The pattern of [NewDefaultQueryTypeChecker]

    [(?i)^\s*(INSERT|UPDATE|DELETE|MERGE|TRUNCATE|REPLACE)\b|\bRETURNING\b] *)

(** A literal string under [(?i)]. *)
Fixpoint lit (s : list rune) : regex :=
  match s with
  | [] => Empty
  | c :: s' => Cat (Lit c true) (lit s')
  end.

(** Perl class [\s]: tab, newline, form feed, carriage return, space. *)
Definition perl_s : list (rune * rune) := [(0x9, 0xA); (0xC, 0xD); (0x20, 0x20)].

Definition verbs : list string :=
  ["INSERT"; "UPDATE"; "DELETE"; "MERGE"; "TRUNCATE"; "REPLACE"].

Fixpoint alternation (l : list regex) : regex :=
  match l with
  | [] => Class []
  | [a] => a
  | a :: l' => Alt a (alternation l')
  end.

Definition writePattern : regex :=
  Alt
    (Cat BeginText
       (Cat (Star (Class perl_s))
          (Cat (alternation (map (fun v => lit (runes v)) verbs))
             WordBoundary)))
    (Cat WordBoundary (Cat (lit (runes "RETURNING")) WordBoundary)).

(** [type DefaultQueryTypeChecker struct { writeRegex *regexp.Regexp }] *)
Record DefaultQueryTypeChecker : Type := { writeRegex : regex }.

Definition NewDefaultQueryTypeChecker : DefaultQueryTypeChecker :=
  {| writeRegex := writePattern |}.

(** [func (c *DefaultQueryTypeChecker) Check(query string) QueryType] *)
Definition Check (c : DefaultQueryTypeChecker) (query : string) : QueryType :=
  if MatchString (writeRegex c) query then QueryTypeWrite else QueryTypeUnknown.

(** ** The contract in the specification's words *)

(** Case-insensitive equality with an ASCII word: letters of either case are
    equal, and so are the two non-ASCII runes that fold to K and S. *)
Definition canon (r : rune) : rune :=
  if (0x61 <=? r) && (r <=? 0x7A) then r - 32
  else if r =? 0x17F then 0x53
  else if r =? 0x212A then 0x4B
  else r.

Definition EqualFold (tok : list rune) (word : string) : Prop :=
  map canon tok = runes word.

Definition is_space (r : rune) : bool := match_class perl_s r.

(** The text ends, or goes on with a rune that is not a word character. *)
Definition word_ends (rest : list rune) : Prop := is_word (head rest) = false.

(** The text is empty, or its last rune is not a word character. *)
Definition word_starts (pre : list rune) : Prop := is_word (last pre) = false.

(** (a) the first token after leading whitespace is one of the verbs. *)
Definition leading_verb (t : list rune) : Prop :=
  exists ws tok rest v,
    t = (ws ++ tok ++ rest)%list /\ forallb is_space ws = true /\
    In v verbs /\ EqualFold tok v /\ word_ends rest.

(** (b) the bare word RETURNING occurs, delimited on both sides. *)
Definition contains_returning (t : list rune) : Prop :=
  exists pre tok post,
    t = (pre ++ tok ++ post)%list /\ word_starts pre /\
    EqualFold tok "RETURNING" /\ word_ends post.

Definition spec_write (query : string) : Prop :=
  leading_verb (runes query) \/ contains_returning (runes query).

(** ** Notions the properties of the matcher are stated with *)

(** The position after a stretch of text: its last rune, or the rune before
    the stretch when it is empty. *)
Definition last_or (prev : option rune) (l : list rune) : option rune :=
  match last l with
  | Some x => Some x
  | None => prev
  end.

(** A token matches a literal word rune by rune. *)
Definition lit_matches (w tok : list rune) : Prop :=
  Forall2 (fun c x => match_lit c true x = true) w tok.

(** The upper-case letters of ASCII. *)
Definition upper_letter (c : rune) : Prop := 0x41 <= c <= 0x5A.

Definition word_letters (w : string) : Prop := Forall upper_letter (runes w).

(** The continuation that accepts any end position. *)
Definition accept : kont := fun _ _ => true.

(** The two branches of the pattern. *)
Definition verbs_then_boundary : regex :=
  Cat (alternation (map (fun v => lit (runes v)) verbs)) WordBoundary.

Definition leading_branch : regex :=
  Cat BeginText (Cat (Star (Class perl_s)) verbs_then_boundary).

Definition returning_branch : regex :=
  Cat WordBoundary (Cat (lit (runes "RETURNING")) WordBoundary).

End QueryKind.

(* ===================================================================== *)
(** * The world outside: backends, errors, and the effects of a call *)
(* ===================================================================== *)

Module Sys.

(** The identity of a [sql.DB] connection pool.  Where the code tests a
    handle against [nil], the handle is an [option DB]. *)
Definition DB : Type := nat.

(** Go's [error] values: errors of the driver are opaque, the package's own
    are built by [fmt.Errorf], with or without wrapping ([%w]). *)
Inductive error : Type :=
| ErrDriver (code : nat)
| Errorf (msg : string)
| Errorw (msg : string) (inner : error).

(** What is sent to a backend. *)
Inductive Call : Type :=
| ExecCall (d : DB) (query : string)       (* sql.DB.ExecContext *)
| QueryCall (d : DB) (query : string)      (* sql.DB.QueryContext *)
| QueryRowCall (d : DB) (query : string)   (* sql.DB.QueryRowContext *)
| BeginCall (d : DB)                       (* sql.DB.BeginTx *)
| TxExecCall (d : DB) (query : string)     (* sql.Tx.ExecContext *)
| TxQueryCall (d : DB) (query : string)    (* sql.Tx.QueryContext *)
| TxQueryRowCall (d : DB) (query : string) (* sql.Tx.QueryRowContext *)
| CommitCall (d : DB)                      (* sql.Tx.Commit *)
| RollbackCall (d : DB).                   (* sql.Tx.Rollback *)

(** What comes back: the error, and for a scanned row its single column. *)
Record Answer : Type := mkAnswer { err : option error; column : string }.

(** The backends' behaviour, as a function of everything sent so far. *)
Definition World : Type := list Call -> Call -> Answer.

(** [LSNContext] of causalconsistency.go; contexts hold pointers to it. *)
Inductive CausalConsistencyLevel : Type :=
| NoneCausalConsistency
| ReadYourWrites
| StrongConsistency
| OtherLevel (n : nat).   (* any other value of the underlying int *)

Record LSNContext : Type := mkLSNContext {
  RequiredLSN : LSN.LSN;
  Level : CausalConsistencyLevel;
  ForceMaster : bool;
  HasWriteOperation : bool
}.

(** The zero value [LSNContext{}]. *)
Definition zeroLSNContext : LSNContext :=
  mkLSNContext LSN.zero NoneCausalConsistency false false.

Definition addr : Type := nat.

(** The selector of the facade, [LoadBalancer] over backend handles: an interface with
    one method, implemented by the round-robin and the random balancer.  It
    is only ever called on a non-empty slice, from which it returns one
    element. *)
Class LoadBalancer (LB : Type) : Type := {
  Resolve : LB -> list DB -> DB * LB;
  Resolve_In : forall s dbs, dbs <> [] -> In (fst (Resolve s dbs)) dbs
}.

(** The outcome of a call: it returns, or the goroutine panics. *)
Inductive Res (A : Type) : Type :=
| Ok (a : A)
| Panic (msg : string).
Arguments Ok {A} a.
Arguments Panic {A} msg.

Section State.
Context {LB : Type}.

(** The mutable state the routing layer works on: the balancer's counter,
    the objects contexts point to, the router's cached primary position, the
    process-wide registry of adapters (one per backend, with the timeout it
    was created with), and the log of calls sent to the backends. *)
Record State : Type := mkState {
  lb : LB;
  heap : gmap addr LSNContext;
  lastMasterLSN : LSN.LSN;
  checkers : gmap DB Z;
  trace : list Call
}.

(** A computation reads the world, changes the state, and either returns
    or panics. *)
Definition M (A : Type) : Type := World -> State -> Res A * State.

Definition ret {A} (a : A) : M A := fun _ s => (Ok a, s).

Definition panic {A} (msg : string) : M A := fun _ s => (Panic msg, s).

Definition bind {A B} (m : M A) (f : A -> M B) : M B :=
  fun w s =>
    match m w s with
    | (Ok a, s') => f a w s'
    | (Panic msg, s') => (Panic msg, s')
    end.

(** Send a call to a backend and log it. *)
Definition send (c : Call) : M Answer :=
  fun w s =>
    (Ok (w (trace s) c),
     mkState (lb s) (heap s) (lastMasterLSN s) (checkers s) (trace s ++ [c])).

(** [LoadBalancer().Resolve(dbs)]; indexing an empty slice panics. *)
Definition resolve `{LoadBalancer LB} (dbs : list DB) : M DB :=
  fun _ s =>
    match dbs with
    | [] => (Panic "index out of range", s)
    | _ =>
        let (d, lb') := Resolve (lb s) dbs in
        (Ok d, mkState lb' (heap s) (lastMasterLSN s) (checkers s) (trace s))
    end.

(** Dereference a pointer to an [LSNContext]. *)
Definition load (p : addr) : M LSNContext :=
  fun _ s => (Ok (default zeroLSNContext (heap s !! p)), s).

Definition store (p : addr) (v : LSNContext) : M unit :=
  fun _ s =>
    (Ok tt, mkState (lb s) (<[p := v]> (heap s)) (lastMasterLSN s) (checkers s) (trace s)).

(** [&LSNContext{...}]: a new object at an address not in use. *)
Definition alloc (v : LSNContext) : M addr :=
  fun _ s =>
    let p := fresh (dom (heap s)) in
    (Ok p, mkState (lb s) (<[p := v]> (heap s)) (lastMasterLSN s) (checkers s) (trace s)).

Definition setLastMasterLSN (l : LSN.LSN) : M unit :=
  fun _ s => (Ok tt, mkState (lb s) (heap s) l (checkers s) (trace s)).

End State.

Arguments State : clear implicits.
Arguments M : clear implicits.

Declare Scope go_scope.
Delimit Scope go_scope with go.
Notation "x <- m ;; k" := (bind m (fun x => k))
  (at level 100, m at next level, right associativity) : go_scope.
Notation "m ;;; k" := (bind m (fun _ => k))
  (at level 100, right associativity) : go_scope.

(** Modelled from the spec: the round-robin selector of section 4.3, which
    "returns handles in cyclic order using an atomically incremented
    counter"; its source file is not part of the sources at hand. *)
Definition RoundRobin_Resolve (counter : nat) (dbs : list DB) : DB * nat :=
  (nth (counter mod length dbs) dbs 0%nat, S counter).

(** It returns an element of the slice it is given. *)
Lemma RoundRobin_In (counter : nat) (dbs : list DB) :
  dbs <> [] -> In (fst (RoundRobin_Resolve counter dbs)) dbs.
Proof.
  intros Hne. unfold RoundRobin_Resolve. cbn [fst].
  apply nth_In. apply Nat.mod_upper_bound.
  destruct dbs; [congruence | discriminate].
Qed.

(** The round-robin selector is a balancer. *)
#[export] Instance RoundRobin : LoadBalancer nat :=
  {| Resolve := RoundRobin_Resolve; Resolve_In := RoundRobin_In |}.

End Sys.

(* ===================================================================== *)
(** * Context carrier, adapter and router (causalconsistency.go,
      pg_lsn_checker.go) *)
(* ===================================================================== *)

Module Router.
Import Sys QueryKind.
Local Open Scope go_scope.

(** ** Adapter (pg_lsn_checker.go) *)

Definition PGCurrentWALLSN : string := "pg_current_wal_lsn()".
Definition PGLastWalReplayLSN : string := "pg_last_wal_replay_lsn()".

(** [type PGLSNChecker struct { db *sql.DB; queryTimeout time.Duration }] *)
Record PGLSNChecker : Type := mkChecker { db : DB; queryTimeout : Z }.

Section WithBalancer.
Context {LB : Type} `{LoadBalancer LB}.

Local Abbreviation M := (Sys.M LB).

(** [getOrCreateChecker]: one adapter per backend, created on first use;
    [nil] for a nil handle. *)
Definition getOrCreateChecker (d : option DB) (timeout : Z) : M (option PGLSNChecker) :=
  fun _ s =>
    match d with
    | None => (Ok None, s)
    | Some d =>
        match checkers s !! d with
        | Some t => (Ok (Some (mkChecker d t)), s)
        | None =>
            (Ok (Some (mkChecker d timeout)),
             mkState (lb s) (heap s) (lastMasterLSN s)
               (<[d := timeout]> (checkers s)) (trace s))
        end
    end.

(** The deadline of the query context shows in the world's answer: a query
    that runs out of time, or whose context is cancelled, answers with an
    error. *)
Definition scanLSN (c : PGLSNChecker) (fn msgQuery msgParse : string)
  : M (LSN.LSN * option error) :=
  a <- send (QueryRowCall (db c) ("SELECT " ++ fn)) ;;
  match err a with
  | Some e => ret (LSN.zero, Some (Errorw msgQuery e))
  | None =>
      match LSN.ParseLSN (column a) with
      | None => ret (LSN.zero, Some (Errorw msgParse (Errorf "invalid LSN")))
      | Some lsn => ret (lsn, None)
      end
  end.

Definition GetCurrentWALLSN (c : PGLSNChecker) : M (LSN.LSN * option error) :=
  scanLSN c PGCurrentWALLSN "failed to get current WAL LSN" "failed to parse master LSN".

Definition GetLastReplayLSN (c : PGLSNChecker) : M (LSN.LSN * option error) :=
  scanLSN c PGLastWalReplayLSN "failed to get last replay LSN" "failed to parse replica LSN".

(** ** Context carrier *)

Inductive contextKey : Type := lsnContextKey | dbContextKey.

Definition contextKey_eqb (a b : contextKey) : bool :=
  match a, b with
  | lsnContextKey, lsnContextKey | dbContextKey, dbContextKey => true
  | _, _ => false
  end.

(** The values the package stores in a context, each with its dynamic
    type; both are pointers and may be nil. *)
Inductive ctxValue : Type :=
| LSNContextPtr (p : option addr)
| DBPtr (d : option DB).

(** [context.Context]: immutable, a chain of [context.WithValue]. *)
Inductive Context : Type :=
| Background
| WithValue (parent : Context) (key : contextKey) (val : ctxValue).

Fixpoint Value (ctx : Context) (key : contextKey) : option ctxValue :=
  match ctx with
  | Background => None
  | WithValue parent k v => if contextKey_eqb k key then Some v else Value parent key
  end.

Definition WithLSNContext (ctx : Context) (lsnCtx : option addr) : Context :=
  WithValue ctx lsnContextKey (LSNContextPtr lsnCtx).

Definition GetLSNContext (ctx : Context) : option addr :=
  match Value ctx lsnContextKey with
  | Some (LSNContextPtr p) => p
  | _ => None
  end.

Definition WithDBConnection (ctx : Context) (d : option DB) : Context :=
  WithValue ctx dbContextKey (DBPtr d).

Definition GetDBConnection (ctx : Context) : option DB :=
  match Value ctx dbContextKey with
  | Some (DBPtr d) => d
  | _ => None
  end.

(** ** Configuration and routers *)

Record CausalConsistencyConfig : Type := mkConfig {
  Enabled : bool;
  cfgLevel : CausalConsistencyLevel;
  RequireCookie : bool;
  CookieName : string;
  CookieMaxAge : Z;
  FallbackToMaster : bool;
  Timeout : Z
}.

Definition second : Z := 1000000000.
Definition minute : Z := 60 * second.

Definition DefaultCausalConsistencyConfig : CausalConsistencyConfig :=
  mkConfig false ReadYourWrites true "pg_min_lsn" (5 * minute) true (5 * second).

(** [DBProvider]: the pools of the facade; its balancer is the one of the
    state. *)
Record DBProvider : Type := mkProvider {
  PrimaryDBs : list DB;
  ReplicaDBs : list DB
}.

Record CausalRouter : Type := mkCausalRouter {
  config : CausalConsistencyConfig;
  dbProvider : option DBProvider;
  routerQueryTimeout : Z
}.

Definition NewCausalRouter (p : option DBProvider) (c : option CausalConsistencyConfig)
  : CausalRouter :=
  mkCausalRouter (default DefaultCausalConsistencyConfig c) p (3 * second).

(** [shouldUseReplica] *)
Definition shouldUseReplica (r : CausalRouter) (ctx : Context) (requiredLSN : LSN.LSN)
  : M (bool * option DB * option error) :=
  match dbProvider r with
  | None => panic "nil pointer dereference"
  | Some p =>
  let replicas := ReplicaDBs p in
  if (length replicas =? 0)%nat then ret (false, None, None)
  else if LSN.IsZero requiredLSN then
    selected <- resolve replicas ;;
    ret (true, Some selected, None)
  else
    selected <- resolve replicas ;;
    checker <- getOrCreateChecker (Some selected) (routerQueryTimeout r) ;;
    match checker with
    | None => panic "nil pointer dereference"
    | Some checker =>
        res <- GetLastReplayLSN checker ;;
        let (replicaLSN, e) := res in
        match e with
        | None =>
            if negb (LSN.LessThan replicaLSN requiredLSN)
            then ret (true, Some selected, None)
            else ret (false, None, None)
        | Some _ => ret (false, None, None)
        end
    end
  end.

Definition primary (primaries : list DB) : M (option DB * option error) :=
  d <- resolve primaries ;; ret (Some d, None).

(** [func (r *CausalRouter) RouteQuery(ctx, queryType)], returning a handle
    and an error. *)
Definition RouteQuery (r : CausalRouter) (ctx : Context) (queryType : QueryType)
  : M (option DB * option error) :=
  match Enabled (config r), dbProvider r with
  | true, Some p =>
      let lsnCtx := GetLSNContext ctx in
      let primaries := PrimaryDBs p in
      let replicas := ReplicaDBs p in
      if (length primaries =? 0)%nat
      then ret (None, Some (Errorf "no primary databases available"))
      else
        tok <- match lsnCtx with
               | Some ptr => t <- load ptr ;; ret (Some t)
               | None => ret None
               end ;;
        if match tok with Some t => ForceMaster t | None => false end
        then primary primaries
        else if QueryType_eqb queryType QueryTypeWrite
        then primary primaries
        else
          let simple :=
            if (0 <? length replicas)%nat
            then d <- resolve replicas ;; ret (Some d, None)
            else primary primaries in
          match cfgLevel (config r) with
          | ReadYourWrites =>
              match tok with
              | Some t =>
                  if negb (LSN.IsZero (RequiredLSN t)) then
                    res <- shouldUseReplica r ctx (RequiredLSN t) ;;
                    let '(useReplica, d, e) := res in
                    match e with
                    | Some e =>
                        ret (None, Some (Errorw "failed to check replica status" e))
                    | None =>
                        if useReplica then ret (d, None)
                        else if FallbackToMaster (config r) then primary primaries
                        else ret (None, Some (Errorf "no replica has caught up to required LSN"))
                    end
                  else simple
              | None => simple
              end
          | NoneCausalConsistency => simple
          | StrongConsistency => primary primaries
          | OtherLevel _ =>
              if FallbackToMaster (config r) then primary primaries
              else ret (None, Some (Errorf "unable to route query: no suitable database found"))
          end
  | _, _ => ret (None, Some (Errorf "causal consistency not enabled"))
  end.

(** [func (r *CausalRouter) UpdateLSNAfterWrite(ctx, db) (LSN, error)].
    The context is a parameter passed by value: the assignment to it in the
    last step changes the callee's variable only, which is then dropped. *)
Definition UpdateLSNAfterWrite (r : CausalRouter) (ctx : Context) (d : option DB)
  : M (LSN.LSN * option error) :=
  match Enabled (config r), d with
  | true, Some _ =>
      checker <- getOrCreateChecker d (routerQueryTimeout r) ;;
      match checker with
      | None => panic "nil pointer dereference"
      | Some checker =>
          res <- GetCurrentWALLSN checker ;;
          let (masterLSN, e) := res in
          match e with
          | Some e =>
              ret (LSN.zero, Some (Errorw "failed to get master LSN after write" e))
          | None =>
              setLastMasterLSN masterLSN ;;;
              lsnCtx <- match GetLSNContext ctx with
                        | Some ptr => ret ptr
                        | None =>
                            alloc (mkLSNContext LSN.zero (cfgLevel (config r)) false false)
                        end ;;
              t <- load lsnCtx ;;
              store lsnCtx
                (mkLSNContext masterLSN (Level t) (ForceMaster t) (HasWriteOperation t)) ;;;
              let ctx := WithLSNContext ctx (Some lsnCtx) in
              ret (masterLSN, None)
          end
      end
  | _, _ => ret (LSN.zero, None)
  end.

(** [SimpleRouter]: read/write routing without LSN tracking. *)
Record SimpleRouter : Type := mkSimpleRouter { simpleProvider : option DBProvider }.

Definition SimpleRouter_RouteQuery (r : SimpleRouter) (ctx : Context) (queryType : QueryType)
  : M (option DB * option error) :=
  match simpleProvider r with
  | None => ret (None, Some (Errorf "no database provider available"))
  | Some p =>
      if (length (PrimaryDBs p) =? 0)%nat
      then ret (None, Some (Errorf "no primary databases available"))
      else
        match queryType with
        | QueryTypeWrite => primary (PrimaryDBs p)
        | QueryTypeRead =>
            if (0 <? length (ReplicaDBs p))%nat
            then d <- resolve (ReplicaDBs p) ;; ret (Some d, None)
            else primary (PrimaryDBs p)
        | QueryTypeUnknown => primary (PrimaryDBs p)
        end
  end.

Definition SimpleRouter_UpdateLSNAfterWrite (r : SimpleRouter) (ctx : Context)
    (d : option DB) : M (LSN.LSN * option error) :=
  ret (LSN.zero, None).

(** The interface [QueryRouter] of db.go and its implementations. *)
Inductive QueryRouter : Type :=
| Causal (r : CausalRouter)
| Simple (r : SimpleRouter).

Definition QueryRouter_RouteQuery (qr : QueryRouter) (ctx : Context) (queryType : QueryType)
  : M (option DB * option error) :=
  match qr with
  | Causal r => RouteQuery r ctx queryType
  | Simple r => SimpleRouter_RouteQuery r ctx queryType
  end.

Definition QueryRouter_UpdateLSNAfterWrite (qr : QueryRouter) (ctx : Context)
    (d : option DB) : M (LSN.LSN * option error) :=
  match qr with
  | Causal r => UpdateLSNAfterWrite r ctx d
  | Simple r => SimpleRouter_UpdateLSNAfterWrite r ctx d
  end.

(** ** Notions the properties of the router are stated with *)

(** The state after a step of the balancer. *)
Definition with_lb (s : State LB) (lb' : LB) : State LB :=
  mkState lb' (heap s) (lastMasterLSN s) (checkers s) (trace s).

(** The token a context carries, as the router reads it. *)
Definition token (s : State LB) (ctx : Context) : option LSNContext :=
  match GetLSNContext ctx with
  | Some ptr => Some (default zeroLSNContext (heap s !! ptr))
  | None => None
  end.

(** The statement of the replay-position check. *)
Definition replayQuery : string := "SELECT " ++ PGLastWalReplayLSN.

(** What the adapter observes of a replica's replay position, given what was
    sent so far: nothing when the query or the parse fails. *)
Definition observed_replay (w : World) (sent : list Call) (d : DB) : option LSN.LSN :=
  let a := w sent (QueryRowCall d replayQuery) in
  match err a with
  | Some _ => None
  | None => LSN.ParseLSN (column a)
  end.

(** The replica has replayed up to the required position. *)
Definition caught_up (observed : option LSN.LSN) (required : LSN.LSN) : bool :=
  match observed with
  | Some l => LSN.ToUint64 required <=? LSN.ToUint64 l
  | None => false
  end.

End WithBalancer.

End Router.

(* ===================================================================== *)
(** * Facade (db.go, tx.go, resolver.go) *)
(* ===================================================================== *)

Module Facade.
Import Sys QueryKind Router.
Local Open Scope go_scope.

(** The interface [QueryTypeChecker]: one method, [Check]. *)
Definition QueryTypeChecker : Type := string -> QueryType.

(** [type DB struct]; the two balancers are part of the state.  A facade
    always has a checker ([defaultOption] installs the default one), a
    router only with causal consistency enabled. *)
Record DB : Type := mkDB {
  primaries : list Sys.DB;
  replicas : list Sys.DB;
  queryTypeChecker : QueryTypeChecker;
  queryRouter : option QueryRouter
}.

Definition provider (db : DB) : DBProvider := mkProvider (primaries db) (replicas db).

(** [type Option struct] of options.go, without the balancers. *)
Record Option : Type := mkOption {
  optPrimaryDBs : list Sys.DB;
  optReplicaDBs : list Sys.DB;
  optQueryTypeChecker : QueryTypeChecker;
  CCConfig : option CausalConsistencyConfig
}.

(** [func New(opts ...OptionFunc) *DB], after the options were applied. *)
Definition New (opt : Option) : Res DB :=
  match optPrimaryDBs opt with
  | [] => Panic "required primary db connection"
  | _ =>
      let sqlDB :=
        mkDB (optPrimaryDBs opt) (optReplicaDBs opt) (optQueryTypeChecker opt) None in
      match CCConfig opt with
      | Some c =>
          if Enabled c
          then Ok (mkDB (primaries sqlDB) (replicas sqlDB) (queryTypeChecker sqlDB)
                     (Some (Causal (NewCausalRouter (Some (provider sqlDB)) (Some c)))))
          else Ok sqlDB
      | None => Ok sqlDB
      end
  end.

(** [strings.Contains] *)
Fixpoint Contains (s substr : string) : bool :=
  String.prefix substr s ||
  match s with
  | EmptyString => false
  | String.String _ s' => Contains s' substr
  end.

Section WithBalancer.
Context {LB : Type} `{LoadBalancer LB}.

(** [isDBConnectionError] is defined in a file that is not part of the
    sources at hand; it is a parameter of the facade. *)
Variable isDBConnectionError : option error -> bool.

Local Abbreviation M := (Sys.M LB).

Definition ReadWrite (db : DB) : M Sys.DB := resolve (primaries db).

Definition ReadOnly (db : DB) : M Sys.DB :=
  if (length (replicas db) =? 0)%nat then resolve (primaries db)
  else resolve (replicas db).

(** [ReadWithLSN]; the handle a router returns may be nil. *)
Definition ReadWithLSN (db : DB) (ctx : Context) : M (option Sys.DB) :=
  match queryRouter db with
  | None => d <- ReadOnly db ;; ret (Some d)
  | Some qr =>
      res <- QueryRouter_RouteQuery qr ctx QueryTypeRead ;;
      let (selectedDB, e) := res in
      match e with
      | Some _ => d <- ReadOnly db ;; ret (Some d)
      | None => ret selectedDB
      end
  end.

(** A method call on a handle, which panics on a nil one. *)
Definition on (d : option Sys.DB) (c : Sys.DB -> Call) : M Answer :=
  match d with
  | Some d => send (c d)
  | None => panic "nil pointer dereference"
  end.

(** [func (db *DB) ExecContext(ctx, query, args...) (sql.Result, error)] *)
Definition ExecContext (db : DB) (ctx : Context) (query : string) : M Answer :=
  usedDB <- ReadWrite db ;;
  a <- send (ExecCall usedDB query) ;;
  ret a.

(** The choice of [curDB], with which [QueryContext] and [QueryRowContext]
    both start: a primary for a write, and for a read what the router says
    or, without a router, any replica. *)
Definition selectDB (db : DB) (ctx : Context) (writeFlag : bool) : M (option Sys.DB) :=
  if writeFlag then d <- ReadWrite db ;; ret (Some d)
  else match queryRouter db with
       | Some _ => ReadWithLSN db ctx
       | None => d <- ReadOnly db ;; ret (Some d)
       end.

(** [func (db *DB) QueryContext(ctx, query, args...) (rows, err)] *)
Definition QueryContext (db : DB) (ctx : Context) (query : string) : M Answer :=
  let writeFlag := QueryType_eqb (queryTypeChecker db query) QueryTypeWrite in
  curDB <- selectDB db ctx writeFlag ;;
  a <- on curDB (fun d => QueryCall d query) ;;
  if isDBConnectionError (err a) && negb writeFlag then
    d <- ReadWrite db ;;
    send (QueryCall d query)
  else ret a.

(** [func (db *DB) QueryRowContext(ctx, query, args...) *sql.Row] *)
Definition QueryRowContext (db : DB) (ctx : Context) (query : string) : M Answer :=
  let writeFlag := QueryType_eqb (queryTypeChecker db query) QueryTypeWrite in
  curDB <- selectDB db ctx writeFlag ;;
  row <- on curDB (fun d => QueryRowCall d query) ;;
  if isDBConnectionError (err row) && negb writeFlag then
    d <- ReadWrite db ;;
    send (QueryRowCall d query)
  else ret row.

(** ** Transactions (tx.go) *)

(** [type tx struct]; [txDB] is the backend the wrapped [sql.Tx] runs on. *)
Record tx : Type := mkTx {
  sourceDB : option Sys.DB;
  txDB : Sys.DB;
  txQueryRouter : option QueryRouter;
  txQueryTypeChecker : option QueryTypeChecker;
  writesOccurred : bool
}.

(** [func (db *DB) BeginTx(ctx, opts) (Tx, error)] *)
Definition BeginTx (db : DB) (ctx : Context) : M (option tx * option error) :=
  sourceDB <- ReadWrite db ;;
  a <- send (BeginCall sourceDB) ;;
  match err a with
  | Some e => ret (None, Some e)
  | None =>
      ret (Some (mkTx (Some sourceDB) sourceDB None (Some (queryTypeChecker db)) false),
           None)
  end.

Definition is_nil {A} (o : option A) : bool :=
  match o with
  | None => true
  | Some _ => false
  end.

(** [trackLSNAfterWrite]: the capture is best effort, its result is dropped. *)
Definition trackLSNAfterWrite (t : tx) (ctx : Context) (e : option error) : M unit :=
  match e, txQueryRouter t, sourceDB t with
  | None, Some qr, Some _ =>
      _ <- QueryRouter_UpdateLSNAfterWrite qr ctx (sourceDB t) ;;
      ret tt
  | _, _, _ => ret tt
  end.

Definition markWriteOperation (t : tx) (ctx : Context) (e : option error) : tx :=
  if is_nil e
  then mkTx (sourceDB t) (txDB t) (txQueryRouter t) (txQueryTypeChecker t) true
  else t.

Definition Commit (t : tx) : M (option error) :=
  a <- send (CommitCall (txDB t)) ;;
  (if is_nil (err a) && writesOccurred t
   then trackLSNAfterWrite t Background (err a)
   else ret tt) ;;;
  ret (err a).

Definition Rollback (t : tx) : M (option error) :=
  a <- send (RollbackCall (txDB t)) ;;
  ret (err a).

Definition tx_ExecContext (t : tx) (ctx : Context) (query : string)
  : M (tx * Answer) :=
  a <- send (TxExecCall (txDB t) query) ;;
  ret (markWriteOperation t ctx (err a), a).

(** The flag of a statement inside a transaction; without a checker, the
    upper-cased text is searched for RETURNING (letters of ASCII only are
    upper-cased here). *)
Definition tx_writeFlag (t : tx) (query : string) : bool :=
  match txQueryTypeChecker t with
  | Some check => QueryType_eqb (check query) QueryTypeWrite
  | None => Contains (LSN.ToUpper query) "RETURNING"
  end.

Definition tx_QueryContext (t : tx) (ctx : Context) (query : string)
  : M (tx * Answer) :=
  let writeFlag := tx_writeFlag t query in
  a <- send (TxQueryCall (txDB t) query) ;;
  ret (if writeFlag then markWriteOperation t ctx (err a) else t, a).

Definition tx_QueryRowContext (t : tx) (ctx : Context) (query : string)
  : M (tx * Answer) :=
  let writeFlag := tx_writeFlag t query in
  row <- send (TxQueryRowCall (txDB t) query) ;;
  ret (if writeFlag then markWriteOperation t ctx (err row) else t, row).

(** The state after one more call was sent and logged. *)
Definition sent (s : State LB) (c : Call) : State LB :=
  mkState (lb s) (heap s) (lastMasterLSN s) (checkers s) (trace s ++ [c]).

End WithBalancer.

(** ** Reading the log *)

(** The statement of the post-write capture. *)
Definition captureQuery : string := "SELECT " ++ PGCurrentWALLSN.

(** The backends on which the capture ran. *)
Fixpoint captures (l : list Call) : list Sys.DB :=
  match l with
  | [] => []
  | QueryRowCall d q :: l' =>
      if String.eqb q captureQuery then d :: captures l' else captures l'
  | _ :: l' => captures l'
  end.

(** The backends on which a statement was run through [QueryContext]. *)
Fixpoint queried (query : string) (l : list Call) : list Sys.DB :=
  match l with
  | [] => []
  | QueryCall d q :: l' =>
      if String.eqb q query then d :: queried query l' else queried query l'
  | _ :: l' => queried query l'
  end.

End Facade.

(* ===================================================================== *)
(** * HTTP transport (middleware.go, GetLSNFromCookie) *)
(* ===================================================================== *)

Module Middleware.
Import Sys Router.
Local Open Scope go_scope.

Inductive SameSite : Type :=
| SameSiteDefaultMode
| SameSiteLaxMode
| SameSiteStrictMode
| SameSiteNoneMode.

(** The fields of [http.Cookie] the package sets. *)
Record Cookie : Type := mkCookie {
  Name : string;
  Value : string;
  MaxAge : Z;
  HttpOnly : bool;
  Secure : bool;
  Path : string;
  SameSiteMode : SameSite
}.

(** A response header: ordinary lines, and Set-Cookie lines, which are kept
    as the cookie they serialize. *)
Inductive HeaderLine : Type :=
| Line (key value : string)
| SetCookieLine (c : Cookie).

Definition Header : Type := list HeaderLine.

(** The token bytes of RFC 7230, of which a cookie name is made. *)
Definition isTokenByte (c : ascii) : bool :=
  let b := N_of_ascii c in
  ((0x30 <=? b) && (b <=? 0x39)) || ((0x41 <=? b) && (b <=? 0x5A))
  || ((0x61 <=? b) && (b <=? 0x7A))
  || existsb (N.eqb b) (map N_of_ascii (list_ascii_of_string "!#$%&'*+-.^_`|~")).

Fixpoint allToken (s : string) : bool :=
  match s with
  | EmptyString => true
  | String.String c s' => isTokenByte c && allToken s'
  end.

Definition isCookieNameValid (raw : string) : bool :=
  match raw with
  | EmptyString => false
  | _ => allToken raw
  end.

(** [http.SetCookie]: a cookie with an invalid name serializes to the empty
    string and adds nothing. *)
Definition SetCookie (w : Header) (c : Cookie) : Header :=
  if isCookieNameValid (Name c) then (w ++ [SetCookieLine c])%list else w.

(** What the package reads of an [http.Request]: the cookies of its Cookie
    header, in order, and its context. *)
Record Request : Type := mkRequest {
  Cookies : list (string * string);
  reqContext : Context
}.

(** [Request.Cookie]: the first cookie of that name. *)
Fixpoint findCookie (name : string) (l : list (string * string)) : option string :=
  match l with
  | [] => None
  | (n, v) :: l' => if String.eqb n name then Some v else findCookie name l'
  end.

Definition Request_Cookie (r : Request) (name : string) : option string :=
  match name with
  | EmptyString => None
  | _ => findCookie name (Cookies r)
  end.

Definition WithContext (r : Request) (ctx : Context) : Request :=
  mkRequest (Cookies r) ctx.

(** [func GetLSNFromCookie(r *http.Request, cookieName string) (LSN, bool)] *)
Definition GetLSNFromCookie (r : Request) (cookieName : string) : LSN.LSN * bool :=
  match Request_Cookie r cookieName with
  | Some v =>
      if negb (String.eqb v "") then
        match LSN.ParseLSN v with
        | Some lsn => (lsn, true)
        | None => (LSN.zero, false)
        end
      else (LSN.zero, false)
  | None => (LSN.zero, false)
  end.

(** [SetLSNCookie(w, lsn, cookieName, maxAge, secure)]; durations are in
    nanoseconds, and [maxAge.Seconds()] is taken as the whole seconds. *)
Definition SetLSNCookie (w : Header) (lsn : LSN.LSN) (cookieName : string)
    (maxAge : Z) (secure : bool) : Header :=
  if LSN.IsZero lsn then w
  else
    let cookieName := if String.eqb cookieName "" then "pg_min_lsn" else cookieName in
    let maxAge := if (maxAge <=? 0)%Z then (5 * minute)%Z else maxAge in
    SetCookie w
      (mkCookie cookieName (LSN.String lsn) (Z.quot maxAge second) true secure "/"
         SameSiteLaxMode).

Record HTTPMiddleware : Type := mkMiddleware {
  router : QueryRouter;
  cookieName : string;
  cookieMaxAge : Z;
  cookieSecure : bool
}.

Definition NewHTTPMiddleware (router : QueryRouter) (cookieName : string)
    (maxAge : Z) (useSecureCookie : bool) : HTTPMiddleware :=
  mkMiddleware router
    (if String.eqb cookieName "" then "pg_min_lsn" else cookieName)
    (if (maxAge <=? 0)%Z then (5 * minute)%Z else maxAge)
    useSecureCookie.

Section WithBalancer.
Context {LB : Type}.

Local Abbreviation M := (Sys.M LB).

(** An [http.Handler], as a function of the response header so far and the
    request. *)
Definition Handler : Type := Header -> Request -> M Header.

(** [func (m *HTTPMiddleware) Middleware(next http.Handler) http.Handler].
    The handler runs [next] on the request with the new context; the
    response writer handed to [next] is a wrapper around [w]. *)
Definition Middleware (m : HTTPMiddleware) (next : Handler) : Handler :=
  fun w r =>
    let ctx := reqContext r in
    let (requiredLSN, hasLSN) := GetLSNFromCookie r (cookieName m) in
    lsnCtx <- alloc zeroLSNContext ;;
    (if hasLSN
     then store lsnCtx (mkLSNContext requiredLSN NoneCausalConsistency false false)
     else ret tt) ;;;
    let ctx := WithLSNContext ctx (Some lsnCtx) in
    next w (WithContext r ctx).

End WithBalancer.

End Middleware.

(* ===================================================================== *)
(** * Replication lag and the router's cache (pg_lsn_checker.go,
      causalconsistency.go) *)
(* ===================================================================== *)

Module Replication.
Import Sys QueryKind Router.
Local Open Scope go_scope.

Section WithBalancer.
Context {LB : Type} `{LoadBalancer LB}.

Local Abbreviation M := (Sys.M LB).

(** [func (c *PGLSNChecker) GetReplicationLag(ctx, masterLSN) (uint64, error)] *)
Definition GetReplicationLag (c : PGLSNChecker) (masterLSN : LSN.LSN)
  : M (N * option error) :=
  res <- GetLastReplayLSN c ;;
  let (replicaLSN, e) := res in
  match e with
  | Some e => ret (0, Some e)
  | None =>
      let lag := LSN.Subtract masterLSN replicaLSN in
      ret (lag, None)
  end.

(** [func (c *PGLSNChecker) IsReplicaHealthy(ctx, masterLSN, maxLagBytes) (bool, error)] *)
Definition IsReplicaHealthy (c : PGLSNChecker) (masterLSN : LSN.LSN) (maxLagBytes : N)
  : M (bool * option error) :=
  res <- GetLastReplayLSN c ;;
  let (replicaLSN, e) := res in
  match e with
  | Some e => ret (false, Some e)
  | None =>
      if negb (LSN.IsZero masterLSN) then
        let lag := LSN.Subtract masterLSN replicaLSN in
        ret (lag <=? maxLagBytes, None)
      else ret (true, None)
  end.

(** [func (r *CausalRouter) GetCurrentMasterLSN(ctx) (LSN, error)]: the
    first primary is asked, not the one the balancer would pick. *)
Definition GetCurrentMasterLSN (r : CausalRouter) (ctx : Context)
  : M (LSN.LSN * option error) :=
  if negb (Enabled (config r))
  then ret (LSN.zero, Some (Errorf "LSN tracking not enabled"))
  else
    match dbProvider r with
    | None => panic "nil pointer dereference"
    | Some p =>
        match PrimaryDBs p with
        | [] => ret (LSN.zero, Some (Errorf "no primary databases available"))
        | primary :: _ =>
            checker <- getOrCreateChecker (Some primary) (routerQueryTimeout r) ;;
            match checker with
            | None => panic "nil pointer dereference"
            | Some checker =>
                res <- GetCurrentWALLSN checker ;;
                let (lsn, e) := res in
                match e with
                | Some e => ret (LSN.zero, Some (Errorw "failed to get master LSN" e))
                | None => setLastMasterLSN lsn ;;; ret (lsn, None)
                end
            end
        end
    end.

(** [func (r *CausalRouter) GetLastKnownMasterLSN() LSN] *)
Definition GetLastKnownMasterLSN (r : CausalRouter) : M LSN.LSN :=
  fun _ s => (Ok (lastMasterLSN s), s).

(** What the adapter observes of a primary's position, given what was sent
    so far: nothing when the query or the parse fails. *)
Definition observed_position (w : World) (sent : list Call) (d : DB) : option LSN.LSN :=
  let a := w sent (QueryRowCall d Facade.captureQuery) in
  match err a with
  | Some _ => None
  | None => LSN.ParseLSN (column a)
  end.

End WithBalancer.

End Replication.

(* ===================================================================== *)
(** * Options (options.go, resolver.go) *)
(* ===================================================================== *)

Module Options.
Import Sys QueryKind Router Facade.

(** [type OptionFunc func(opt *Option)] *)
Definition OptionFunc : Type := Option -> Option.

Definition WithPrimaryDBs (primaryDBs : list Sys.DB) : OptionFunc :=
  fun opt =>
    mkOption primaryDBs (optReplicaDBs opt) (optQueryTypeChecker opt) (CCConfig opt).

Definition WithReplicaDBs (replicaDBs : list Sys.DB) : OptionFunc :=
  fun opt =>
    mkOption (optPrimaryDBs opt) replicaDBs (optQueryTypeChecker opt) (CCConfig opt).

Definition WithQueryTypeChecker (checker : QueryTypeChecker) : OptionFunc :=
  fun opt => mkOption (optPrimaryDBs opt) (optReplicaDBs opt) checker (CCConfig opt).

Definition defaultOption : Option :=
  mkOption [] [] (Check NewDefaultQueryTypeChecker) (Some DefaultCausalConsistencyConfig).

(** [if opt.CCConfig == nil { opt.CCConfig = DefaultCausalConsistencyConfig() }] *)
Definition orDefault (opt : Option) : CausalConsistencyConfig :=
  default DefaultCausalConsistencyConfig (CCConfig opt).

Definition withConfig (opt : Option) (c : CausalConsistencyConfig) : Option :=
  mkOption (optPrimaryDBs opt) (optReplicaDBs opt) (optQueryTypeChecker opt) (Some c).

Definition WithCausalConsistencyLevel (level : CausalConsistencyLevel) : OptionFunc :=
  fun opt =>
    let c := orDefault opt in
    withConfig opt
      (mkConfig true level (RequireCookie c) (CookieName c) (CookieMaxAge c)
         (FallbackToMaster c) (Timeout c)).

Definition WithLSNQueryTimeout (timeout : Z) : OptionFunc :=
  fun opt =>
    let c := orDefault opt in
    withConfig opt
      (mkConfig true (cfgLevel c) (RequireCookie c) (CookieName c) (CookieMaxAge c)
         (FallbackToMaster c) timeout).

Definition WithMasterFallback (fallback : bool) : OptionFunc :=
  fun opt =>
    let c := orDefault opt in
    withConfig opt
      (mkConfig true (cfgLevel c) (RequireCookie c) (CookieName c) (CookieMaxAge c)
         fallback (Timeout c)).

Definition WithCausalConsistencyConfig (config : option CausalConsistencyConfig)
  : OptionFunc :=
  fun opt =>
    match config with
    | Some c => withConfig opt c
    | None => opt
    end.

(** The options applied in order to the default ones. *)
Definition applied (opts : list OptionFunc) : Option :=
  fold_left (fun opt optFunc => optFunc opt) opts defaultOption.

(** [func New(opts ...OptionFunc) *DB] *)
Definition New (opts : list OptionFunc) : Res DB := Facade.New (applied opts).

(** [func (db *DB) IsCausalConsistencyEnabled() bool] *)
Definition IsCausalConsistencyEnabled (db : DB) : bool :=
  match queryRouter db with
  | Some (Causal _) => true
  | _ => false
  end.

(** The three options that tune causal consistency. *)
Inductive tuning : OptionFunc -> Prop :=
| tune_level level : tuning (WithCausalConsistencyLevel level)
| tune_timeout timeout : tuning (WithLSNQueryTimeout timeout)
| tune_fallback fallback : tuning (WithMasterFallback fallback).

End Options.

(* ===================================================================== *)
(** * Other routers (router_examples.go) *)
(* ===================================================================== *)

Module Routers.
Import Sys QueryKind Router.

(** [type RoundRobinRouter struct]: the router owns its two counters. *)
Record RoundRobinRouter : Type := mkRoundRobinRouter {
  rrProvider : option DBProvider;
  primariesIndex : Z;
  replicasIndex : Z
}.

Definition NewRoundRobinRouter (dbProvider : option DBProvider) : RoundRobinRouter :=
  mkRoundRobinRouter dbProvider 0 0.

(** Go's [int], of 64 bits: an increment past the largest value wraps
    around to the smallest. *)
Definition int (z : Z) : Z := ((z + 2 ^ 63) mod 2 ^ 64 - 2 ^ 63)%Z.

(** [dbs[i]], which panics when [i] is out of range. *)
Definition at_index (dbs : list DB) (i : Z) : Res DB :=
  if ((0 <=? i) && (i <? Z.of_nat (length dbs)))%Z
  then match nth_error dbs (Z.to_nat i) with
       | Some d => Ok d
       | None => Panic "index out of range"
       end
  else Panic "index out of range".

(** [RouteQuery] of [RoundRobinRouter], a handle and an error;
    the router after the call is returned with the result.  [%] is the
    remainder of the truncated division. *)
Definition RoundRobin_RouteQuery (r : RoundRobinRouter) (ctx : Context)
    (queryType : QueryType) : Res (option DB * option error) * RoundRobinRouter :=
  match rrProvider r with
  | None => (Ok (None, Some (Errorf "no database provider available")), r)
  | Some p =>
      let primaries := PrimaryDBs p in
      let replicas := ReplicaDBs p in
      if (length primaries =? 0)%nat
      then (Ok (None, Some (Errorf "no primary databases available")), r)
      else
        let fromPrimaries :=
          match at_index primaries
                  (Z.rem (primariesIndex r) (Z.of_nat (length primaries))) with
          | Panic msg => (Panic msg, r)
          | Ok selected =>
              (Ok (Some selected, None),
               mkRoundRobinRouter (rrProvider r) (int (primariesIndex r + 1))
                 (replicasIndex r))
          end in
        match queryType with
        | QueryTypeWrite => fromPrimaries
        | QueryTypeRead =>
            if (0 <? length replicas)%nat then
              match at_index replicas
                      (Z.rem (replicasIndex r) (Z.of_nat (length replicas))) with
              | Panic msg => (Panic msg, r)
              | Ok selected =>
                  (Ok (Some selected, None),
                   mkRoundRobinRouter (rrProvider r) (primariesIndex r)
                     (int (replicasIndex r + 1)))
              end
            else fromPrimaries
        | QueryTypeUnknown => fromPrimaries
        end
  end.

(** [UpdateLSNAfterWrite] of [RoundRobinRouter]: nothing is tracked. *)
Definition RoundRobin_UpdateLSNAfterWrite (r : RoundRobinRouter) (ctx : Context)
    (d : option DB) : LSN.LSN * option error := (LSN.zero, None).

(** Queries routed one after the other, on the same router: the handles
    they get, up to the first call that gets none. *)
Fixpoint routed (r : RoundRobinRouter) (ctx : Context) (queries : list QueryType)
  : list DB * RoundRobinRouter :=
  match queries with
  | [] => ([], r)
  | queryType :: queries' =>
      match RoundRobin_RouteQuery r ctx queryType with
      | (Ok (Some d, _), r') =>
          let (ds, r'') := routed r' ctx queries' in (d :: ds, r'')
      | (_, r') => ([], r')
      end
  end.

End Routers.

(* ===================================================================== *)
(** * Whole transactions (tx.go, db.go) *)
(* ===================================================================== *)

Module Script.
Import Sys QueryKind Router Facade.
Local Open Scope go_scope.

(** A statement of a transaction, by the method that runs it. *)
Inductive TxOp : Type :=
| OpExec (query : string)
| OpQuery (query : string)
| OpQueryRow (query : string).

(** The backend a call goes to. *)
Definition backend (c : Call) : Sys.DB :=
  match c with
  | ExecCall d _ | QueryCall d _ | QueryRowCall d _ | BeginCall d
  | TxExecCall d _ | TxQueryCall d _ | TxQueryRowCall d _
  | CommitCall d | RollbackCall d => d
  end.

(** The calls that ask no backend for a row: none of them is a capture. *)
Definition quiet (c : Call) : Prop :=
  match c with
  | QueryRowCall _ _ => False
  | _ => True
  end.

Section WithBalancer.
Context {LB : Type} `{LoadBalancer LB}.

Local Abbreviation M := (Sys.M LB).

Definition tx_step (t : tx) (ctx : Context) (op : TxOp) : M tx :=
  match op with
  | OpExec query => r <- tx_ExecContext t ctx query ;; ret (fst r)
  | OpQuery query => r <- tx_QueryContext t ctx query ;; ret (fst r)
  | OpQueryRow query => r <- tx_QueryRowContext t ctx query ;; ret (fst r)
  end.

(** The statements of a transaction, one after the other. *)
Fixpoint tx_run (t : tx) (ctx : Context) (ops : list TxOp) : M tx :=
  match ops with
  | [] => ret t
  | op :: ops' => t' <- tx_step t ctx op ;; tx_run t' ctx ops'
  end.

(** A whole transaction: begin, the statements, then commit or roll back.
    When it cannot begin, the error of [BeginTx] is the outcome. *)
Definition transaction (db : DB) (ctx : Context) (ops : list TxOp) (commit : bool)
  : M (option error) :=
  res <- BeginTx db ctx ;;
  match res with
  | (Some t, _) =>
      t' <- tx_run t ctx ops ;;
      if commit then Commit t' else Rollback t'
  | (None, e) => ret e
  end.

End WithBalancer.

End Script.

(* ===================================================================== *)
(** * Notions the further properties are stated with *)
(* ===================================================================== *)

Module Notions.
Import Sys QueryKind Router Facade.

(** The token asks for nothing: there is none, or it neither forces the
    primary nor, where [lsn] is set, requires a position. *)
Definition idle (tok : option LSNContext) (lsn : bool) : Prop :=
  match tok with
  | Some t => ForceMaster t = false /\ (lsn = true -> LSN.IsZero (RequiredLSN t) = true)
  | None => True
  end.

(** The router of a facade is none, or a causal one over its pools. *)
Definition own_router (db : Facade.DB) : Prop :=
  match queryRouter db with
  | None => True
  | Some (Causal r) => dbProvider r = Some (provider db)
  | Some (Simple _) => False
  end.

End Notions.

(* ===================================================================== *)
(** * A small deployment: one primary, one replica *)
(* ===================================================================== *)

Module Example.
Import Sys QueryKind Router Facade Middleware.

(** One primary, backend 1, and one replica, backend 2. *)
Definition pools : DBProvider := mkProvider [1%nat] [2%nat].

Definition ccConfig : CausalConsistencyConfig :=
  mkConfig true ReadYourWrites false "pg_min_lsn" (5 * minute) true (3 * second).

Definition router0 : CausalRouter := NewCausalRouter (Some pools) (Some ccConfig).

(** The facade [New] builds over these pools. *)
Definition db0 : Facade.DB :=
  mkDB [1%nat] [2%nat] (Check NewDefaultQueryTypeChecker) (Some (Causal router0)).

(** A world in which every statement succeeds, the primary is at 0/3000060
    and the replica has replayed up to 0/3000040. *)
Definition lagging : World :=
  fun _ c =>
    match c with
    | QueryRowCall 1%nat q =>
        if String.eqb q captureQuery then mkAnswer None "0/3000060" else mkAnswer None ""
    | QueryRowCall 2%nat q =>
        if String.eqb q replayQuery then mkAnswer None "0/3000040" else mkAnswer None ""
    | _ => mkAnswer None ""
    end.

(** The same with the replica at 0/3000080. *)
Definition caughtUp : World :=
  fun _ c =>
    match c with
    | QueryRowCall 2%nat q =>
        if String.eqb q replayQuery then mkAnswer None "0/3000080" else mkAnswer None ""
    | _ => lagging [] c
    end.

(** A world in which the replica's pool fails with a driver error. *)
Definition replicaDown : World :=
  fun _ c =>
    match c with
    | QueryCall 2%nat _ => mkAnswer (Some (ErrDriver 1)) ""
    | _ => mkAnswer None ""
    end.

Definition isConn (e : option error) : bool :=
  match e with
  | Some (ErrDriver 1) => true
  | _ => false
  end.

Definition init : State nat := mkState 0%nat ∅ LSN.zero ∅ [].

Definition lsn60 : LSN.LSN := LSN.mkLSN 0 0x3000060.

(** A request context that carries a token, the object at address 0. *)
Definition ctxTok : Context := WithLSNContext Background (Some 0%nat).

Definition withToken (t : LSNContext) : State nat :=
  mkState 0%nat {[0%nat := t]} LSN.zero ∅ [].

Definition tok60 : LSNContext := mkLSNContext lsn60 ReadYourWrites false false.

Definition selectStmt : string := "SELECT * FROM t".
Definition insertStmt : string := "INSERT INTO t VALUES (1)".

Definition badCookie : Request := mkRequest [("pg_min_lsn", "not-an-lsn")] Background.

Definition mw0 : HTTPMiddleware := NewHTTPMiddleware (Causal router0) "" 0 false.

(** A handler that reports whether its request context carries a token. *)
Definition probe : @Handler nat :=
  fun hw r =>
    ret (match GetLSNContext (reqContext r) with
         | Some _ => (hw ++ [Line "X-Token" "attached"])%list
         | None => (hw ++ [Line "X-Token" "none"])%list
         end).

End Example.

Module ExampleMore.
Import Sys QueryKind Router Facade Middleware Example.

(** The configuration of the examples with the fallback switched off. *)
Definition strictConfig : CausalConsistencyConfig :=
  mkConfig true ReadYourWrites false "pg_min_lsn" (5 * minute) false (3 * second).

Definition strictRouter : CausalRouter := NewCausalRouter (Some pools) (Some strictConfig).

Definition strictDB : Facade.DB :=
  mkDB [1%nat] [2%nat] (Check NewDefaultQueryTypeChecker) (Some (Causal strictRouter)).

(** A token that forces the primary. *)
Definition tokForced : LSNContext := mkLSNContext lsn60 ReadYourWrites true false.

(** A token as the middleware attaches it for a request without a cookie. *)
Definition tokIdle : LSNContext := zeroLSNContext.

(** A request that presents the position 0/3000060. *)
Definition goodCookie : Request := mkRequest [("pg_min_lsn", "0/3000060")] Background.

(** Three replicas, and a round-robin router whose counter for them stands
    at 4. *)
Definition threeReplicas : DBProvider := mkProvider [1%nat] [2%nat; 3%nat; 4%nat].

Definition rr4 : Routers.RoundRobinRouter :=
  Routers.mkRoundRobinRouter (Some threeReplicas) 0 4.

End ExampleMore.

(* ===================================================================== *)
(** * Properties of the LSN value type *)
(* ===================================================================== *)

Module LSNFacts.
Import LSN.

(** Every byte is one of 256 values; facts about single digits are checked
    on all of them. *)
Ltac by_byte c :=
  destruct c as [[] [] [] [] [] [] [] []]; vm_compute;
  try discriminate; try reflexivity; try (intros; discriminate); auto.

Lemma hex_digit_val (c : ascii) :
  is_hex_digit c = true -> exists d, digit_val c = Some d /\ d < 16 /\ udigit d = upper_ascii c.
Proof.
  destruct c as [[] [] [] [] [] [] [] []]; vm_compute; try discriminate;
    intros _; eexists; (split; [reflexivity | split; reflexivity]).
Qed.

Lemma hex_digit_not_slash (c : ascii) :
  is_hex_digit c = true -> Ascii.eqb c "/" = false.
Proof. by_byte c. Qed.

Lemma zero_digit (c : ascii) : Ascii.eqb c "0" = true -> digit_val c = Some 0.
Proof. by_byte c. Qed.

Lemma nonzero_digit (c : ascii) d :
  Ascii.eqb c "0" = false -> digit_val c = Some d -> d < 16 -> 1 <= d.
Proof.
  destruct c as [[] [] [] [] [] [] [] []]; vm_compute; try discriminate;
    intros _ [= <-]; intros; try discriminate; auto.
Qed.

Lemma all_hex_cons c s :
  all_hex (String.String c s) = true <-> is_hex_digit c = true /\ all_hex s = true.
Proof. simpl. apply andb_true_iff. Qed.

(** ** Split *)

Lemma Split_hex (a : string) : all_hex a = true -> Split a "/" = [a].
Proof.
  induction a as [|c a IH]; [reflexivity|].
  intros [Hc Ha]%all_hex_cons. simpl.
  rewrite (hex_digit_not_slash c Hc), (IH Ha). reflexivity.
Qed.

Lemma Split_two (a b : string) :
  all_hex a = true -> all_hex b = true -> Split (a ++ "/" ++ b) "/" = [a; b].
Proof.
  intros Ha Hb. induction a as [|c a IH].
  - change (Split ("" ++ "/" ++ b) "/") with (EmptyString :: Split b "/").
    rewrite (Split_hex b Hb). reflexivity.
  - apply all_hex_cons in Ha as [Hc Ha].
    change (Split (String.String c a ++ "/" ++ b) "/")
      with (if Ascii.eqb c "/" then EmptyString :: Split (a ++ "/" ++ b) "/"
            else match Split (a ++ "/" ++ b) "/" with
                 | hd :: tl => String.String c hd :: tl
                 | [] => [String.String c EmptyString]
                 end).
    rewrite (hex_digit_not_slash c Hc), (IH Ha). reflexivity.
Qed.

(** ** ParseUint on a segment *)

Lemma hexfold_bound (s : string) : forall n,
  all_hex s = true -> hexfold s n < (n + 1) * 16 ^ N.of_nat (String.length s).
Proof.
  induction s as [|c s IH]; intros n Hs.
  - simpl. lia.
  - apply all_hex_cons in Hs as [Hc Hs].
    destruct (hex_digit_val c Hc) as (d & Hd & Hlt & _).
    cbn [hexfold String.length]. rewrite Hd.
    specialize (IH (16 * n + d) Hs).
    rewrite Nat2N.inj_succ, N.pow_succ_r'. nia.
Qed.

Lemma loop_hex (s : string) : forall n,
  all_hex s = true ->
  (n + 1) * 16 ^ N.of_nat (String.length s) <= 2 ^ 32 ->
  ParseUint_loop 16 (2 ^ 32 - 1) (maxUint64 / 16 + 1) s n = Some (hexfold s n).
Proof.
  induction s as [|c s IH]; intros n Hs Hn.
  - reflexivity.
  - apply all_hex_cons in Hs as [Hc Hs].
    destruct (hex_digit_val c Hc) as (d & Hd & Hlt & _).
    cbn [ParseUint_loop hexfold String.length] in *. rewrite Hd.
    rewrite Nat2N.inj_succ, N.pow_succ_r' in Hn.
    assert (H16 : 1 <= 16 ^ N.of_nat (String.length s)) by (apply N.neq_0_le_1, N.pow_nonzero; lia).
    assert (Hn32 : 16 * n + d < 2 ^ 32) by nia.
    assert (Hcut : maxUint64 / 16 + 1 = 2 ^ 60) by reflexivity.
    rewrite Hcut.
    destruct (N.leb_spec 16 d); [lia|].
    destruct (N.leb_spec (2 ^ 60) n); [change (2 ^ 60) with 1152921504606846976 in *; change (2 ^ 32) with 4294967296 in *; lia|].
    unfold uint64.
    rewrite (N.mod_small (n * 16)) by (change (2 ^ 64) with 18446744073709551616; change (2 ^ 32) with 4294967296 in *; lia).
    rewrite (N.mod_small (n * 16 + d)) by (change (2 ^ 64) with 18446744073709551616; change (2 ^ 32) with 4294967296 in *; lia).
    destruct (N.ltb_spec (n * 16 + d) (n * 16)); [lia|].
    destruct (N.ltb_spec (2 ^ 32 - 1) (n * 16 + d)); [change (2 ^ 32) with 4294967296 in *; lia|].
    simpl orb. cbv iota.
    replace (n * 16 + d) with (16 * n + d) by lia.
    apply IH; [assumption | nia].
Qed.

Lemma pow16_le (k : nat) : (k <= 8)%nat -> 16 ^ N.of_nat k <= 2 ^ 32.
Proof.
  intros Hk. change (2 ^ 32) with (16 ^ 8).
  apply N.pow_le_mono_r; lia.
Qed.

Lemma ParseUint_segment (s : string) :
  hex_segment s = true ->
  ParseUint s 16 32 = Some (hexfold s 0) /\ hexfold s 0 < 2 ^ 32.
Proof.
  unfold hex_segment. intros [[Hs H1]%andb_true_iff H8]%andb_true_iff.
  apply Nat.leb_le in H1, H8.
  assert (Hb := hexfold_bound s 0 Hs).
  assert (Hp := pow16_le _ H8).
  split; [|lia].
  destruct s as [|c s]; [simpl in H1; lia|].
  unfold ParseUint. apply loop_hex; [assumption | lia].
Qed.

(** ** Formatting *)

Lemma fmt_step (f : nat) (v d : N) (buf : string) :
  1 <= v -> d < 16 ->
  fmt_hex_loop (S f) (16 * v + d) buf = fmt_hex_loop f v (String.String (udigit d) buf).
Proof.
  intros Hv Hd. cbn [fmt_hex_loop].
  destruct (N.leb_spec 16 (16 * v + d)); [|lia].
  rewrite N.shiftr_div_pow2. change 15 with (N.ones 4). rewrite N.land_ones.
  change (2 ^ 4) with 16.
  replace (16 * v + d) with (d + v * 16) by lia.
  rewrite N.div_add, N.Div0.mod_add by lia.
  rewrite N.div_small, N.mod_small by lia. reflexivity.
Qed.

Lemma fmt_fold (s : string) : forall (f : nat) (n : N) (buf : string),
  all_hex s = true -> 1 <= n ->
  fmt_hex_loop (f + String.length s) (hexfold s n) buf = fmt_hex_loop f n (ToUpper s ++ buf).
Proof.
  induction s as [|c s IH]; intros f n buf Hs Hn.
  - simpl. rewrite Nat.add_0_r. reflexivity.
  - apply all_hex_cons in Hs as [Hc Hs].
    destruct (hex_digit_val c Hc) as (d & Hd & Hlt & Hu).
    cbn [hexfold String.length ToUpper]. rewrite Hd.
    replace (f + S (String.length s))%nat with (S f + String.length s)%nat by lia.
    rewrite IH by (assumption || lia).
    rewrite fmt_step by assumption. rewrite Hu. reflexivity.
Qed.

Lemma append_empty_r (s : string) : s ++ "" = s.
Proof.
  induction s as [|c s IH]; [reflexivity|].
  change (String.String c (s ++ "") = String.String c s). rewrite IH. reflexivity.
Qed.

Lemma strip0_cons2 (a b : ascii) (t : string) :
  strip0 (String.String a (String.String b t)) =
  if Ascii.eqb a "0" then strip0 (String.String b t)
  else String.String a (String.String b t).
Proof. reflexivity. Qed.

Lemma strip0_length (s : string) : (String.length (strip0 s) <= String.length s)%nat.
Proof.
  induction s as [|a s IH]; [simpl; lia|].
  destruct s as [|b t]; [simpl; lia|].
  rewrite strip0_cons2. destruct (Ascii.eqb a "0"); cbn [String.length] in *; lia.
Qed.

(** A segment that keeps no leading zero prints as its upper-case form. *)
Lemma fmtX_canonical (s : string) :
  hex_segment s = true -> strip0 s = s -> fmtX (hexfold s 0) = ToUpper s.
Proof.
  unfold hex_segment. intros [[Hs H1]%andb_true_iff H8]%andb_true_iff Hstrip.
  apply Nat.leb_le in H1, H8.
  destruct s as [|c s]; [simpl in H1; lia|].
  apply all_hex_cons in Hs as [Hc Hs].
  destruct (hex_digit_val c Hc) as (d & Hd & Hlt & Hu).
  cbn [hexfold ToUpper]. rewrite Hd. replace (16 * 0 + d) with d by lia.
  destruct s as [|c' s].
  - simpl. unfold fmtX. cbn [fmt_hex_loop].
    destruct (N.leb_spec 16 d); [lia|]. rewrite Hu. reflexivity.
  - assert (Hc0 : Ascii.eqb c "0" = false).
    { destruct (Ascii.eqb c "0") eqn:E; [|reflexivity].
      exfalso. rewrite strip0_cons2, E in Hstrip.
      assert (Hl := strip0_length (String.String c' s)).
      rewrite Hstrip in Hl. cbn [String.length] in Hl. lia. }
    assert (Hd1 := nonzero_digit c d Hc0 Hd Hlt).
    unfold fmtX. cbn [String.length] in H8.
    replace 16%nat with ((15 - String.length s) + String.length (String.String c' s))%nat
      by (cbn [String.length]; lia).
    rewrite fmt_fold by assumption.
    destruct (15 - String.length s)%nat as [|f] eqn:E; [lia|].
    cbn [fmt_hex_loop]. destruct (N.leb_spec 16 d); [lia|].
    rewrite Hu, append_empty_r. reflexivity.
Qed.

Lemma hexfold_strip0 (s : string) : hexfold (strip0 s) 0 = hexfold s 0.
Proof.
  induction s as [|a s IH]; [reflexivity|].
  destruct s as [|b t]; [reflexivity|].
  rewrite strip0_cons2. destruct (Ascii.eqb a "0") eqn:E; [|reflexivity].
  rewrite IH. cbn [hexfold]. rewrite (zero_digit a E). reflexivity.
Qed.

Lemma strip0_idem (s : string) : strip0 (strip0 s) = strip0 s.
Proof.
  induction s as [|a s IH]; [reflexivity|].
  destruct s as [|b t]; [reflexivity|].
  rewrite strip0_cons2. destruct (Ascii.eqb a "0") eqn:E; [assumption|].
  rewrite strip0_cons2, E. reflexivity.
Qed.

Lemma strip0_all_hex (s : string) : all_hex s = true -> all_hex (strip0 s) = true.
Proof.
  induction s as [|a s IH]; [reflexivity|].
  destruct s as [|b t]; [trivial|].
  rewrite strip0_cons2. intros H. destruct (Ascii.eqb a "0"); [|assumption].
  apply IH. apply all_hex_cons in H. tauto.
Qed.

Lemma strip0_nonempty (s : string) : (1 <= String.length s -> 1 <= String.length (strip0 s))%nat.
Proof.
  induction s as [|a s IH]; [trivial|].
  destruct s as [|b t]; [trivial|].
  rewrite strip0_cons2. intros _. destruct (Ascii.eqb a "0"); [|cbn [String.length]; lia].
  apply IH. cbn [String.length]. lia.
Qed.

Lemma strip0_segment (s : string) : hex_segment s = true -> hex_segment (strip0 s) = true.
Proof.
  unfold hex_segment. intros [[Hs H1]%andb_true_iff H8]%andb_true_iff.
  apply Nat.leb_le in H1, H8.
  rewrite (strip0_all_hex s Hs). cbn [andb].
  apply andb_true_iff. split; apply Nat.leb_le.
  - apply strip0_nonempty, H1.
  - pose proof (strip0_length s). lia.
Qed.

(** Whatever its leading zeros, a segment prints without them. *)
Lemma fmtX_segment (s : string) :
  hex_segment s = true -> fmtX (hexfold s 0) = ToUpper (strip0 s).
Proof.
  intros Hs. rewrite <- hexfold_strip0.
  apply fmtX_canonical; [apply strip0_segment, Hs | apply strip0_idem].
Qed.

Lemma ToUpper_app (a b : string) : ToUpper (a ++ b) = ToUpper a ++ ToUpper b.
Proof.
  induction a as [|c a IH]; [reflexivity|].
  change (String.String (upper_ascii c) (ToUpper (a ++ b))
          = String.String (upper_ascii c) (ToUpper a ++ ToUpper b)).
  rewrite IH. reflexivity.
Qed.

Lemma ParseLSN_two (a b : string) :
  all_hex a = true -> all_hex b = true ->
  ParseLSN (a ++ "/" ++ b) =
  match ParseUint a 16 32 with
  | None => None
  | Some upper =>
      match ParseUint b 16 32 with
      | None => None
      | Some lower => Some (mkLSN (uint32 upper) (uint32 lower))
      end
  end.
Proof.
  intros Ha Hb. unfold ParseLSN. rewrite (Split_two a b Ha Hb).
  destruct a; reflexivity.
Qed.

(** C6, as the code has it.  For every valid LSN string [a/b] (two segments
    of 1-8 hexadecimal digits, leading zeros permitted), [ParseLSN]
    succeeds, and [String] of the result is the upper-case form of the
    string with the leading zeros of each segment removed (one digit always
    stays); it is the upper-case form of the string itself when no segment
    has a leading zero to remove. *)
Theorem parse_then_string (a b : string) :
  hex_segment a = true -> hex_segment b = true ->
  exists l,
    ParseLSN (a ++ "/" ++ b) = Some l /\ wf l /\
    LSN.String l = ToUpper (strip0 a) ++ "/" ++ ToUpper (strip0 b) /\
    (strip0 a = a -> strip0 b = b -> LSN.String l = ToUpper (a ++ "/" ++ b)).
Proof.
  intros Ha Hb.
  destruct (ParseUint_segment a Ha) as [Pa Va].
  destruct (ParseUint_segment b Hb) as [Pb Vb].
  assert (Hxa : all_hex a = true).
  { unfold hex_segment in Ha. apply andb_true_iff in Ha as [Ha _].
    apply andb_true_iff in Ha as [Ha _]. exact Ha. }
  assert (Hxb : all_hex b = true).
  { unfold hex_segment in Hb. apply andb_true_iff in Hb as [Hb _].
    apply andb_true_iff in Hb as [Hb _]. exact Hb. }
  exists (mkLSN (hexfold a 0) (hexfold b 0)).
  assert (HS : LSN.String (mkLSN (hexfold a 0) (hexfold b 0))
               = ToUpper (strip0 a) ++ "/" ++ ToUpper (strip0 b)).
  { unfold LSN.String. cbn [Upper Lower].
    rewrite (fmtX_segment a Ha), (fmtX_segment b Hb). reflexivity. }
  split; [|split; [|split]].
  - rewrite (ParseLSN_two a b Hxa Hxb), Pa, Pb. unfold uint32.
    rewrite !N.mod_small by assumption. reflexivity.
  - split; assumption.
  - exact HS.
  - intros Ea Eb. rewrite HS, Ea, Eb, !ToUpper_app. reflexivity.
Qed.

(** The theorem at ["0/03000060"], a string with a leading zero. *)
Lemma parse_then_string_witness :
  exists l,
    ParseLSN ("0" ++ "/" ++ "03000060") = Some l /\ wf l /\
    LSN.String l = ToUpper (strip0 "0") ++ "/" ++ ToUpper (strip0 "03000060") /\
    (strip0 "0" = "0" -> strip0 "03000060" = "03000060" ->
     LSN.String l = ToUpper ("0" ++ "/" ++ "03000060")).
Proof. apply (parse_then_string "0" "03000060"); reflexivity. Defined.

(** C6 as the specification words it fails where a segment has a leading
    zero: ["0/03000060"] is a valid LSN string, and parsing then serializing
    it gives ["0/3000060"], not the string itself. *)
Lemma roundtrip_drops_leading_zeros :
  valid_lsn_string "0/03000060" /\
  option_map LSN.String (ParseLSN "0/03000060") = Some "0/3000060" /\
  option_map LSN.String (ParseLSN "0/03000060") <> Some (ToUpper "0/03000060").
Proof.
  split; [|split].
  - exists "0", "03000060". repeat split; reflexivity.
  - vm_compute. reflexivity.
  - vm_compute. discriminate.
Qed.

End LSNFacts.

(* ===================================================================== *)
(** * Properties of the classifier *)
(* ===================================================================== *)

Module QueryKindFacts.
Import QueryKind.

Lemma last_or_nil prev : last_or prev [] = prev.
Proof. reflexivity. Qed.

Lemma last_or_cons prev x l : last_or prev (x :: l) = last_or (Some x) l.
Proof.
  revert prev x. induction l as [|y l IH]; intros prev x; [reflexivity|].
  change (last_or prev (x :: y :: l)) with (last_or prev (y :: l)).
  rewrite (IH prev y), (IH (Some x) y). reflexivity.
Qed.

Lemma last_or_None l : last_or None l = last l.
Proof. unfold last_or. destruct (last l); reflexivity. Qed.

Lemma last_or_app prev a b : last_or prev (a ++ b)%list = last_or (last_or prev a) b.
Proof.
  revert prev. induction a as [|x a IH]; intros prev; [reflexivity|].
  rewrite <- app_comm_cons, !last_or_cons. apply IH.
Qed.

(** ** Literals *)

Lemma matches_lit (w : list rune) : forall prev s k,
  matches (lit w) prev s k = true <->
  exists tok rest, s = (tok ++ rest)%list /\ lit_matches w tok /\
                   k (last_or prev tok) rest = true.
Proof.
  induction w as [|c w IH]; intros prev s k; cbn [lit matches].
  - split.
    + intros Hk. exists [], s. repeat split; [constructor | exact Hk].
    + intros (tok & rest & -> & Hf & Hk). inversion Hf; subst. exact Hk.
  - destruct s as [|x s].
    + split; [discriminate|].
      intros (tok & rest & E & Hf & _). inversion Hf; subst. discriminate.
    + rewrite andb_true_iff, IH. split.
      * intros (Hx & tok & rest & -> & Hf & Hk).
        exists (x :: tok), rest. repeat split.
        -- constructor; assumption.
        -- rewrite last_or_cons. exact Hk.
      * intros (tok & rest & E & Hf & Hk). inversion Hf as [|c' x' w' tok' Hx Hf']; subst.
        injection E as -> ->. split; [exact Hx|].
        exists tok', rest. repeat split; [exact Hf'|].
        rewrite last_or_cons in Hk. exact Hk.
Qed.

(** Under the fold flag an upper-case ASCII letter matches exactly the
    runes of its orbit, which are the runes [canon] sends to it. *)
Lemma match_lit_canon (c x : rune) :
  upper_letter c -> (match_lit c true x = true <-> canon x = c).
Proof.
  unfold upper_letter. intros Hc.
  assert (Hcases : c = 0x4B \/ c = 0x53 \/ (c <> 0x4B /\ c <> 0x53)) by lia.
  unfold match_lit, canon. cbn [andb].
  destruct Hcases as [-> | [-> | [HK HS]]].
  - change (SimpleFold 75) with 107. cbn [fold_loop].
    change (107 =? 75) with false. change (SimpleFold 107) with 8490.
    change (8490 =? 75) with false. change (SimpleFold 8490) with 75.
    change (75 =? 75) with true. cbv iota.
    destruct (N.eqb_spec x 75), (N.eqb_spec x 107), (N.eqb_spec x 8490),
      (N.eqb_spec x 383), (N.leb_spec 97 x), (N.leb_spec x 122);
      cbn [orb andb]; split; intros; try discriminate; try reflexivity; try lia.
  - change (SimpleFold 83) with 115. cbn [fold_loop].
    change (115 =? 83) with false. change (SimpleFold 115) with 383.
    change (383 =? 83) with false. change (SimpleFold 383) with 83.
    change (83 =? 83) with true. cbv iota.
    destruct (N.eqb_spec x 83), (N.eqb_spec x 115), (N.eqb_spec x 8490),
      (N.eqb_spec x 383), (N.leb_spec 97 x), (N.leb_spec x 122);
      cbn [orb andb]; split; intros; try discriminate; try reflexivity; try lia.
  - assert (E1 : SimpleFold c = c + 32).
    { unfold SimpleFold.
      destruct (N.eqb_spec c 75), (N.eqb_spec c 107), (N.eqb_spec c 8490),
        (N.eqb_spec c 83), (N.eqb_spec c 115), (N.eqb_spec c 383); try lia.
      destruct (N.leb_spec 65 c), (N.leb_spec c 90); cbn [andb]; lia. }
    assert (E2 : SimpleFold (c + 32) = c).
    { unfold SimpleFold.
      destruct (N.eqb_spec (c + 32) 75), (N.eqb_spec (c + 32) 107),
        (N.eqb_spec (c + 32) 8490), (N.eqb_spec (c + 32) 83),
        (N.eqb_spec (c + 32) 115), (N.eqb_spec (c + 32) 383); try lia.
      destruct (N.leb_spec 65 (c + 32)), (N.leb_spec (c + 32) 90),
        (N.leb_spec 97 (c + 32)), (N.leb_spec (c + 32) 122); cbn [andb]; lia. }
    rewrite E1. cbn [fold_loop]. rewrite E2, N.eqb_refl.
    destruct (N.eqb_spec (c + 32) c); [lia|].
    destruct (N.eqb_spec x c), (N.eqb_spec x (c + 32)), (N.eqb_spec x 8490),
      (N.eqb_spec x 383), (N.leb_spec 97 x), (N.leb_spec x 122);
      cbn [orb andb]; split; intros; try discriminate; try reflexivity; try lia.
Qed.

Lemma lit_matches_canon (w tok : list rune) :
  Forall upper_letter w -> (lit_matches w tok <-> map canon tok = w).
Proof.
  unfold lit_matches. intros Hw. revert tok.
  induction Hw as [|c w Hc Hw IH]; intros tok.
  - split.
    + intros Hf. inversion Hf. reflexivity.
    + destruct tok; [constructor | discriminate].
  - split.
    + intros Hf. inversion Hf as [|c' x w' tok' Hx Hf']; subst.
      cbn [map]. f_equal; [apply match_lit_canon; assumption | apply IH; assumption].
    + destruct tok as [|x tok]; [discriminate|].
      cbn [map]. intros [= Hx Ht]. constructor.
      * apply match_lit_canon; assumption.
      * apply IH; assumption.
Qed.

(** ** Star of a class: a stretch of runes of the class *)

Lemma star_class (cs : list (rune * rune)) : forall fuel prev s k,
  (length s < fuel)%nat ->
  star_loop fuel (matches (Class cs)) prev s k = true <->
  exists ws rest, s = (ws ++ rest)%list /\ forallb (match_class cs) ws = true /\
                  k (last_or prev ws) rest = true.
Proof.
  induction fuel as [|fuel IH]; intros prev s k Hfuel; [lia|].
  cbn [star_loop matches]. rewrite orb_true_iff. split.
  - intros [Hk | Hstep].
    + exists [], s. repeat split; exact Hk.
    + destruct s as [|x s]; [discriminate|].
      apply andb_true_iff in Hstep as [Hx Hrest].
      apply andb_true_iff in Hrest as [_ Hrest].
      apply IH in Hrest; [|cbn [length] in Hfuel; lia].
      destruct Hrest as (ws & rest & -> & Hws & Hk).
      exists (x :: ws), rest. repeat split.
      * cbn [forallb]. rewrite Hx, Hws. reflexivity.
      * rewrite last_or_cons. exact Hk.
  - intros (ws & rest & -> & Hws & Hk).
    destruct ws as [|x ws]; [left; exact Hk|].
    right. cbn [forallb] in Hws. apply andb_true_iff in Hws as [Hx Hws].
    rewrite <- app_comm_cons. rewrite Hx. cbn [andb].
    apply andb_true_iff. split.
    + apply Nat.ltb_lt. cbn [length]. lia.
    + apply IH; [rewrite <- app_comm_cons in Hfuel; cbn [length] in Hfuel; lia|].
      exists ws, rest. repeat split; [exact Hws|].
      rewrite last_or_cons in Hk. exact Hk.
Qed.

(** ** Unanchored search: a match may start after any prefix *)

Lemma search_spec (r : regex) : forall prev s,
  search r prev s = true <->
  exists pre post, s = (pre ++ post)%list /\
                   matches r (last_or prev pre) post (fun _ _ => true) = true.
Proof.
  intros prev s. revert prev. induction s as [|x s IH]; intros prev; cbn [search].
  - rewrite orb_false_r. split.
    + intros Hm. exists [], []. split; [reflexivity | exact Hm].
    + intros (pre & post & E & Hm).
      symmetry in E. apply app_eq_nil in E as [-> ->]. exact Hm.
  - rewrite orb_true_iff, IH. split.
    + intros [Hm | (pre & post & -> & Hm)].
      * exists [], (x :: s). split; [reflexivity | exact Hm].
      * exists (x :: pre), post. split; [reflexivity|].
        rewrite last_or_cons. exact Hm.
    + intros (pre & post & E & Hm). destruct pre as [|y pre].
      * left. cbn [app] in E. subst post. exact Hm.
      * right. rewrite <- app_comm_cons in E. injection E as -> ->.
        exists pre, post. split; [reflexivity|].
        rewrite last_or_cons in Hm. exact Hm.
Qed.

(** ** The words of the pattern *)

Ltac upper_letters :=
  unfold word_letters; vm_compute runes;
  repeat constructor; unfold upper_letter; lia.

Lemma verbs_letters (v : string) : In v verbs -> word_letters v.
Proof.
  intros Hv. repeat (destruct Hv as [<- | Hv]; [upper_letters|]). destruct Hv.
Qed.

Lemma RETURNING_letters : word_letters "RETURNING".
Proof. upper_letters. Qed.

(** A rune that folds to a letter other than K and S is a word character. *)
Lemma canon_word (x c : rune) :
  canon x = c -> upper_letter c -> c <> 0x4B -> c <> 0x53 -> IsWordChar x = true.
Proof.
  unfold canon, upper_letter. intros E Hc HK HS.
  assert (R : 0x41 <= x <= 0x5A \/ 0x61 <= x <= 0x7A).
  { destruct (N.leb_spec 97 x), (N.leb_spec x 122), (N.eqb_spec x 383),
      (N.eqb_spec x 8490); cbn [andb] in E; lia. }
  unfold IsWordChar.
  destruct (N.leb_spec 65 x), (N.leb_spec x 90), (N.leb_spec 97 x), (N.leb_spec x 122);
    cbn [andb orb]; try reflexivity; lia.
Qed.

Lemma last_map {A B} (f : A -> B) (l : list A) :
  last (map f l) = option_map f (last l).
Proof.
  induction l as [|x l IH]; [reflexivity|].
  destruct l as [|y l]; [reflexivity|].
  cbn [map] in *. rewrite !last_cons_cons. exact IH.
Qed.

(** The last rune of a token that folds to [w], when [w] ends with a letter
    other than K and S, is a word character. *)
Lemma last_word (tok w : list rune) (c : rune) prev :
  map canon tok = w -> last w = Some c ->
  upper_letter c -> c <> 0x4B -> c <> 0x53 ->
  is_word (last_or prev tok) = true.
Proof.
  intros <- Hl Hc HK HS. rewrite last_map in Hl.
  unfold last_or. destruct (last tok) as [x|]; [|discriminate].
  cbn in Hl. injection Hl as Hx. cbn [is_word].
  exact (canon_word x c Hx Hc HK HS).
Qed.

Lemma head_word (tok w : list rune) (c : rune) rest :
  map canon tok = w -> head w = Some c ->
  upper_letter c -> c <> 0x4B -> c <> 0x53 ->
  is_word (head (tok ++ rest)%list) = true.
Proof.
  intros <- Hh Hc HK HS. destruct tok as [|x tok]; [discriminate|].
  cbn in Hh. injection Hh as Hx. cbn [app head is_word].
  exact (canon_word x c Hx Hc HK HS).
Qed.

Lemma verbs_last (v : string) :
  In v verbs -> exists c, last (runes v) = Some c /\ upper_letter c /\ c <> 0x4B /\ c <> 0x53.
Proof.
  intros Hv.
  repeat (destruct Hv as [<- | Hv];
          [eexists; split; [vm_compute; reflexivity | unfold upper_letter; lia]|]).
  destruct Hv.
Qed.

(** ** Alternation *)

Lemma matches_alternation (l : list regex) : forall prev s k,
  matches (alternation l) prev s k = true <->
  exists r, In r l /\ matches r prev s k = true.
Proof.
  induction l as [|a l IH]; intros prev s k.
  - cbn [alternation matches]. split.
    + destruct s; discriminate.
    + intros (r & [] & _).
  - destruct l as [|b l].
    + cbn [alternation]. split.
      * intros Hm. exists a. split; [left; reflexivity | exact Hm].
      * intros (r & [<- | []] & Hm). exact Hm.
    + change (alternation (a :: b :: l)) with (Alt a (alternation (b :: l))).
      cbn [matches]. rewrite orb_true_iff, IH. split.
      * intros [Hm | (r & Hr & Hm)].
        -- exists a. split; [left; reflexivity | exact Hm].
        -- exists r. split; [right; exact Hr | exact Hm].
      * intros (r & [<- | Hr] & Hm); [left; exact Hm|].
        right. exists r. split; assumption.
Qed.

(** ** The two branches of the pattern *)

Lemma verb_branch (prev : option rune) (s : list rune) :
  matches verbs_then_boundary prev s accept = true <->
  exists tok rest v,
    s = (tok ++ rest)%list /\ In v verbs /\ EqualFold tok v /\ word_ends rest.
Proof.
  unfold verbs_then_boundary. cbn [matches]. rewrite matches_alternation. split.
  - intros (r & Hr & Hm). apply in_map_iff in Hr as (v & <- & Hv).
    apply matches_lit in Hm as (tok & rest & -> & Hf & Hk).
    apply (lit_matches_canon _ _ (verbs_letters v Hv)) in Hf.
    exists tok, rest, v. repeat split; try assumption.
    destruct (verbs_last v Hv) as (c & Hl & Hc & HK & HS).
    rewrite (last_word tok (runes v) c prev Hf Hl Hc HK HS) in Hk.
    unfold accept in Hk. rewrite andb_true_r in Hk.
    unfold word_ends. destruct (is_word (head rest)); [discriminate | reflexivity].
  - intros (tok & rest & v & -> & Hv & Hf & He).
    exists (lit (runes v)). split; [apply in_map_iff; exists v; split; trivial|].
    apply matches_lit. exists tok, rest. repeat split.
    + apply (lit_matches_canon _ _ (verbs_letters v Hv)). exact Hf.
    + destruct (verbs_last v Hv) as (c & Hl & Hc & HK & HS).
      rewrite (last_word tok (runes v) c prev Hf Hl Hc HK HS).
      unfold word_ends in He. rewrite He. reflexivity.
Qed.

Lemma leading_branch_spec (t : list rune) :
  matches leading_branch None t accept = true <-> leading_verb t.
Proof.
  unfold leading_verb.
  change (matches leading_branch None t accept)
    with (star_loop (S (length t)) (matches (Class perl_s)) None t
            (fun p s => matches verbs_then_boundary p s accept)).
  rewrite star_class by lia. split.
  - intros (ws & rest & -> & Hws & Hm).
    apply verb_branch in Hm as (tok & rest' & v & -> & Hv & Hf & He).
    exists ws, tok, rest', v. repeat split; assumption.
  - intros (ws & tok & rest & v & -> & Hws & Hv & Hf & He).
    exists ws, (tok ++ rest)%list. repeat split; [exact Hws|].
    apply verb_branch. exists tok, rest, v. repeat split; assumption.
Qed.

Lemma leading_branch_start (x : rune) (t : list rune) (k : kont) :
  matches leading_branch (Some x) t k = false.
Proof. reflexivity. Qed.

(** A word between two word boundaries. *)
Lemma bounded_word (w : list rune) (c0 c1 : rune) (prev : option rune) (s : list rune) :
  Forall upper_letter w ->
  head w = Some c0 -> upper_letter c0 -> c0 <> 0x4B -> c0 <> 0x53 ->
  last w = Some c1 -> upper_letter c1 -> c1 <> 0x4B -> c1 <> 0x53 ->
  matches (Cat WordBoundary (Cat (lit w) WordBoundary)) prev s accept = true <->
  is_word prev = false /\
  exists tok post, s = (tok ++ post)%list /\ map canon tok = w /\ word_ends post.
Proof.
  intros Hw H0 U0 K0 S0 H1 U1 K1 S1.
  change (matches (Cat WordBoundary (Cat (lit w) WordBoundary)) prev s accept)
    with (xorb (is_word prev) (is_word (head s)) &&
          matches (lit w) prev s
            (fun p t => xorb (is_word p) (is_word (head t)) && accept p t)).
  rewrite andb_true_iff, matches_lit. split.
  - intros (Hb & tok & post & -> & Hf & Hk).
    apply (lit_matches_canon _ _ Hw) in Hf.
    rewrite (head_word tok w c0 post Hf H0 U0 K0 S0) in Hb.
    rewrite (last_word tok w c1 prev Hf H1 U1 K1 S1) in Hk.
    unfold accept in Hk. rewrite andb_true_r in Hk.
    split; [destruct (is_word prev); [discriminate | reflexivity]|].
    exists tok, post. repeat split; try assumption.
    unfold word_ends. destruct (is_word (head post)); [discriminate | reflexivity].
  - intros (Hp & tok & post & -> & Hf & He). split.
    + rewrite (head_word tok w c0 post Hf H0 U0 K0 S0), Hp. reflexivity.
    + exists tok, post. repeat split.
      * apply (lit_matches_canon _ _ Hw). exact Hf.
      * rewrite (last_word tok w c1 prev Hf H1 U1 K1 S1).
        unfold word_ends in He. rewrite He. reflexivity.
Qed.

Lemma returning_branch_spec (prev : option rune) (s : list rune) :
  matches returning_branch prev s accept = true <->
  is_word prev = false /\
  exists tok post, s = (tok ++ post)%list /\ EqualFold tok "RETURNING" /\ word_ends post.
Proof.
  unfold returning_branch, EqualFold.
  apply (bounded_word (runes "RETURNING") 0x52 0x47).
  - exact RETURNING_letters.
  - vm_compute. reflexivity.
  - unfold upper_letter. lia.
  - lia.
  - lia.
  - vm_compute. reflexivity.
  - unfold upper_letter. lia.
  - lia.
  - lia.
Qed.

Lemma writePattern_branches : writePattern = Alt leading_branch returning_branch.
Proof. reflexivity. Qed.

Lemma MatchString_writePattern (query : string) :
  MatchString writePattern query = true <-> spec_write query.
Proof.
  unfold MatchString, spec_write. rewrite search_spec, writePattern_branches. split.
  - intros (pre & post & E & Hm). cbn [matches] in Hm.
    apply orb_true_iff in Hm as [Hm | Hm].
    + left. rewrite last_or_None in Hm.
      destruct (last pre) as [x|] eqn:El.
      * rewrite leading_branch_start in Hm. discriminate.
      * apply last_None in El. subst pre. rewrite E.
        apply leading_branch_spec. exact Hm.
    + right. apply returning_branch_spec in Hm as (Hp & tok & post' & -> & Hf & He).
      rewrite last_or_None in Hp.
      exists pre, tok, post'. repeat split; assumption.
  - intros [Hl | (pre & tok & post & E & Hp & Hf & He)].
    + exists [], (runes query). split; [reflexivity|].
      change (matches (Alt leading_branch returning_branch) None (runes query) accept = true).
      cbn [matches]. apply orb_true_iff. left. apply leading_branch_spec. exact Hl.
    + exists pre, (tok ++ post)%list. split; [exact E|].
      change (matches (Alt leading_branch returning_branch) (last_or None pre)
                (tok ++ post)%list accept = true).
      cbn [matches]. apply orb_true_iff. right.
      apply returning_branch_spec. rewrite last_or_None. split; [exact Hp|].
      exists tok, post. repeat split; assumption.
Qed.

(** C4.  The default checker returns [QueryTypeWrite] exactly for the
    statements (a) whose first token after leading whitespace is,
    case-insensitively, one of INSERT, UPDATE, DELETE, MERGE, TRUNCATE,
    REPLACE, or (b) that contain the word RETURNING delimited on both sides;
    for every other statement it returns [QueryTypeUnknown]. *)
Theorem Check_contract (query : string) :
  (Check NewDefaultQueryTypeChecker query = QueryTypeWrite <-> spec_write query) /\
  (~ spec_write query <-> Check NewDefaultQueryTypeChecker query = QueryTypeUnknown).
Proof.
  unfold Check, NewDefaultQueryTypeChecker. cbn [writeRegex].
  pose proof (MatchString_writePattern query) as H.
  destruct (MatchString writePattern query).
  - split; split; intros; try reflexivity; try discriminate.
    + apply H. reflexivity.
    + exfalso. apply H0, H. reflexivity.
  - split; split; intros; try reflexivity; try discriminate.
    + apply H in H0. discriminate.
    + intros Hs. apply H in Hs. discriminate.
Qed.

End QueryKindFacts.


(* ===================================================================== *)
(** * Properties of the router *)
(* ===================================================================== *)

Module RouterFacts.
Import Sys QueryKind Router.

(** ** The order of LSNs *)

Lemma land_shiftl_low (u l : N) : l < 2 ^ 32 -> N.land (N.shiftl u 32) l = 0.
Proof.
  intros Hl. apply N.bits_inj. intros m.
  rewrite N.land_spec, N.bits_0.
  destruct (N.lt_ge_cases m 32) as [Hm | Hm].
  - rewrite N.shiftl_spec_low by assumption. reflexivity.
  - destruct (N.eq_dec l 0) as [-> | Hl0]; [rewrite N.bits_0; apply andb_false_r|].
    rewrite (N.bits_above_log2 l m); [apply andb_false_r|].
    apply N.log2_lt_pow2 in Hl; lia.
Qed.

Lemma ToUint64_wf (l : LSN.LSN) :
  LSN.wf l -> LSN.ToUint64 l = LSN.Upper l * 2 ^ 32 + LSN.Lower l.
Proof.
  intros [Hu Hl]. unfold LSN.ToUint64, LSN.uint64.
  assert (Hs : N.shiftl (LSN.Upper l) 32 = LSN.Upper l * 2 ^ 32)
    by apply N.shiftl_mul_pow2.
  rewrite N.mod_small
    by (rewrite Hs; change (2 ^ 64) with (2 ^ 32 * 2 ^ 32);
        change (2 ^ 32) with 4294967296 in *; nia).
  rewrite <- N.lxor_lor by (apply land_shiftl_low; assumption).
  rewrite <- N.add_nocarry_lxor by (apply land_shiftl_low; assumption).
  rewrite Hs. reflexivity.
Qed.

(** [LessThan] is the order of the 64-bit values. *)
Lemma LessThan_ToUint64 (a b : LSN.LSN) :
  LSN.wf a -> LSN.wf b ->
  LSN.LessThan a b = (LSN.ToUint64 a <? LSN.ToUint64 b).
Proof.
  intros Ha Hb. rewrite (ToUint64_wf a Ha), (ToUint64_wf b Hb).
  destruct Ha as [Hau Hal], Hb as [Hbu Hbl].
  unfold LSN.LessThan, LSN.Compare.
  change (2 ^ 32) with 4294967296 in *.
  destruct (N.ltb_spec (LSN.Upper a) (LSN.Upper b)),
    (N.ltb_spec (LSN.Upper b) (LSN.Upper a)),
    (N.ltb_spec (LSN.Lower a) (LSN.Lower b)),
    (N.ltb_spec (LSN.Lower b) (LSN.Lower a)),
    (N.ltb_spec (LSN.Upper a * 4294967296 + LSN.Lower a)
                (LSN.Upper b * 4294967296 + LSN.Lower b));
    try reflexivity; try nia.
Qed.

Lemma ParseLSN_wf (s : string) (l : LSN.LSN) : LSN.ParseLSN s = Some l -> LSN.wf l.
Proof.
  unfold LSN.ParseLSN. destruct s; [discriminate|].
  destruct (LSN.Split _ _) as [|p0 [|p1 [|]]]; try discriminate.
  destruct (LSN.ParseUint p0 16 32); [|discriminate].
  destruct (LSN.ParseUint p1 16 32); [|discriminate].
  intros [= <-]. unfold LSN.wf, LSN.uint32. cbn [LSN.Upper LSN.Lower].
  split; apply N.mod_lt; discriminate.
Qed.

(** ** Running the primitives *)

Section Routing.
Context {LB : Type} `{LoadBalancer LB}.

Implicit Types (s : State LB) (w : World).

Lemma resolve_nonempty (dbs : list DB) w s :
  dbs <> [] ->
  resolve dbs w s =
  (Ok (fst (Resolve (lb s) dbs)), with_lb s (snd (Resolve (lb s) dbs))).
Proof.
  intros Hne. unfold resolve, with_lb. destruct dbs as [|d dbs]; [congruence|].
  destruct (Resolve (lb s) (d :: dbs)); reflexivity.
Qed.

Lemma primary_nonempty (dbs : list DB) w s :
  dbs <> [] ->
  primary dbs w s =
  (Ok (Some (fst (Resolve (lb s) dbs)), None), with_lb s (snd (Resolve (lb s) dbs))).
Proof.
  intros Hne. unfold primary, bind. rewrite (resolve_nonempty dbs w s Hne). reflexivity.
Qed.

Lemma length_eqb_0 {A} (l : list A) : l <> [] -> (length l =? 0)%nat = false.
Proof. destruct l; [congruence | reflexivity]. Qed.

Lemma length_ltb_0 {A} (l : list A) : l <> [] -> (0 <? length l)%nat = true.
Proof. destruct l; [congruence | reflexivity]. Qed.

(** [RouteQuery] of an enabled router with a primary, after its guards. *)
Lemma RouteQuery_enabled (r : CausalRouter) (p : DBProvider) ctx qt w s :
  Enabled (config r) = true -> dbProvider r = Some p -> PrimaryDBs p <> [] ->
  RouteQuery r ctx qt w s =
  let tok := token s ctx in
  let simple :=
    if (0 <? length (ReplicaDBs p))%nat
    then bind (resolve (ReplicaDBs p)) (fun d => ret (Some d, None))
    else primary (PrimaryDBs p) in
  if match tok with Some t => ForceMaster t | None => false end
  then primary (PrimaryDBs p) w s
  else if QueryType_eqb qt QueryTypeWrite then primary (PrimaryDBs p) w s
  else
    match cfgLevel (config r) with
    | ReadYourWrites =>
        match tok with
        | Some t =>
            if negb (LSN.IsZero (RequiredLSN t)) then
              bind (shouldUseReplica r ctx (RequiredLSN t))
                (fun res =>
                   let '(useReplica, d, e) := res in
                   match e with
                   | Some e => ret (None, Some (Errorw "failed to check replica status" e))
                   | None =>
                       if useReplica then ret (d, None)
                       else if FallbackToMaster (config r) then primary (PrimaryDBs p)
                       else ret (None, Some (Errorf "no replica has caught up to required LSN"))
                   end) w s
            else simple w s
        | None => simple w s
        end
    | NoneCausalConsistency => simple w s
    | StrongConsistency => primary (PrimaryDBs p) w s
    | OtherLevel _ =>
        if FallbackToMaster (config r) then primary (PrimaryDBs p) w s
        else ret (None, Some (Errorf "unable to route query: no suitable database found")) w s
    end.
Proof.
  intros He Hp Hne. unfold RouteQuery, token. rewrite He, Hp, (length_eqb_0 _ Hne).
  unfold bind at 1.
  destruct (GetLSNContext ctx) as [ptr|]; cbn [load ret bind].
  - unfold bind at 1, load, ret. cbv zeta.
    destruct (ForceMaster _); [reflexivity|].
    destruct (QueryType_eqb qt QueryTypeWrite); [reflexivity|].
    destruct (cfgLevel (config r)); try reflexivity.
    + destruct (negb _); reflexivity.
    + destruct (FallbackToMaster _); reflexivity.
  - cbv zeta. destruct (QueryType_eqb qt QueryTypeWrite); [reflexivity|].
    destruct (cfgLevel (config r)); try reflexivity.
    destruct (FallbackToMaster _); reflexivity.
Qed.

(** C3.  A statement classified as a write is routed to a primary, whatever
    the context carries (no token, or a token with any required LSN and
    either value of [ForceMaster]), by a router that is switched on and has
    at least one primary; and routing a write sends nothing to a backend. *)
Theorem write_routes_to_primary (r : CausalRouter) (p : DBProvider) ctx w s :
  Enabled (config r) = true -> dbProvider r = Some p -> PrimaryDBs p <> [] ->
  exists d s',
    RouteQuery r ctx QueryTypeWrite w s = (Ok (Some d, None), s') /\
    In d (PrimaryDBs p) /\ trace s' = trace s /\ heap s' = heap s.
Proof.
  intros He Hp Hne.
  exists (fst (Resolve (lb s) (PrimaryDBs p))),
         (with_lb s (snd (Resolve (lb s) (PrimaryDBs p)))).
  split; [|split; [apply Resolve_In, Hne | split; reflexivity]].
  rewrite (RouteQuery_enabled r p ctx QueryTypeWrite w s He Hp Hne). cbv zeta.
  rewrite (primary_nonempty _ w s Hne).
  destruct (match token s ctx with Some t => ForceMaster t | None => false end);
    reflexivity.
Qed.

(** ** Reads under ReadYourWrites *)

Lemma GetLastReplayLSN_run (c : PGLSNChecker) w s :
  exists s',
    trace s' = (trace s ++ [QueryRowCall (db c) replayQuery])%list /\
    lb s' = lb s /\ heap s' = heap s /\
    match observed_replay w (trace s) (db c) with
    | Some l => GetLastReplayLSN c w s = (Ok (l, None), s')
    | None => exists e, GetLastReplayLSN c w s = (Ok (LSN.zero, Some e), s')
    end.
Proof.
  unfold GetLastReplayLSN, scanLSN, observed_replay, bind, send, replayQuery.
  eexists. split; [|split; [|split]]; cycle 3.
  - destruct (err (w (trace s) _)) as [e|].
    + eexists. reflexivity.
    + destruct (LSN.ParseLSN _); [reflexivity | eexists; reflexivity].
  - reflexivity.
  - reflexivity.
  - reflexivity.
Qed.

Lemma shouldUseReplica_run (r : CausalRouter) (p : DBProvider) ctx (L : LSN.LSN) w s :
  dbProvider r = Some p -> ReplicaDBs p <> [] ->
  LSN.IsZero L = false -> LSN.wf L ->
  let sel := Resolve (lb s) (ReplicaDBs p) in
  exists s',
    trace s' = (trace s ++ [QueryRowCall (fst sel) replayQuery])%list /\
    lb s' = snd sel /\ heap s' = heap s /\
    shouldUseReplica r ctx L w s =
    (Ok (if caught_up (observed_replay w (trace s) (fst sel)) L
         then (true, Some (fst sel), None) else (false, None, None)), s').
Proof.
  intros Hp Hne Hz Hwf sel. unfold shouldUseReplica.
  rewrite Hp, (length_eqb_0 _ Hne), Hz.
  unfold bind at 1. rewrite (resolve_nonempty _ w s Hne). fold sel.
  unfold bind at 1.
  assert (Hc : exists s1,
    getOrCreateChecker (Some (fst sel)) (routerQueryTimeout r) w (with_lb s (snd sel))
    = (Ok (Some (mkChecker (fst sel)
                   (default (routerQueryTimeout r) (checkers s !! fst sel)))), s1) /\
    trace s1 = trace s /\ lb s1 = snd sel /\ heap s1 = heap s).
  { unfold getOrCreateChecker, with_lb. cbn [checkers].
    destruct (checkers s !! fst sel); eexists; (split; [reflexivity|]);
      repeat split. }
  destruct Hc as (s1 & -> & Ht1 & Hl1 & Hh1).
  unfold bind at 1.
  destruct (GetLastReplayLSN_run
              (mkChecker (fst sel) (default (routerQueryTimeout r) (checkers s !! fst sel)))
              w s1) as (s2 & Ht2 & Hl2 & Hh2 & Hrun).
  cbn [db] in *. rewrite Ht1 in *.
  exists s2. split; [exact Ht2|]. split; [congruence|]. split; [congruence|].
  destruct (observed_replay w (trace s) (fst sel)) as [l|] eqn:Eo.
  - rewrite Hrun. cbn [caught_up].
    assert (Hl : LSN.wf l).
    { unfold observed_replay in Eo. destruct (err _); [discriminate|].
      exact (ParseLSN_wf _ _ Eo). }
    rewrite (LessThan_ToUint64 l L Hl Hwf).
    destruct (N.ltb_spec (LSN.ToUint64 l) (LSN.ToUint64 L)),
      (N.leb_spec (LSN.ToUint64 L) (LSN.ToUint64 l)); try lia; reflexivity.
  - destruct Hrun as (e & ->). reflexivity.
Qed.

(** C2.  A read (a statement not classified as a write) routed by a router
    that is switched on, at level ReadYourWrites, with a primary and a
    replica, under a token with [ForceMaster] false and a non-zero required
    LSN [L]: the selector picks one replica, its replay position is asked
    once, and the router returns that replica when the observed position is
    [>= L]; otherwise (the position is lower, or the adapter failed) it
    returns a primary when [FallbackToMaster] is set and fails when it is
    not.  With no backend in both pools, the replica is returned only when
    it has caught up. *)
Theorem read_your_writes_routing (r : CausalRouter) (p : DBProvider) ctx qt w s
    (ptr : addr) (tok : LSNContext) :
  Enabled (config r) = true -> dbProvider r = Some p ->
  PrimaryDBs p <> [] -> ReplicaDBs p <> [] ->
  cfgLevel (config r) = ReadYourWrites ->
  qt <> QueryTypeWrite ->
  GetLSNContext ctx = Some ptr -> heap s !! ptr = Some tok ->
  ForceMaster tok = false ->
  LSN.IsZero (RequiredLSN tok) = false -> LSN.wf (RequiredLSN tok) ->
  let sel := Resolve (lb s) (ReplicaDBs p) in
  let pri := Resolve (snd sel) (PrimaryDBs p) in
  let observed := observed_replay w (trace s) (fst sel) in
  let res := RouteQuery r ctx qt w s in
  In (fst sel) (ReplicaDBs p) /\ In (fst pri) (PrimaryDBs p) /\
  fst res =
    (if caught_up observed (RequiredLSN tok) then Ok (Some (fst sel), None)
     else if FallbackToMaster (config r) then Ok (Some (fst pri), None)
     else Ok (None, Some (Errorf "no replica has caught up to required LSN"))) /\
  trace (snd res) = (trace s ++ [QueryRowCall (fst sel) replayQuery])%list /\
  ((forall d, In d (PrimaryDBs p) -> ~ In d (ReplicaDBs p)) ->
   (fst res = Ok (Some (fst sel), None) <->
    caught_up observed (RequiredLSN tok) = true)).
Proof.
  intros He Hp Hpri Hrep Hlvl Hqt Hctx Hheap Hfm Hz Hwf sel pri observed res.
  assert (Hsel : In (fst sel) (ReplicaDBs p)) by (apply Resolve_In, Hrep).
  assert (Hin : forall lb0, In (fst (Resolve lb0 (PrimaryDBs p))) (PrimaryDBs p))
    by (intros; apply Resolve_In, Hpri).
  assert (Hres : exists s',
    trace s' = (trace s ++ [QueryRowCall (fst sel) replayQuery])%list /\
    res = ((if caught_up observed (RequiredLSN tok) then Ok (Some (fst sel), None)
            else if FallbackToMaster (config r) then Ok (Some (fst pri), None)
            else Ok (None, Some (Errorf "no replica has caught up to required LSN"))),
           s')).
  { unfold res. rewrite (RouteQuery_enabled r p ctx qt w s He Hp Hpri). cbv zeta.
    unfold token. rewrite Hctx, Hheap. cbn [default from_option id]. rewrite Hfm, Hlvl, Hz.
    replace (QueryType_eqb qt QueryTypeWrite) with false
      by (destruct qt; try reflexivity; congruence).
    cbn [negb]. unfold bind at 1.
    destruct (shouldUseReplica_run r p ctx (RequiredLSN tok) w s Hp Hrep Hz Hwf)
      as (s1 & Ht & Hl & Hh & ->).
    fold sel observed.
    destruct (caught_up observed (RequiredLSN tok)).
    - exists s1. split; [exact Ht | reflexivity].
    - destruct (FallbackToMaster (config r)).
      + rewrite (primary_nonempty _ w s1 Hpri). rewrite Hl. fold pri.
        eexists. split; [|reflexivity]. exact Ht.
      + exists s1. split; [exact Ht | reflexivity]. }
  destruct Hres as (s' & Ht & ->). cbn [fst snd].
  split; [exact Hsel|]. split; [apply Hin|]. split; [reflexivity|]. split; [exact Ht|].
  intros Hdisj. destruct (caught_up observed (RequiredLSN tok)).
  - split; reflexivity.
  - split; [|discriminate]. destruct (FallbackToMaster (config r)); [|discriminate].
    intros [= E]. exfalso. apply (Hdisj (fst pri)); [apply Hin|].
    rewrite E. exact Hsel.
Qed.

(** ** The post-write capture *)

(** C10.  A capture that succeeds (the router is switched on, the handle is
    not nil, the primary answers with a position that parses) returns the
    captured LSN and
    - when the context carries an [LSNContext], writes the LSN into that
      object, so that [GetLSNContext] on the same context gives a token
      whose [RequiredLSN] is the captured LSN;
    - when the context carries none, leaves the caller's context without a
      token and every object that existed untouched: the new token is an
      object nothing of the caller points to. *)
Theorem capture_reaches_existing_token_only (r : CausalRouter) ctx (d : DB) w s
    (masterLSN : LSN.LSN) :
  Enabled (config r) = true ->
  err (w (trace s) (QueryRowCall d Facade.captureQuery)) = None ->
  LSN.ParseLSN (column (w (trace s) (QueryRowCall d Facade.captureQuery))) = Some masterLSN ->
  exists s',
    UpdateLSNAfterWrite r ctx (Some d) w s = (Ok (masterLSN, None), s') /\
    (forall ptr, GetLSNContext ctx = Some ptr ->
       exists t', token s' ctx = Some t' /\ heap s' !! ptr = Some t' /\
                  RequiredLSN t' = masterLSN) /\
    (GetLSNContext ctx = None ->
       token s' ctx = None /\
       forall q t, heap s !! q = Some t -> heap s' !! q = Some t).
Proof.
  intros He Herr Hparse.
  unfold UpdateLSNAfterWrite. rewrite He.
  unfold bind at 1.
  assert (Hc : exists s1 c,
    getOrCreateChecker (Some d) (routerQueryTimeout r) w s = (Ok (Some c), s1) /\
    db c = d /\ trace s1 = trace s /\ heap s1 = heap s).
  { unfold getOrCreateChecker.
    destruct (checkers s !! d); eexists; eexists; (split; [reflexivity|]);
      repeat split. }
  destruct Hc as (s1 & c & -> & Hd & Ht1 & Hh1).
  unfold bind at 1.
  unfold GetCurrentWALLSN, scanLSN. unfold bind at 1. unfold send at 1.
  rewrite Hd, Ht1.
  change ("SELECT " ++ PGCurrentWALLSN) with Facade.captureQuery.
  rewrite Herr, Hparse. unfold ret at 1.
  unfold bind at 1. unfold setLastMasterLSN at 1. cbn [lb heap checkers trace].
  unfold bind at 1. unfold token.
  destruct (GetLSNContext ctx) as [ptr|] eqn:Ectx.
  - unfold ret at 1. unfold bind at 1. unfold load at 1. cbn [heap].
    unfold bind at 1. unfold store at 1. cbn [lb heap checkers trace lastMasterLSN].
    unfold ret. eexists. split; [reflexivity|]. cbn [heap]. split.
    + intros ptr' [= <-]. eexists. rewrite lookup_insert_eq. cbn [default from_option id].
      split; [reflexivity|]. split; reflexivity.
    + discriminate.
  - unfold alloc at 1. cbn [lb heap checkers trace lastMasterLSN].
    unfold bind at 1. unfold load at 1. cbn [heap].
    unfold bind at 1. unfold store at 1. cbn [lb heap checkers trace lastMasterLSN].
    unfold ret. eexists. split; [reflexivity|]. cbn [heap]. split.
    + discriminate.
    + intros _. split; [reflexivity|].
      intros q t Hq. rewrite Hh1.
      assert (Hne : fresh (dom (heap s)) <> q).
      { intros <-. apply (is_fresh (dom (heap s))).
        apply elem_of_dom. rewrite Hq. eauto. }
      rewrite !lookup_insert_ne by exact Hne. exact Hq.
Qed.

(** ** A token that requires nothing *)

(** For routing, a token with [ForceMaster] false and a zero required LSN
    is as good as no token. *)
Lemma RouteQuery_idle_token (r : CausalRouter) ctx ctx0 qt w s (t : LSNContext) :
  token s ctx = Some t -> ForceMaster t = false -> LSN.IsZero (RequiredLSN t) = true ->
  GetLSNContext ctx0 = None ->
  RouteQuery r ctx qt w s = RouteQuery r ctx0 qt w s.
Proof.
  unfold token. intros Htok Hfm Hz H0. unfold RouteQuery. rewrite H0.
  destruct (GetLSNContext ctx) as [ptr|]; [|discriminate].
  injection Htok as Htok.
  destruct (Enabled (config r)); [|reflexivity].
  destruct (dbProvider r) as [p|]; [|reflexivity].
  destruct (length (PrimaryDBs p) =? 0)%nat; [reflexivity|].
  unfold bind at 1 3. unfold bind at 1. unfold load, ret at 1 2. cbv zeta.
  rewrite Htok, Hfm, Hz. cbn [negb].
  destruct (QueryType_eqb qt QueryTypeWrite); [reflexivity|].
  destruct (cfgLevel (config r)); reflexivity.
Qed.

Lemma QueryRouter_idle_token (qr : QueryRouter) ctx ctx0 qt w s (t : LSNContext) :
  token s ctx = Some t -> ForceMaster t = false -> LSN.IsZero (RequiredLSN t) = true ->
  GetLSNContext ctx0 = None ->
  QueryRouter_RouteQuery qr ctx qt w s = QueryRouter_RouteQuery qr ctx0 qt w s.
Proof.
  intros. destruct qr as [r | r]; cbn [QueryRouter_RouteQuery].
  - eapply RouteQuery_idle_token; eassumption.
  - reflexivity.
Qed.

(** ** The router always answers *)

Lemma resolve_returns (dbs : list Sys.DB) w s :
  dbs <> [] -> exists d s', resolve dbs w s = (Ok d, s').
Proof. intros Hne. rewrite resolve_nonempty by exact Hne. eauto. Qed.

Lemma primary_returns (dbs : list Sys.DB) w s :
  dbs <> [] -> exists d s', primary dbs w s = (Ok (Some d, None), s').
Proof. intros Hne. rewrite primary_nonempty by exact Hne. eauto. Qed.

Lemma nonempty_of_length {A} (l : list A) : (length l =? 0)%nat = false -> l <> [].
Proof. destruct l; [discriminate | congruence]. Qed.

Lemma shouldUseReplica_returns (r : CausalRouter) (p : DBProvider) ctx (L : LSN.LSN) w s :
  dbProvider r = Some p ->
  exists b d s',
    shouldUseReplica r ctx L w s = (Ok (b, d, None), s') /\
    (b = true -> d <> None).
Proof.
  intros Hp. unfold shouldUseReplica. rewrite Hp.
  destruct (length (ReplicaDBs p) =? 0)%nat eqn:Hlen.
  { unfold ret. exists false, None. eexists. split; [reflexivity | discriminate]. }
  apply nonempty_of_length in Hlen.
  destruct (LSN.IsZero L).
  { unfold bind. rewrite resolve_nonempty by exact Hlen. unfold ret.
    eexists _, _, _. split; [reflexivity | discriminate]. }
  unfold bind at 1. rewrite resolve_nonempty by exact Hlen.
  unfold bind at 1. unfold getOrCreateChecker at 1.
  set (s0 := with_lb s _). set (d := fst _).
  assert (Hgo : forall c s1,
    exists b d' s',
      (res <- GetLastReplayLSN c ;;
       let (replicaLSN, e) := res in
       match e with
       | None =>
           if negb (LSN.LessThan replicaLSN L)
           then ret (true, Some d, @None error)
           else ret (false, @None Sys.DB, @None error)
       | Some _ => ret (false, @None Sys.DB, @None error)
       end)%go w s1 = (Ok (b, d', None), s') /\ (b = true -> d' <> None)).
  { intros c s1. unfold bind, GetLastReplayLSN, scanLSN, bind, send.
    destruct (err _).
    { unfold ret. eexists _, _, _. split; [reflexivity | discriminate]. }
    destruct (LSN.ParseLSN _).
    2:{ unfold ret. eexists _, _, _. split; [reflexivity | discriminate]. }
    unfold ret. destruct (negb _); eexists _, _, _; (split; [reflexivity|]);
      intros; discriminate. }
  destruct (checkers s0 !! d); apply Hgo.
Qed.

(** [RouteQuery] always returns, and with a handle whenever it returns no
    error. *)
Lemma RouteQuery_returns (r : CausalRouter) ctx qt w s :
  exists d e s',
    RouteQuery r ctx qt w s = (Ok (d, e), s') /\ (e = None -> d <> None).
Proof.
  unfold RouteQuery.
  assert (Herr : forall (e : error) s0, exists d e' s',
    ret (@None Sys.DB, Some e) w s0 = (Ok (d, e'), s') /\ (e' = None -> d <> None)).
  { intros e s0. unfold ret. eexists _, _, _. split; [reflexivity | discriminate]. }
  destruct (Enabled (config r)); [|apply Herr].
  destruct (dbProvider r) as [p|] eqn:Hp; [|apply Herr].
  destruct (length (PrimaryDBs p) =? 0)%nat eqn:Hlen; [apply Herr|].
  apply nonempty_of_length in Hlen.
  assert (Hprim : forall s0, exists d e s',
    primary (PrimaryDBs p) w s0 = (Ok (d, e), s') /\ (e = None -> d <> None)).
  { intros s0. destruct (primary_returns (PrimaryDBs p) w s0 Hlen) as (d & s' & ->).
    eexists _, _, _. split; [reflexivity | discriminate]. }
  assert (Hsimple : forall s0, exists d e s',
    (if (0 <? length (ReplicaDBs p))%nat
     then d <- resolve (ReplicaDBs p) ;; ret (Some d, None)
     else primary (PrimaryDBs p))%go w s0 = (Ok (d, e), s') /\
    (e = None -> d <> None)).
  { intros s0. destruct (0 <? length (ReplicaDBs p))%nat eqn:Hr; [|apply Hprim].
    assert (Hne : ReplicaDBs p <> [])
      by (destruct (ReplicaDBs p); [discriminate | congruence]).
    unfold bind. rewrite resolve_nonempty by exact Hne. unfold ret.
    eexists _, _, _. split; [reflexivity | discriminate]. }
  unfold bind at 1.
  set (ld := match GetLSNContext ctx with Some ptr => _ | None => _ end).
  assert (Hld : exists tok, ld w s = (Ok tok, s)).
  { subst ld. destruct (GetLSNContext ctx); unfold bind, load, ret; eauto. }
  destruct Hld as (tok & ->).
  destruct (match tok with Some t => ForceMaster t | None => false end); [apply Hprim|].
  destruct (QueryType_eqb qt QueryTypeWrite); [apply Hprim|].
  destruct (cfgLevel (config r)); try apply Hprim; try apply Hsimple.
  - destruct tok as [t|]; [|apply Hsimple].
    destruct (negb (LSN.IsZero (RequiredLSN t))); [|apply Hsimple].
    unfold bind at 1.
    destruct (shouldUseReplica_returns r p ctx (RequiredLSN t) w s Hp)
      as (b & d & s1 & -> & Hd).
    destruct b.
    + unfold ret. eexists _, _, _. split; [reflexivity|]. intros _. apply Hd.
      reflexivity.
    + destruct (FallbackToMaster (config r)); [apply Hprim | apply Herr].
  - destruct (FallbackToMaster (config r)); [apply Hprim | apply Herr].
Qed.

Lemma SimpleRouter_RouteQuery_returns (r : SimpleRouter) ctx qt w s :
  exists d e s',
    SimpleRouter_RouteQuery r ctx qt w s = (Ok (d, e), s') /\ (e = None -> d <> None).
Proof.
  unfold SimpleRouter_RouteQuery.
  assert (Herr : forall (e : error) s0, exists d e' s',
    ret (@None Sys.DB, Some e) w s0 = (Ok (d, e'), s') /\ (e' = None -> d <> None)).
  { intros e s0. unfold ret. eexists _, _, _. split; [reflexivity | discriminate]. }
  destruct (simpleProvider r) as [p|]; [|apply Herr].
  destruct (length (PrimaryDBs p) =? 0)%nat eqn:Hlen; [apply Herr|].
  apply nonempty_of_length in Hlen.
  assert (Hprim : exists d e s',
    primary (PrimaryDBs p) w s = (Ok (d, e), s') /\ (e = None -> d <> None)).
  { destruct (primary_returns (PrimaryDBs p) w s Hlen) as (d & s' & ->).
    eexists _, _, _. split; [reflexivity | discriminate]. }
  destruct qt; try exact Hprim.
  destruct (0 <? length (ReplicaDBs p))%nat eqn:Hr; [|exact Hprim].
  assert (Hne : ReplicaDBs p <> [])
    by (destruct (ReplicaDBs p); [discriminate | congruence]).
  unfold bind. rewrite resolve_nonempty by exact Hne. unfold ret.
  eexists _, _, _. split; [reflexivity | discriminate].
Qed.

Lemma QueryRouter_RouteQuery_returns (qr : QueryRouter) ctx qt w s :
  exists d e s',
    QueryRouter_RouteQuery qr ctx qt w s = (Ok (d, e), s') /\ (e = None -> d <> None).
Proof.
  destruct qr as [r|r]; [apply RouteQuery_returns | apply SimpleRouter_RouteQuery_returns].
Qed.

End Routing.

End RouterFacts.


(* ===================================================================== *)
(** * Properties of the facade *)
(* ===================================================================== *)

Module FacadeFacts.
Import Sys QueryKind Router Facade RouterFacts.

Section Facade.
Context {LB : Type} `{LoadBalancer LB}.
Variable isDBConnectionError : option error -> bool.

Implicit Types (s : State LB) (w : World) (db : Facade.DB).

Lemma ReadWrite_run db w s :
  primaries db <> [] ->
  ReadWrite db w s =
  (Ok (fst (Resolve (lb s) (primaries db))),
   with_lb s (snd (Resolve (lb s) (primaries db)))).
Proof. apply resolve_nonempty. Qed.

(** What [New] builds: a facade with a primary, and with a causal router
    only when the configuration enables it; that router is enabled and
    reads the facade's own pools. *)
Lemma New_router (opt : Option) db :
  New opt = Ok db ->
  primaries db <> [] /\
  forall qr, queryRouter db = Some qr ->
    exists r, qr = Causal r /\ Enabled (config r) = true /\
              dbProvider r = Some (provider db).
Proof.
  unfold New. destruct (optPrimaryDBs opt) as [|d ds] eqn:Hp; [discriminate|].
  destruct (CCConfig opt) as [c|]; [destruct (Enabled c) eqn:He|];
    intros [= <-]; cbn [primaries queryRouter]; (split; [discriminate|]);
    intros qr [= <-].
  eexists. split; [reflexivity|]. cbn. split; [exact He | reflexivity].
Qed.

(** ** The choice of a backend *)

Lemma ReadOnly_returns db w s :
  primaries db <> [] -> exists d s', ReadOnly db w s = (Ok d, s').
Proof.
  intros Hne. unfold ReadOnly.
  destruct (length (replicas db) =? 0)%nat eqn:Hlen.
  - apply resolve_returns, Hne.
  - apply resolve_returns, nonempty_of_length, Hlen.
Qed.

(** A facade with a primary always finds a backend for a statement: the
    selection never fails and never ends on a nil handle. *)
Lemma selectDB_returns db ctx (writeFlag : bool) w s :
  primaries db <> [] ->
  exists d s', selectDB db ctx writeFlag w s = (Ok (Some d), s').
Proof.
  intros Hne. unfold selectDB.
  assert (Hro : forall s0, exists d s',
    (d <- ReadOnly db ;; ret (Some d))%go w s0 = (Ok (Some d), s')).
  { intros s0. unfold bind. destruct (ReadOnly_returns db w s0 Hne) as (d & s' & ->).
    unfold ret. eauto. }
  destruct writeFlag.
  { unfold bind, ReadWrite. destruct (resolve_returns (primaries db) w s Hne)
      as (d & s' & ->). unfold ret. eauto. }
  destruct (queryRouter db) as [qr|] eqn:Eqr; [|apply Hro].
  unfold ReadWithLSN. rewrite Eqr. unfold bind at 1.
  destruct (QueryRouter_RouteQuery_returns qr ctx QueryTypeRead w s)
    as (d & e & s1 & -> & Hd).
  destruct e as [e|]; [apply Hro|].
  destruct d as [d|]; [|exfalso; apply Hd; reflexivity].
  unfold ret. eauto.
Qed.

(** ** ExecContext *)

(** [ExecContext] runs the statement on a primary and does nothing else:
    the state changes by the balancer's step and one logged call. *)
Lemma ExecContext_run db ctx (query : string) w s :
  primaries db <> [] ->
  let d := fst (Resolve (lb s) (primaries db)) in
  ExecContext db ctx query w s =
  (Ok (w (trace s) (ExecCall d query)),
   sent (with_lb s (snd (Resolve (lb s) (primaries db)))) (ExecCall d query)).
Proof.
  intros Hne d. unfold ExecContext, bind. rewrite (ReadWrite_run db w s Hne).
  reflexivity.
Qed.

(** ** QueryContext *)

Lemma QueryContext_read db ctx (query : string) w s (d0 : Sys.DB) s1 :
  queryTypeChecker db query <> QueryTypeWrite ->
  selectDB db ctx false w s = (Ok (Some d0), s1) ->
  QueryContext isDBConnectionError db ctx query w s =
  (if isDBConnectionError (err (w (trace s1) (QueryCall d0 query)))
   then bind (ReadWrite db) (fun d => send (QueryCall d query))
   else ret (w (trace s1) (QueryCall d0 query)))
    w (sent s1 (QueryCall d0 query)).
Proof.
  intros Hr Hsel.
  assert (Hflag : QueryType_eqb (queryTypeChecker db query) QueryTypeWrite = false)
    by (destruct (queryTypeChecker db query); try reflexivity; congruence).
  unfold QueryContext. rewrite Hflag. cbv zeta.
  unfold bind at 1. rewrite Hsel.
  unfold bind at 1. cbn [on]. unfold send at 1. cbv beta iota.
  cbn [negb]. rewrite andb_true_r. reflexivity.
Qed.

(** C9.  With at least one primary, a backend is always selected for a
    read, and:
    - a read whose execution on the selected backend fails with a
      connection-level error is run once more, on a primary, and the answer
      of that second run is returned whatever it is;
    - a read that fails in another way, or succeeds, is run once;
    - a statement classified as a write is run once, on a primary, whatever
      its error. *)
Theorem read_retried_once_on_primary db ctx (query : string) w s :
  primaries db <> [] ->
  (queryTypeChecker db query <> QueryTypeWrite ->
   exists d0 s1,
     selectDB db ctx false w s = (Ok (Some d0), s1) /\
     let a0 := w (trace s1) (QueryCall d0 query) in
     let d1 := fst (Resolve (lb s1) (primaries db)) in
     (isDBConnectionError (err a0) = true ->
      exists s2,
        QueryContext isDBConnectionError db ctx query w s =
          (Ok (w (trace s1 ++ [QueryCall d0 query])%list (QueryCall d1 query)), s2) /\
        In d1 (primaries db) /\
        trace s2 = (trace s1 ++ [QueryCall d0 query; QueryCall d1 query])%list) /\
     (isDBConnectionError (err a0) = false ->
      QueryContext isDBConnectionError db ctx query w s =
        (Ok a0, sent s1 (QueryCall d0 query)))) /\
  (queryTypeChecker db query = QueryTypeWrite ->
   let d := fst (Resolve (lb s) (primaries db)) in
   In d (primaries db) /\
   QueryContext isDBConnectionError db ctx query w s =
     (Ok (w (trace s) (QueryCall d query)),
      sent (with_lb s (snd (Resolve (lb s) (primaries db)))) (QueryCall d query))).
Proof.
  intros Hne. split.
  - intros Hr. destruct (selectDB_returns db ctx false w s Hne) as (d0 & s1 & Hsel).
    exists d0, s1. split; [exact Hsel|]. intros a0 d1.
    rewrite (QueryContext_read db ctx query w s d0 s1 Hr Hsel).
    fold a0. split.
    + intros ->.
      unfold bind at 1. rewrite ReadWrite_run by exact Hne.
      unfold sent at 2. cbn [lb]. fold d1.
      unfold send, with_lb, sent. cbn [lb heap lastMasterLSN checkers trace].
      eexists. split; [reflexivity|]. split; [apply Resolve_In, Hne|].
      cbn [trace]. rewrite <- app_assoc. reflexivity.
    + intros ->. reflexivity.
  - intros Hw d. split; [apply Resolve_In, Hne|].
    unfold QueryContext. rewrite Hw. cbn [QueryType_eqb]. cbv zeta.
    unfold selectDB. unfold bind at 1. unfold bind at 1.
    rewrite ReadWrite_run by exact Hne. unfold ret at 1.
    unfold bind at 1. cbn [on]. unfold send at 1. cbv beta iota. cbn [negb].
    rewrite andb_false_r. reflexivity.
Qed.

(** [QueryRowContext] retries in the same way. *)
Lemma QueryRowContext_retry db ctx (query : string) w s (d0 : Sys.DB) s1 :
  primaries db <> [] ->
  queryTypeChecker db query <> QueryTypeWrite ->
  selectDB db ctx false w s = (Ok (Some d0), s1) ->
  isDBConnectionError (err (w (trace s1) (QueryRowCall d0 query))) = true ->
  let d1 := fst (Resolve (lb s1) (primaries db)) in
  exists s2,
    QueryRowContext isDBConnectionError db ctx query w s =
      (Ok (w (trace s1 ++ [QueryRowCall d0 query])%list (QueryRowCall d1 query)), s2) /\
    In d1 (primaries db) /\
    trace s2 = (trace s1 ++ [QueryRowCall d0 query; QueryRowCall d1 query])%list.
Proof.
  intros Hne Hr Hsel Hconn d1.
  assert (Hflag : QueryType_eqb (queryTypeChecker db query) QueryTypeWrite = false)
    by (destruct (queryTypeChecker db query); try reflexivity; congruence).
  unfold QueryRowContext. rewrite Hflag. cbv zeta.
  unfold bind at 1. rewrite Hsel.
  unfold bind at 1. cbn [on]. unfold send at 1. cbv beta iota.
  rewrite Hconn. cbn [negb andb].
  unfold bind at 1. rewrite ReadWrite_run by exact Hne.
  cbn [lb]. fold d1. unfold send, with_lb. cbn [lb heap lastMasterLSN checkers trace].
  eexists. split; [reflexivity|]. split; [apply Resolve_In, Hne|].
  cbn [trace]. rewrite <- app_assoc. reflexivity.
Qed.

(** ** Transactions *)

Lemma captures_snoc (l : list Call) (c : Call) :
  captures (l ++ [c]) = (captures l ++ captures [c])%list.
Proof.
  induction l as [|x l IH]; [reflexivity|].
  cbn [app captures]. destruct x; try exact IH.
  destruct (String.eqb query captureQuery); [cbn [app]; f_equal|]; exact IH.
Qed.

(** A transaction started by [BeginTx] has no router. *)
Lemma BeginTx_router db ctx w s (t : tx) e s' :
  BeginTx db ctx w s = (Ok (Some t, e), s') -> txQueryRouter t = None.
Proof.
  unfold BeginTx, bind, ReadWrite, resolve.
  destruct (primaries db) as [|d0 ds]; [discriminate|].
  destruct (Resolve (lb s) (d0 :: ds)) as [d lb'].
  unfold send. cbn [trace].
  destruct (err (w (trace s) (BeginCall d))); unfold ret; intros [= <- _ _];
    reflexivity.
Qed.

(** Without a router, [Commit] sends the commit and nothing else. *)
Lemma Commit_without_router (t : tx) w s :
  txQueryRouter t = None ->
  Commit t w s =
  (Ok (err (w (trace s) (CommitCall (txDB t)))), sent s (CommitCall (txDB t))).
Proof.
  intros Hr. unfold Commit, bind, send, trackLSNAfterWrite. rewrite Hr.
  destruct (is_nil (err _) && writesOccurred t);
    [destruct (err _)|]; reflexivity.
Qed.

(** [Rollback] sends the rollback and nothing else: no capture. *)
Lemma Rollback_run (t : tx) w s :
  Rollback t w s =
  (Ok (err (w (trace s) (RollbackCall (txDB t)))), sent s (RollbackCall (txDB t))) /\
  captures (trace (sent s (RollbackCall (txDB t)))) = captures (trace s).
Proof.
  split; [reflexivity|]. cbn [sent trace]. rewrite captures_snoc.
  cbn [captures]. apply app_nil_r.
Qed.

(** With a router and a pinned primary, a commit that succeeds after a
    write asks that primary for its position: the path the code has for the
    capture. *)
Lemma Commit_with_router (t : tx) (r : CausalRouter) (d : Sys.DB) w s :
  txQueryRouter t = Some (Causal r) -> sourceDB t = Some d ->
  Enabled (config r) = true -> writesOccurred t = true ->
  err (w (trace s) (CommitCall (txDB t))) = None ->
  exists s', Commit t w s = (Ok None, s') /\
             captures (trace s') = (captures (trace s) ++ [d])%list.
Proof.
  intros Hr Hd He Hw Herr.
  unfold Commit. unfold bind at 1. unfold send at 1. rewrite Herr, Hw.
  cbn [is_nil andb]. unfold bind at 1. unfold trackLSNAfterWrite.
  rewrite Hr, Hd. unfold bind at 1. cbn [QueryRouter_UpdateLSNAfterWrite].
  unfold UpdateLSNAfterWrite. rewrite He.
  unfold bind at 1.
  assert (Hc : forall s0, exists s1 c,
    getOrCreateChecker (Some d) (routerQueryTimeout r) w s0 = (Ok (Some c), s1) /\
    db c = d /\ trace s1 = trace s0).
  { intros s0. unfold getOrCreateChecker.
    destruct (checkers s0 !! d); eexists; eexists; (split; [reflexivity|]);
      repeat split. }
  destruct (Hc (mkState (lb s) (heap s) (lastMasterLSN s) (checkers s)
                  (trace s ++ [CommitCall (txDB t)]))) as (s1 & c & -> & Hdc & Ht1).
  cbn [trace] in Ht1.
  assert (Hlast : forall s2, trace s2 =
            ((trace s ++ [CommitCall (txDB t)]) ++ [QueryRowCall d captureQuery])%list ->
            captures (trace s2) = (captures (trace s) ++ [d])%list).
  { intros s2 ->. rewrite !captures_snoc. cbn [captures]. rewrite String.eqb_refl.
    rewrite app_nil_r. reflexivity. }
  unfold bind at 1. unfold GetCurrentWALLSN, scanLSN. unfold bind at 1.
  unfold send at 1. rewrite Hdc, Ht1.
  change ("SELECT " ++ PGCurrentWALLSN) with captureQuery.
  set (a := w _ (QueryRowCall d captureQuery)).
  destruct (err a).
  { unfold ret. eexists. split; [reflexivity|]. apply Hlast. reflexivity. }
  destruct (LSN.ParseLSN (column a)).
  2:{ unfold ret. eexists. split; [reflexivity|]. apply Hlast. reflexivity. }
  unfold ret at 1. unfold bind at 1. unfold setLastMasterLSN at 1.
  unfold bind at 1. cbn [GetLSNContext Value]. unfold alloc at 1.
  unfold bind at 1. unfold load at 1. unfold bind at 1. unfold store at 1.
  unfold ret. eexists. split; [reflexivity|]. apply Hlast. reflexivity.
Qed.

End Facade.

End FacadeFacts.


(* ===================================================================== *)
(** * Properties of the HTTP transport *)
(* ===================================================================== *)

Module MiddlewareFacts.
Import Sys QueryKind Router Middleware RouterFacts.

(** ** SetLSNCookie *)

(** C8.  For the zero LSN, [SetLSNCookie] returns the response header as it
    was; and whatever Set-Cookie line it adds carries a non-zero LSN,
    serialized. *)
Theorem SetLSNCookie_zero (hw : Header) (lsn : LSN.LSN) (name : string)
    (maxAge : Z) (secure : bool) :
  (LSN.IsZero lsn = true -> SetLSNCookie hw lsn name maxAge secure = hw) /\
  (SetLSNCookie hw lsn name maxAge secure <> hw ->
   LSN.IsZero lsn = false /\
   exists c, SetLSNCookie hw lsn name maxAge secure = (hw ++ [SetCookieLine c])%list /\
             Value c = LSN.String lsn).
Proof.
  unfold SetLSNCookie, SetCookie. destruct (LSN.IsZero lsn).
  - split; [reflexivity | congruence].
  - split; [discriminate|]. intros Hne. split; [reflexivity|].
    destruct (isCookieNameValid _); [|congruence].
    eexists. split; reflexivity.
Qed.

(** ** The inbound cookie *)

Lemma GetLSNFromCookie_unusable (r : Request) (name : string) :
  Request_Cookie r name = None \/
  Request_Cookie r name = Some "" \/
  (exists v, Request_Cookie r name = Some v /\ LSN.ParseLSN v = None) ->
  GetLSNFromCookie r name = (LSN.zero, false).
Proof.
  unfold GetLSNFromCookie. intros [-> | [-> | (v & -> & Hv)]]; try reflexivity.
  rewrite Hv. destruct (negb _); reflexivity.
Qed.

Section Middleware.
Context {LB : Type} `{LoadBalancer LB}.

Implicit Types (s : State LB) (w : World).

(** What the middleware does with a request whose LSN cookie is absent,
    empty, or does not parse: it hands the request on with a context that
    carries a new token, the zero value of [LSNContext]: no required LSN,
    no forced primary.  Every router routes under that token as it does
    under a context without one. *)
Theorem unusable_cookie_attaches_idle_token (m : HTTPMiddleware) (next : Handler)
    (hw : Header) (r : Request) w s :
  Request_Cookie r (cookieName m) = None \/
  Request_Cookie r (cookieName m) = Some "" \/
  (exists v, Request_Cookie r (cookieName m) = Some v /\ LSN.ParseLSN v = None) ->
  let p := fresh (dom (heap s)) in
  let s' := mkState (lb s) (<[p := zeroLSNContext]> (heap s)) (lastMasterLSN s)
              (checkers s) (trace s) in
  let ctx' := WithLSNContext (reqContext r) (Some p) in
  Middleware m next hw r w s = next hw (WithContext r ctx') w s' /\
  token s' ctx' = Some zeroLSNContext /\
  forall (qr : QueryRouter) qt ctx0 w',
    GetLSNContext ctx0 = None ->
    QueryRouter_RouteQuery qr ctx' qt w' s' = QueryRouter_RouteQuery qr ctx0 qt w' s'.
Proof.
  intros Hc p s' ctx'.
  assert (Htok : token s' ctx' = Some zeroLSNContext).
  { unfold token.
    change (GetLSNContext ctx') with (Some p).
    change (heap s') with (<[p := zeroLSNContext]> (heap s)).
    cbv beta iota. rewrite lookup_insert_eq. reflexivity. }
  split; [|split; [exact Htok|]].
  - unfold Middleware. rewrite (GetLSNFromCookie_unusable r _ Hc).
    unfold bind, alloc, ret. reflexivity.
  - intros qr qt ctx0 w' H0.
    apply (QueryRouter_idle_token qr ctx' ctx0 qt w' s' zeroLSNContext Htok);
      [reflexivity | reflexivity | exact H0].
Qed.

End Middleware.

End MiddlewareFacts.

(* ===================================================================== *)
(** * The deployment at work *)
(* ===================================================================== *)

Module Scenario.
Import Sys QueryKind Router Facade Middleware Example.
Import RouterFacts FacadeFacts MiddlewareFacts.

(** The facade of the examples is the one [New] builds from the pools and
    the configuration. *)
Lemma db0_built :
  New (mkOption [1%nat] [2%nat] (Check NewDefaultQueryTypeChecker) (Some ccConfig))
  = Ok db0.
Proof. reflexivity. Qed.

(** ** C1: ExecContext and the capture *)

(** C1 fails on the code.  On a facade with causal consistency switched on,
    a successful [ExecContext] of an INSERT sends the statement to the
    primary and nothing else: no capture runs, the token of the context
    keeps its zero required LSN, and the read that follows on the same
    context goes to the replica although it lags behind the write. *)
Theorem exec_then_read_is_stale :
  let res := ExecContext db0 ctxTok insertStmt lagging (withToken zeroLSNContext) in
  fst res = Ok (mkAnswer None "") /\
  trace (snd res) = [ExecCall 1%nat insertStmt] /\
  captures (trace (snd res)) = [] /\
  token (snd res) ctxTok = Some zeroLSNContext /\
  queried selectStmt
    (trace (snd (QueryContext isConn db0 ctxTok selectStmt lagging (snd res)))) = [2%nat].
Proof. vm_compute. repeat split; reflexivity. Qed.

(** ** C7: transactions and the capture *)

(** C7 fails on the code.  A transaction begun by the facade runs an INSERT
    with success and commits with success: the flag [writesOccurred] is
    set, and still no capture runs, because [BeginTx] gives the
    transaction no router. *)
Theorem commit_after_write_captures_nothing :
  let check := Check NewDefaultQueryTypeChecker in
  let t := mkTx (Some 1%nat) 1%nat None (Some check) false in
  let t' := mkTx (Some 1%nat) 1%nat None (Some check) true in
  let s1 := mkState 1%nat ∅ LSN.zero ∅ [BeginCall 1%nat] in
  let s2 := mkState 1%nat ∅ LSN.zero ∅ [BeginCall 1%nat; TxExecCall 1%nat insertStmt] in
  let s3 := mkState 1%nat ∅ LSN.zero ∅
              [BeginCall 1%nat; TxExecCall 1%nat insertStmt; CommitCall 1%nat] in
  queryRouter db0 = Some (Causal router0) /\
  BeginTx db0 Background lagging init = (Ok (Some t, None), s1) /\
  tx_ExecContext t Background insertStmt lagging s1 = (Ok (t', mkAnswer None ""), s2) /\
  writesOccurred t' = true /\
  Commit t' lagging s2 = (Ok None, s3) /\
  captures (trace s3) = [].
Proof. cbv zeta. repeat split; reflexivity. Qed.

(** ** The theorems at concrete inputs *)

Lemma write_routes_to_primary_witness :
  Enabled (config router0) = true /\ dbProvider router0 = Some pools /\
  PrimaryDBs pools <> [] /\
  exists d s',
    RouteQuery router0 ctxTok QueryTypeWrite lagging (withToken tok60)
      = (Ok (Some d, None), s') /\
    In d (PrimaryDBs pools) /\ trace s' = trace (withToken tok60) /\
    heap s' = heap (withToken tok60).
Proof.
  split; [reflexivity|]. split; [reflexivity|]. split; [discriminate|].
  apply (write_routes_to_primary router0 pools ctxTok lagging (withToken tok60));
    [reflexivity | reflexivity | discriminate].
Defined.

Lemma read_your_writes_routing_witness :
  Enabled (config router0) = true /\ dbProvider router0 = Some pools /\
  PrimaryDBs pools <> [] /\ ReplicaDBs pools <> [] /\
  cfgLevel (config router0) = ReadYourWrites /\
  QueryTypeRead <> QueryTypeWrite /\
  GetLSNContext ctxTok = Some 0%nat /\ heap (withToken tok60) !! 0%nat = Some tok60 /\
  ForceMaster tok60 = false /\
  LSN.IsZero (RequiredLSN tok60) = false /\ LSN.wf (RequiredLSN tok60) /\
  fst (RouteQuery router0 ctxTok QueryTypeRead lagging (withToken tok60))
    = Ok (Some 1%nat, None) /\
  fst (RouteQuery router0 ctxTok QueryTypeRead caughtUp (withToken tok60))
    = Ok (Some 2%nat, None).
Proof.
  assert (H1 : Enabled (config router0) = true) by reflexivity.
  assert (H2 : dbProvider router0 = Some pools) by reflexivity.
  assert (H3 : PrimaryDBs pools <> []) by discriminate.
  assert (H4 : ReplicaDBs pools <> []) by discriminate.
  assert (H5 : cfgLevel (config router0) = ReadYourWrites) by reflexivity.
  assert (H6 : QueryTypeRead <> QueryTypeWrite) by discriminate.
  assert (H7 : GetLSNContext ctxTok = Some 0%nat) by reflexivity.
  assert (H8 : heap (withToken tok60) !! 0%nat = Some tok60) by reflexivity.
  assert (H9 : ForceMaster tok60 = false) by reflexivity.
  assert (H10 : LSN.IsZero (RequiredLSN tok60) = false) by reflexivity.
  assert (H11 : LSN.wf (RequiredLSN tok60)) by (split; reflexivity).
  repeat (split; [assumption|]).
  split.
  - destruct (read_your_writes_routing router0 pools ctxTok QueryTypeRead lagging
                (withToken tok60) 0%nat tok60 H1 H2 H3 H4 H5 H6 H7 H8 H9 H10 H11)
      as (_ & _ & E & _).
    vm_compute in E. vm_compute. exact E.
  - destruct (read_your_writes_routing router0 pools ctxTok QueryTypeRead caughtUp
                (withToken tok60) 0%nat tok60 H1 H2 H3 H4 H5 H6 H7 H8 H9 H10 H11)
      as (_ & _ & E & _).
    vm_compute in E. vm_compute. exact E.
Defined.

Lemma capture_reaches_existing_token_only_witness :
  Enabled (config router0) = true /\
  err (lagging (trace (withToken zeroLSNContext)) (QueryRowCall 1%nat captureQuery)) = None /\
  LSN.ParseLSN
    (column (lagging (trace (withToken zeroLSNContext)) (QueryRowCall 1%nat captureQuery)))
    = Some lsn60 /\
  exists s',
    UpdateLSNAfterWrite router0 ctxTok (Some 1%nat) lagging (withToken zeroLSNContext)
      = (Ok (lsn60, None), s') /\
    (forall ptr, GetLSNContext ctxTok = Some ptr ->
       exists t', token s' ctxTok = Some t' /\ heap s' !! ptr = Some t' /\
                  RequiredLSN t' = lsn60) /\
    (GetLSNContext ctxTok = None ->
       token s' ctxTok = None /\
       forall q t, heap (withToken zeroLSNContext) !! q = Some t -> heap s' !! q = Some t).
Proof.
  split; [reflexivity|]. split; [reflexivity|]. split; [vm_compute; reflexivity|].
  apply (capture_reaches_existing_token_only router0 ctxTok 1%nat lagging
           (withToken zeroLSNContext) lsn60);
    [reflexivity | reflexivity | vm_compute; reflexivity].
Defined.

Lemma read_retried_once_on_primary_witness :
  primaries db0 <> [] /\
  exists s2,
    QueryContext isConn db0 Background selectStmt replicaDown init
      = (Ok (mkAnswer None ""), s2) /\
    trace s2 = [QueryCall 2%nat selectStmt; QueryCall 1%nat selectStmt].
Proof.
  assert (Hne : primaries db0 <> []) by discriminate.
  split; [exact Hne|].
  destruct (read_retried_once_on_primary isConn db0 Background selectStmt replicaDown
              init Hne) as [Hread _].
  assert (Hr : queryTypeChecker db0 selectStmt <> QueryTypeWrite)
    by (vm_compute; discriminate).
  destruct (Hread Hr) as (d0 & s1 & Hsel & Hgo).
  assert (Hsel0 : selectDB db0 Background false replicaDown init
                 = (Ok (Some 2%nat), mkState 1%nat ∅ LSN.zero ∅ []))
    by (vm_compute; reflexivity).
  rewrite Hsel0 in Hsel. injection Hsel as <- <-.
  destruct Hgo as [Hconn _].
  destruct (Hconn eq_refl) as (s2 & E & _ & Ht).
  exists s2. split; [exact E | exact Ht].
Defined.

Lemma unusable_cookie_attaches_idle_token_witness :
  (Request_Cookie badCookie (cookieName mw0) = None \/
   Request_Cookie badCookie (cookieName mw0) = Some "" \/
   (exists v, Request_Cookie badCookie (cookieName mw0) = Some v /\
              LSN.ParseLSN v = None)) /\
  token (snd (Middleware mw0 probe [] badCookie lagging init))
    (WithLSNContext Background (Some 0%nat)) = Some zeroLSNContext /\
  fst (Middleware mw0 probe [] badCookie lagging init) = Ok [Line "X-Token" "attached"].
Proof.
  assert (Hc : Request_Cookie badCookie (cookieName mw0) = None \/
               Request_Cookie badCookie (cookieName mw0) = Some "" \/
               (exists v, Request_Cookie badCookie (cookieName mw0) = Some v /\
                          LSN.ParseLSN v = None)).
  { right. right. exists "not-an-lsn". split; reflexivity. }
  split; [exact Hc|].
  destruct (unusable_cookie_attaches_idle_token mw0 probe [] badCookie lagging init Hc)
    as (E & Htok & _).
  rewrite E. split; [exact Htok | reflexivity].
Defined.


End Scenario.

(* ===================================================================== *)
(** * Further properties of the LSN value type *)
(* ===================================================================== *)

Module LSNArith.
Import LSN LSNFacts RouterFacts.

(** ** Reading digits *)

Lemma digit_is_hex (c : ascii) d :
  digit_val c = Some d -> d < 16 -> is_hex_digit c = true.
Proof.
  intros Hd Hlt.
  destruct c as [[] [] [] [] [] [] [] []]; vm_compute in Hd; try discriminate;
    try reflexivity; injection Hd as <-; vm_compute in Hlt; discriminate.
Qed.

Lemma hexfold_ge (s : string) : forall n, all_hex s = true -> n <= hexfold s n.
Proof.
  induction s as [|c s IH]; intros n Hs; [simpl; lia|].
  apply all_hex_cons in Hs as [Hc Hs].
  destruct (hex_digit_val c Hc) as (d & Hd & Hlt & _).
  cbn [hexfold]. rewrite Hd. specialize (IH (16 * n + d) Hs). lia.
Qed.

(** The loop of [ParseUint] on digits whose value fits 32 bits, however
    many they are. *)
Lemma loop_value (s : string) : forall n,
  all_hex s = true -> hexfold s n < 2 ^ 32 ->
  ParseUint_loop 16 (2 ^ 32 - 1) (maxUint64 / 16 + 1) s n = Some (hexfold s n).
Proof.
  induction s as [|c s IH]; intros n Hs Hv; [reflexivity|].
  apply all_hex_cons in Hs as [Hc Hs].
  destruct (hex_digit_val c Hc) as (d & Hd & Hlt & _).
  cbn [ParseUint_loop hexfold] in *. rewrite Hd in *.
  pose proof (hexfold_ge s (16 * n + d) Hs) as Hge.
  assert (Hcut : maxUint64 / 16 + 1 = 2 ^ 60) by reflexivity.
  rewrite Hcut.
  change (2 ^ 60) with 1152921504606846976.
  change (2 ^ 32) with 4294967296 in *.
  destruct (N.leb_spec 16 d); [lia|].
  destruct (N.leb_spec 1152921504606846976 n); [lia|].
  unfold uint64. change (2 ^ 64) with 18446744073709551616.
  rewrite (N.mod_small (n * 16)) by lia.
  rewrite (N.mod_small (n * 16 + d)) by lia.
  destruct (N.ltb_spec (n * 16 + d) (n * 16)); [lia|].
  destruct (N.ltb_spec (4294967296 - 1) (n * 16 + d)); [lia|].
  cbn [orb]. replace (n * 16 + d) with (16 * n + d) by lia.
  apply IH; assumption.
Qed.

(** What the loop accepts is made of hexadecimal digits, and below 2^32
    all the way. *)
Lemma loop_accepts (s : string) : forall n v,
  n < 2 ^ 32 ->
  ParseUint_loop 16 (2 ^ 32 - 1) (maxUint64 / 16 + 1) s n = Some v ->
  all_hex s = true /\ v = hexfold s n /\ v < 2 ^ 32.
Proof.
  induction s as [|c s IH]; intros n v Hn.
  - intros [= <-]. repeat split. exact Hn.
  - cbn [ParseUint_loop hexfold].
    destruct (digit_val c) as [d|] eqn:Hd; [|discriminate].
    destruct (N.leb_spec 16 d); [discriminate|].
    destruct (maxUint64 / 16 + 1 <=? n); [discriminate|].
    set (n' := uint64 (n * 16)). set (n1 := uint64 (n' + d)).
    destruct (N.ltb_spec n1 n'); [discriminate|].
    destruct (N.ltb_spec (2 ^ 32 - 1) n1); [discriminate|].
    cbn [orb].
    assert (E : n1 = 16 * n + d).
    { subst n1 n'. unfold uint64. change (2 ^ 64) with 18446744073709551616.
      change (2 ^ 32) with 4294967296 in *.
      rewrite (N.mod_small (n * 16)) by lia.
      rewrite N.mod_small by lia. lia. }
    intros Hl. apply IH in Hl; [|change (2 ^ 32) with 4294967296 in *; lia].
    destruct Hl as (Hs & Hv & Hlt). rewrite E in Hv.
    split; [|split; assumption].
    change (all_hex (String.String c s)) with (is_hex_digit c && all_hex s).
    rewrite (digit_is_hex c d Hd) by assumption. exact Hs.
Qed.

(** [ParseUint(s, 16, 32)] accepts exactly the non-empty strings of
    hexadecimal digits whose value is below 2^32. *)
Lemma ParseUint_hex (s : string) (v : N) :
  ParseUint s 16 32 = Some v <->
  s <> "" /\ all_hex s = true /\ hexfold s 0 = v /\ v < 2 ^ 32.
Proof.
  split.
  - destruct s as [|c s]; [discriminate|]. unfold ParseUint.
    intros Hl. apply loop_accepts in Hl; [|reflexivity].
    destruct Hl as (Hs & Hv & Hlt). repeat split; try assumption; try discriminate.
    symmetry; exact Hv.
  - intros (Hne & Hs & <- & Hlt).
    destruct s as [|c s]; [congruence|]. unfold ParseUint.
    apply loop_value; assumption.
Qed.

(** ** Splitting *)

Lemma Split_nonempty (s : string) : Split s "/" <> [].
Proof.
  destruct s as [|c s]; [discriminate|]. cbn [Split].
  destruct (Ascii.eqb c "/"); [discriminate|].
  destruct (Split s "/"); discriminate.
Qed.

Lemma Split_one (s b : string) : Split s "/" = [b] -> s = b.
Proof.
  revert b. induction s as [|c s IH]; intros b.
  - intros [= <-]. reflexivity.
  - cbn [Split]. destruct (Ascii.eqb c "/").
    + pose proof (Split_nonempty s). destruct (Split s "/"); [congruence|discriminate].
    + destruct (Split s "/") as [|hd tl] eqn:E.
      * intros [= <-]. exfalso. exact (Split_nonempty s E).
      * intros [= <- ->]. rewrite (IH hd eq_refl). reflexivity.
Qed.

(** Two pieces come from a text with the separator between them. *)
Lemma Split_pair (s a b : string) : Split s "/" = [a; b] -> s = a ++ "/" ++ b.
Proof.
  revert a. induction s as [|c s IH]; intros a.
  - discriminate.
  - cbn [Split]. destruct (Ascii.eqb c "/") eqn:Ec.
    + intros [= <- Hs]. apply Ascii.eqb_eq in Ec. subst c.
      rewrite (Split_one s b Hs). reflexivity.
    + destruct (Split s "/") as [|hd tl] eqn:E; [discriminate|].
      intros [= <- ->]. rewrite (IH hd eq_refl). reflexivity.
Qed.

(** ** Printing digits *)

Lemma udigit_val (d : N) :
  d < 16 -> digit_val (udigit d) = Some d /\ is_hex_digit (udigit d) = true.
Proof.
  intros Hd.
  assert (H : d = 0 \/ d = 1 \/ d = 2 \/ d = 3 \/ d = 4 \/ d = 5 \/ d = 6 \/ d = 7 \/
              d = 8 \/ d = 9 \/ d = 10 \/ d = 11 \/ d = 12 \/ d = 13 \/ d = 14 \/
              d = 15) by lia.
  repeat (destruct H as [-> | H]; [split; reflexivity|]). subst d. split; reflexivity.
Qed.

Lemma all_hex_app (a b : string) : all_hex (a ++ b) = all_hex a && all_hex b.
Proof.
  induction a as [|c a IH]; [reflexivity|].
  change (is_hex_digit c && all_hex (a ++ b) = is_hex_digit c && all_hex a && all_hex b).
  rewrite IH. apply andb_assoc.
Qed.

Lemma hexfold_app (a b : string) : forall n,
  all_hex a = true -> hexfold (a ++ b) n = hexfold b (hexfold a n).
Proof.
  induction a as [|c a IH]; intros n Ha; [reflexivity|].
  apply all_hex_cons in Ha as [Hc Ha].
  destruct (hex_digit_val c Hc) as (d & Hd & _).
  change (hexfold (String.String c (a ++ b)) n = hexfold b (hexfold (String.String c a) n)).
  cbn [hexfold]. rewrite Hd. apply IH, Ha.
Qed.

Lemma app_assoc_string (a b c : string) : (a ++ b) ++ c = a ++ (b ++ c).
Proof.
  induction a as [|x a IH]; [reflexivity|].
  change (String.String x ((a ++ b) ++ c) = String.String x (a ++ b ++ c)).
  rewrite IH. reflexivity.
Qed.

(** The formatting loop writes the digits of its argument, most significant
    first, in front of the buffer. *)
Lemma fmt_loop_digits (fuel : nat) : forall (u : N) (buf : string),
  u < 16 ^ N.of_nat (S fuel) ->
  exists ds, fmt_hex_loop fuel u buf = ds ++ buf /\ ds <> "" /\
             all_hex ds = true /\ hexfold ds 0 = u.
Proof.
  induction fuel as [|fuel IH]; intros u buf Hu.
  - change (16 ^ N.of_nat 1) with 16 in Hu.
    destruct (udigit_val u Hu) as [Hd Hh].
    exists (String.String (udigit u) ""). cbn [fmt_hex_loop].
    repeat split; try discriminate.
    + cbn [all_hex]. rewrite Hh. reflexivity.
    + cbn [hexfold]. rewrite Hd. lia.
  - cbn [fmt_hex_loop]. destruct (N.leb_spec 16 u) as [Hge | Hlt].
    + assert (Hdiv : N.shiftr u 4 = u / 16) by apply N.shiftr_div_pow2.
      assert (Hmod : N.land u 15 = u mod 16)
        by (change 15 with (N.ones 4); apply N.land_ones).
      rewrite Hdiv, Hmod.
      assert (Hm : u mod 16 < 16) by (apply N.mod_lt; discriminate).
      destruct (udigit_val _ Hm) as [Hd Hh].
      assert (Hq : u / 16 < 16 ^ N.of_nat (S fuel)).
      { apply N.Div0.div_lt_upper_bound.
        rewrite (Nat2N.inj_succ (S fuel)), N.pow_succ_r' in Hu. exact Hu. }
      destruct (IH (u / 16) (String.String (udigit (u mod 16)) buf) Hq)
        as (ds & -> & Hne & Hs & Hv).
      exists (ds ++ String.String (udigit (u mod 16)) "").
      split; [rewrite app_assoc_string; reflexivity|].
      split; [destruct ds; [congruence | discriminate]|].
      split.
      * rewrite all_hex_app, Hs. cbn [all_hex andb]. rewrite Hh. reflexivity.
      * rewrite hexfold_app by exact Hs. cbn [hexfold]. rewrite Hd, Hv.
        pose proof (N.div_mod u 16). lia.
    + destruct (udigit_val u Hlt) as [Hd Hh].
      exists (String.String (udigit u) "").
      repeat split; try discriminate.
      * cbn [all_hex]. rewrite Hh. reflexivity.
      * cbn [hexfold]. rewrite Hd. lia.
Qed.

Lemma fmtX_digits (u : N) :
  u < 2 ^ 32 ->
  fmtX u <> "" /\ all_hex (fmtX u) = true /\ hexfold (fmtX u) 0 = u.
Proof.
  intros Hu. unfold fmtX.
  destruct (fmt_loop_digits 16 u "") as (ds & -> & Hne & Hs & Hv).
  { eapply N.lt_trans; [exact Hu|]. reflexivity. }
  rewrite append_empty_r. repeat split; assumption.
Qed.

(** Two runs of digits with values below 2^32 parse, to their values. *)
Lemma ParseLSN_of_digits (a b : string) :
  a <> "" -> b <> "" -> all_hex a = true -> all_hex b = true ->
  hexfold a 0 < 2 ^ 32 -> hexfold b 0 < 2 ^ 32 ->
  ParseLSN (a ++ "/" ++ b) = Some (mkLSN (hexfold a 0) (hexfold b 0)).
Proof.
  intros Hna Hnb Ha Hb Hu Hv.
  rewrite (ParseLSN_two a b Ha Hb).
  assert (Ea : ParseUint a 16 32 = Some (hexfold a 0))
    by (apply ParseUint_hex; repeat split; assumption).
  assert (Eb : ParseUint b 16 32 = Some (hexfold b 0))
    by (apply ParseUint_hex; repeat split; assumption).
  rewrite Ea, Eb. unfold uint32. rewrite !N.mod_small by assumption. reflexivity.
Qed.

(** What [String] prints parses back. *)
Lemma ParseLSN_String (l : LSN) : wf l -> ParseLSN (LSN.String l) = Some l.
Proof.
  intros [Hu Hl].
  destruct (fmtX_digits _ Hu) as (Hna & Ha & Hva).
  destruct (fmtX_digits _ Hl) as (Hnb & Hb & Hvb).
  unfold LSN.String.
  rewrite (ParseLSN_of_digits _ _ Hna Hnb Ha Hb) by (rewrite ?Hva, ?Hvb; assumption).
  rewrite Hva, Hvb. destruct l; reflexivity.
Qed.

(** X1.  [ParseLSN] accepts exactly the texts made of two non-empty runs of
    hexadecimal digits (of either case, of any length) around one solidus,
    each of a value below 2^32; the LSN it returns holds the two values. *)
Theorem ParseLSN_accepts (s : string) (l : LSN) :
  ParseLSN s = Some l <->
  exists a b,
    s = a ++ "/" ++ b /\ a <> "" /\ b <> "" /\
    all_hex a = true /\ all_hex b = true /\
    hexfold a 0 < 2 ^ 32 /\ hexfold b 0 < 2 ^ 32 /\
    l = mkLSN (hexfold a 0) (hexfold b 0).
Proof.
  split.
  - unfold ParseLSN. destruct s as [|c0 s0] eqn:Es; [discriminate|]. rewrite <- Es.
    destruct (Split s "/") as [|a [|b [|]]] eqn:E; try discriminate.
    destruct (ParseUint a 16 32) as [u|] eqn:Ea; [|discriminate].
    destruct (ParseUint b 16 32) as [v|] eqn:Eb; [|discriminate].
    intros [= <-]. apply ParseUint_hex in Ea as (Hna & Ha & <- & Hu).
    apply ParseUint_hex in Eb as (Hnb & Hb & <- & Hv).
    exists a, b. unfold uint32. rewrite !N.mod_small by assumption.
    repeat split; try assumption. apply Split_pair, E.
  - intros (a & b & -> & Hna & Hnb & Ha & Hb & Hu & Hv & ->).
    apply ParseLSN_of_digits; assumption.
Qed.

(** X2.  What [String] prints, [ParseLSN] reads back as the same LSN; so
    two LSNs that print alike are equal. *)
Theorem string_then_parse (l : LSN) :
  wf l ->
  ParseLSN (LSN.String l) = Some l /\
  (forall l', wf l' -> LSN.String l' = LSN.String l -> l' = l).
Proof.
  intros Hw. split; [apply ParseLSN_String, Hw|].
  intros l' Hw' E. apply ParseLSN_String in Hw'. rewrite E, (ParseLSN_String l Hw) in Hw'.
  congruence.
Qed.

Lemma string_then_parse_witness :
  wf (mkLSN 1 0xA0B1C2) /\ LSN.String (mkLSN 1 0xA0B1C2) = "1/A0B1C2" /\
  ParseLSN (LSN.String (mkLSN 1 0xA0B1C2)) = Some (mkLSN 1 0xA0B1C2).
Proof.
  assert (H : wf (mkLSN 1 0xA0B1C2)) by (split; reflexivity).
  split; [exact H|]. split; [reflexivity|].
  exact (proj1 (string_then_parse (mkLSN 1 0xA0B1C2) H)).
Defined.

(** ** The order and the 64-bit form *)

(** X3.  [Compare] is the three-way comparison of the 64-bit values, it
    answers 0 on equal LSNs only, and swapping its arguments changes the
    sign; the five predicates are the order's relations. *)
Theorem Compare_is_the_64_bit_order (a b : LSN) :
  wf a -> wf b ->
  Compare a b = match ToUint64 a ?= ToUint64 b with
               | Lt => (-1)%Z | Eq => 0%Z | Gt => 1%Z end /\
  (Compare a b = 0%Z <-> a = b) /\
  Compare b a = (- Compare a b)%Z /\
  LessThan a b = (ToUint64 a <? ToUint64 b) /\
  LessThanOrEqual a b = (ToUint64 a <=? ToUint64 b) /\
  GreaterThan a b = (ToUint64 b <? ToUint64 a) /\
  GreaterThanOrEqual a b = (ToUint64 b <=? ToUint64 a) /\
  Equals a b = (ToUint64 a =? ToUint64 b).
Proof.
  intros Ha Hb.
  assert (Hc : Compare a b = match ToUint64 a ?= ToUint64 b with
                             | Lt => (-1)%Z | Eq => 0%Z | Gt => 1%Z end).
  { rewrite (ToUint64_wf a Ha), (ToUint64_wf b Hb).
    destruct Ha as [Hau Hal], Hb as [Hbu Hbl]. unfold Compare.
    change (2 ^ 32) with 4294967296 in *.
    destruct (N.compare_spec (Upper a * 4294967296 + Lower a)
                             (Upper b * 4294967296 + Lower b)),
      (N.ltb_spec (Upper a) (Upper b)), (N.ltb_spec (Upper b) (Upper a)),
      (N.ltb_spec (Lower a) (Lower b)), (N.ltb_spec (Lower b) (Lower a));
      try reflexivity; try nia. }
  assert (Hs : Compare b a = (- Compare a b)%Z).
  { unfold Compare.
    destruct (N.ltb_spec (Upper a) (Upper b)), (N.ltb_spec (Upper b) (Upper a)),
      (N.ltb_spec (Lower a) (Lower b)), (N.ltb_spec (Lower b) (Lower a));
      try reflexivity; try lia. }
  assert (H0 : Compare a b = 0%Z <-> a = b).
  { split.
    - unfold Compare.
      destruct (N.ltb_spec (Upper a) (Upper b)), (N.ltb_spec (Upper b) (Upper a)),
        (N.ltb_spec (Lower a) (Lower b)), (N.ltb_spec (Lower b) (Lower a));
        try discriminate. intros _. destruct a, b; cbn in *. f_equal; lia.
    - intros ->. unfold Compare. rewrite !N.ltb_irrefl. reflexivity. }
  split; [exact Hc|]. split; [exact H0|]. split; [exact Hs|].
  unfold LessThan, LessThanOrEqual, GreaterThan, GreaterThanOrEqual, Equals.
  rewrite Hc.
  destruct (N.compare_spec (ToUint64 a) (ToUint64 b)),
    (N.ltb_spec (ToUint64 a) (ToUint64 b)), (N.leb_spec (ToUint64 a) (ToUint64 b)),
    (N.ltb_spec (ToUint64 b) (ToUint64 a)), (N.leb_spec (ToUint64 b) (ToUint64 a)),
    (N.eqb_spec (ToUint64 a) (ToUint64 b));
    try lia; repeat split; reflexivity.
Qed.

Lemma Compare_is_the_64_bit_order_witness :
  wf (mkLSN 0 0x3000060) /\ wf (mkLSN 1 0) /\
  Compare (mkLSN 0 0x3000060) (mkLSN 1 0) = (-1)%Z /\
  LessThan (mkLSN 0 0x3000060) (mkLSN 1 0) =
    (ToUint64 (mkLSN 0 0x3000060) <? ToUint64 (mkLSN 1 0)).
Proof.
  assert (Ha : wf (mkLSN 0 0x3000060)) by (split; reflexivity).
  assert (Hb : wf (mkLSN 1 0)) by (split; reflexivity).
  split; [exact Ha|]. split; [exact Hb|].
  destruct (Compare_is_the_64_bit_order _ _ Ha Hb) as (Hc & _ & _ & Hl & _).
  split; [exact Hc | exact Hl].
Defined.

Lemma FromUint64_split (u l : N) :
  u < 2 ^ 32 -> l < 2 ^ 32 -> LSNFromUint64 (u * 2 ^ 32 + l) = mkLSN u l.
Proof.
  intros Hu Hl. unfold LSNFromUint64, uint32.
  rewrite N.shiftr_div_pow2.
  change 4294967295 with (N.ones 32). rewrite N.land_ones.
  replace (u * 2 ^ 32 + l) with (l + u * 2 ^ 32) by lia.
  rewrite N.div_add, N.Div0.mod_add by discriminate.
  rewrite N.div_small, !(N.mod_small l) by assumption.
  rewrite N.add_0_l, N.mod_small by assumption. reflexivity.
Qed.

Lemma FromUint64_wf (v : N) : wf (LSNFromUint64 v).
Proof. split; apply N.mod_lt; discriminate. Qed.

Lemma ToUint64_lt (l : LSN) : wf l -> ToUint64 l < 2 ^ 64.
Proof.
  intros Hw. rewrite (ToUint64_wf l Hw). destruct Hw as [Hu Hl].
  change (2 ^ 64) with (2 ^ 32 * 2 ^ 32). change (2 ^ 32) with 4294967296 in *. nia.
Qed.

Lemma To_From_Uint64 (v : N) : v < 2 ^ 64 -> ToUint64 (LSNFromUint64 v) = v.
Proof.
  intros Hv. rewrite (ToUint64_wf _ (FromUint64_wf v)).
  unfold LSNFromUint64, uint32. cbn [Upper Lower].
  rewrite N.shiftr_div_pow2.
  change 4294967295 with (N.ones 32). rewrite N.land_ones.
  rewrite (N.mod_small (v / 2 ^ 32)).
  - rewrite N.Div0.mod_mod. pose proof (N.div_mod v (2 ^ 32)). lia.
  - apply N.Div0.div_lt_upper_bound. exact Hv.
Qed.

(** X4.  [LSNFromUint64] and [ToUint64] are inverse to each other. *)
Theorem uint64_round_trip (l : LSN) (v : N) :
  wf l -> v < 2 ^ 64 ->
  LSNFromUint64 (ToUint64 l) = l /\
  ToUint64 (LSNFromUint64 v) = v /\
  ToUint64 l < 2 ^ 64 /\ wf (LSNFromUint64 v).
Proof.
  intros Hw Hv. split; [|split; [|split]].
  - rewrite (ToUint64_wf l Hw). destruct Hw as [Hu Hl].
    rewrite FromUint64_split by assumption. destruct l; reflexivity.
  - apply To_From_Uint64, Hv.
  - apply ToUint64_lt, Hw.
  - apply FromUint64_wf.
Qed.

Lemma uint64_round_trip_witness :
  wf (mkLSN 1 0xA0B1C2) /\ 0x1000000FF < 2 ^ 64 /\
  LSNFromUint64 (ToUint64 (mkLSN 1 0xA0B1C2)) = mkLSN 1 0xA0B1C2 /\
  ToUint64 (LSNFromUint64 0x1000000FF) = 0x1000000FF.
Proof.
  assert (Hw : wf (mkLSN 1 0xA0B1C2)) by (split; reflexivity).
  assert (Hv : 0x1000000FF < 2 ^ 64) by reflexivity.
  split; [exact Hw|]. split; [exact Hv|].
  destruct (uint64_round_trip _ _ Hw Hv) as (H1 & H2 & _).
  split; [exact H1 | exact H2].
Defined.

Lemma Subtract_ToUint64 (a b : LSN) :
  wf a -> wf b -> Subtract a b = ToUint64 a - ToUint64 b.
Proof.
  intros Ha Hb.
  pose proof (ToUint64_lt a Ha) as Hla. pose proof (ToUint64_lt b Hb) as Hlb.
  unfold Subtract. rewrite (LessThan_ToUint64 a b Ha Hb).
  destruct (N.ltb_spec (ToUint64 a) (ToUint64 b)); [lia|].
  unfold uint64.
  replace (2 ^ 64 + ToUint64 a - ToUint64 b)
    with ((ToUint64 a - ToUint64 b) + 1 * 2 ^ 64) by lia.
  rewrite N.Div0.mod_add. apply N.mod_small. lia.
Qed.

(** X5.  [Subtract] is the distance in bytes when the receiver is not behind
    the argument, and 0 when it is: it never wraps around. *)
Theorem Subtract_saturates (a b : LSN) :
  wf a -> wf b ->
  Subtract a b = ToUint64 a - ToUint64 b /\
  (LessThan a b = true -> Subtract a b = 0) /\
  (LessThan a b = false -> ToUint64 b + Subtract a b = ToUint64 a).
Proof.
  intros Ha Hb.
  pose proof (ToUint64_lt a Ha) as Hla. pose proof (ToUint64_lt b Hb) as Hlb.
  pose proof (Subtract_ToUint64 a b Ha Hb) as E.
  split; [exact E|]. rewrite E, (LessThan_ToUint64 a b Ha Hb).
  split; intros H; [apply N.ltb_lt in H | apply N.ltb_ge in H]; lia.
Qed.

Lemma Subtract_saturates_witness :
  wf (mkLSN 0 0x3000040) /\ wf (mkLSN 0 0x3000060) /\
  Subtract (mkLSN 0 0x3000040) (mkLSN 0 0x3000060) = 0 /\
  Subtract (mkLSN 0 0x3000060) (mkLSN 0 0x3000040) = 0x20.
Proof.
  assert (Ha : wf (mkLSN 0 0x3000040)) by (split; reflexivity).
  assert (Hb : wf (mkLSN 0 0x3000060)) by (split; reflexivity).
  split; [exact Ha|]. split; [exact Hb|]. split.
  - destruct (Subtract_saturates _ _ Ha Hb) as (_ & H & _). apply H. reflexivity.
  - destruct (Subtract_saturates _ _ Hb Ha) as (H & _). rewrite H. reflexivity.
Defined.

(** X6.  [Add] adds modulo 2^64: the result is the LSN of the sum when the
    sum fits 64 bits, and then [Subtract] gives the added bytes back; past
    the last LSN it starts again from 0/0. *)
Theorem Add_wraps (l : LSN) (bytes : N) :
  wf l -> bytes < 2 ^ 64 ->
  wf (Add l bytes) /\
  ToUint64 (Add l bytes) = (ToUint64 l + bytes) mod 2 ^ 64 /\
  (ToUint64 l + bytes < 2 ^ 64 ->
   Subtract (Add l bytes) l = bytes /\ LessThan (Add l bytes) l = false) /\
  (2 ^ 64 <= ToUint64 l + bytes -> LessThan (Add l bytes) l = true).
Proof.
  intros Hw Hb. pose proof (ToUint64_lt l Hw) as Hl.
  assert (Hwa : wf (Add l bytes)) by apply FromUint64_wf.
  assert (E : ToUint64 (Add l bytes) = (ToUint64 l + bytes) mod 2 ^ 64).
  { unfold Add, uint64. apply To_From_Uint64. apply N.mod_lt. discriminate. }
  split; [exact Hwa|]. split; [exact E|]. split.
  - intros Hfit. rewrite N.mod_small in E by exact Hfit.
    rewrite (Subtract_ToUint64 (Add l bytes) l Hwa Hw), E, (LessThan_ToUint64 _ _ Hwa Hw), E.
    split; [lia | apply N.ltb_ge; lia].
  - intros Hover. rewrite (LessThan_ToUint64 _ _ Hwa Hw), E. apply N.ltb_lt.
    replace (ToUint64 l + bytes) with ((ToUint64 l + bytes - 2 ^ 64) + 1 * 2 ^ 64) by lia.
    rewrite N.Div0.mod_add, N.mod_small by lia. lia.
Qed.

Lemma Add_wraps_witness :
  wf (mkLSN 0xFFFFFFFF 0xFFFFFFF0) /\ 0x20 < 2 ^ 64 /\
  Add (mkLSN 0xFFFFFFFF 0xFFFFFFF0) 0x20 = mkLSN 0 0x10 /\
  LessThan (Add (mkLSN 0xFFFFFFFF 0xFFFFFFF0) 0x20) (mkLSN 0xFFFFFFFF 0xFFFFFFF0) = true.
Proof.
  assert (Hw : wf (mkLSN 0xFFFFFFFF 0xFFFFFFF0)) by (split; reflexivity).
  assert (Hb : 0x20 < 2 ^ 64) by reflexivity.
  split; [exact Hw|]. split; [exact Hb|]. split; [reflexivity|].
  destruct (Add_wraps _ _ Hw Hb) as (_ & _ & _ & H). apply H. discriminate.
Defined.

End LSNArith.

(* ===================================================================== *)
(** * Properties of the adapter *)
(* ===================================================================== *)

Module ReplicationFacts.
Import Sys QueryKind Router Facade Replication RouterFacts FacadeFacts LSNArith Example.

Section Facts.
Context {LB : Type} `{LoadBalancer LB}.

Implicit Types (s : State LB) (w : World).

Lemma observed_replay_wf w (l : list Call) (d : Sys.DB) (r : LSN.LSN) :
  observed_replay w l d = Some r -> LSN.wf r.
Proof.
  unfold observed_replay. destruct (err _); [discriminate|]. apply ParseLSN_wf.
Qed.

(** ** The registry of adapters *)

(** X7.  The registry keeps one adapter per backend: the first request for
    a backend creates it with the timeout given then, every later request
    for that backend returns the same adapter and changes nothing, whatever
    timeout it asks for; the entries of other backends stay as they are,
    and a nil handle gets no adapter. *)
Theorem registry_keeps_first_adapter (d : Sys.DB) (t1 t2 : Z) w w' s :
  exists c s1,
    getOrCreateChecker (Some d) t1 w s = (Ok (Some c), s1) /\
    db c = d /\ queryTimeout c = default t1 (checkers s !! d) /\
    checkers s1 !! d = Some (queryTimeout c) /\
    (forall d', d' <> d -> checkers s1 !! d' = checkers s !! d') /\
    getOrCreateChecker (Some d) t2 w' s1 = (Ok (Some c), s1) /\
    getOrCreateChecker None t1 w s = (Ok None, s) /\
    trace s1 = trace s /\ heap s1 = heap s /\ lb s1 = lb s.
Proof.
  unfold getOrCreateChecker.
  destruct (checkers s !! d) as [t|] eqn:E.
  - exists (mkChecker d t), s. rewrite E. cbn [db queryTimeout default from_option id].
    repeat split; auto.
  - eexists. eexists. split; [reflexivity|].
    cbn [db queryTimeout checkers trace heap lb default from_option id].
    rewrite lookup_insert_eq.
    repeat split; auto.
    intros d' Hd'. apply lookup_insert_ne. congruence.
Qed.

(** ** Lag *)

(** X8.  [GetReplicationLag] asks the replica for its replay position once
    and returns how many bytes the given primary position is ahead of it,
    0 when the replica is not behind; when the position cannot be had it
    returns 0 with the error. *)
Theorem replication_lag_in_bytes (c : PGLSNChecker) (masterLSN : LSN.LSN) w s :
  LSN.wf masterLSN ->
  exists s',
    trace s' = (trace s ++ [QueryRowCall (db c) replayQuery])%list /\
    lb s' = lb s /\ heap s' = heap s /\
    match observed_replay w (trace s) (db c) with
    | Some r =>
        GetReplicationLag c masterLSN w s =
          (Ok (LSN.ToUint64 masterLSN - LSN.ToUint64 r, None), s')
    | None => exists e, GetReplicationLag c masterLSN w s = (Ok (0, Some e), s')
    end.
Proof.
  intros Hm. unfold GetReplicationLag, bind.
  destruct (GetLastReplayLSN_run c w s) as (s' & Ht & Hl & Hh & Hrun).
  exists s'. split; [exact Ht|]. split; [exact Hl|]. split; [exact Hh|].
  destruct (observed_replay w (trace s) (db c)) as [r|] eqn:Eo.
  - rewrite Hrun. unfold ret.
    rewrite (Subtract_ToUint64 _ _ Hm (observed_replay_wf _ _ _ _ Eo)). reflexivity.
  - destruct Hrun as (e & ->). exists e. reflexivity.
Qed.

(** X9.  [IsReplicaHealthy] reports a replica healthy exactly when its
    replay position can be had and either no primary position is given
    (0/0) or the primary is at most [maxLagBytes] ahead; a replica that is
    ahead of the given position is healthy. *)
Theorem replica_health (c : PGLSNChecker) (masterLSN : LSN.LSN) (maxLagBytes : N) w s :
  LSN.wf masterLSN ->
  exists s',
    trace s' = (trace s ++ [QueryRowCall (db c) replayQuery])%list /\
    match observed_replay w (trace s) (db c) with
    | Some r =>
        IsReplicaHealthy c masterLSN maxLagBytes w s =
          (Ok (LSN.IsZero masterLSN
               || (LSN.ToUint64 masterLSN <=? LSN.ToUint64 r + maxLagBytes), None), s')
    | None => exists e, IsReplicaHealthy c masterLSN maxLagBytes w s = (Ok (false, Some e), s')
    end.
Proof.
  intros Hm. unfold IsReplicaHealthy, bind.
  destruct (GetLastReplayLSN_run c w s) as (s' & Ht & Hl & Hh & Hrun).
  exists s'. split; [exact Ht|].
  destruct (observed_replay w (trace s) (db c)) as [r|] eqn:Eo.
  - rewrite Hrun. unfold ret.
    rewrite (Subtract_ToUint64 _ _ Hm (observed_replay_wf _ _ _ _ Eo)).
    destruct (LSN.IsZero masterLSN); cbn [negb orb]; [reflexivity|].
    destruct (N.leb_spec (LSN.ToUint64 masterLSN - LSN.ToUint64 r) maxLagBytes),
      (N.leb_spec (LSN.ToUint64 masterLSN) (LSN.ToUint64 r + maxLagBytes));
      try lia; reflexivity.
  - destruct Hrun as (e & ->). exists e. reflexivity.
Qed.

End Facts.

Lemma replication_lag_in_bytes_witness :
  LSN.wf lsn60 /\
  fst (GetReplicationLag (mkChecker 2%nat 0) lsn60 lagging init) = Ok (0x20, None).
Proof.
  assert (Hm : LSN.wf lsn60) by (split; reflexivity).
  split; [exact Hm|].
  destruct (replication_lag_in_bytes (mkChecker 2%nat 0) lsn60 lagging init Hm)
    as (s' & _ & _ & _ & Hrun).
  change (observed_replay lagging (trace init) (db (mkChecker 2%nat 0)))
    with (Some (LSN.mkLSN 0 0x3000040)) in Hrun.
  rewrite Hrun. reflexivity.
Defined.

Lemma replica_health_witness :
  LSN.wf lsn60 /\
  fst (IsReplicaHealthy (mkChecker 2%nat 0) lsn60 0x10 lagging init) = Ok (false, None) /\
  fst (IsReplicaHealthy (mkChecker 2%nat 0) lsn60 0x20 lagging init) = Ok (true, None).
Proof.
  assert (Hm : LSN.wf lsn60) by (split; reflexivity).
  split; [exact Hm|]. split.
  - destruct (replica_health (mkChecker 2%nat 0) lsn60 0x10 lagging init Hm)
      as (s' & _ & Hrun).
    change (observed_replay lagging (trace init) (db (mkChecker 2%nat 0)))
      with (Some (LSN.mkLSN 0 0x3000040)) in Hrun.
    rewrite Hrun. reflexivity.
  - destruct (replica_health (mkChecker 2%nat 0) lsn60 0x20 lagging init Hm)
      as (s' & _ & Hrun).
    change (observed_replay lagging (trace init) (db (mkChecker 2%nat 0)))
      with (Some (LSN.mkLSN 0 0x3000040)) in Hrun.
    rewrite Hrun. reflexivity.
Defined.

End ReplicationFacts.

(* ===================================================================== *)
(** * Further properties of the router *)
(* ===================================================================== *)

Module RoutingFacts.
Import Sys QueryKind Router Facade Replication Notions.
Import RouterFacts FacadeFacts LSNArith Example ExampleMore.

Section Facts.
Context {LB : Type} `{LoadBalancer LB}.

Implicit Types (s : State LB) (w : World).

(** The adapter of a backend, and what asking for it leaves of the state. *)
Lemma getOrCreateChecker_run (d : Sys.DB) (t : Z) w s :
  exists c s1,
    getOrCreateChecker (Some d) t w s = (Ok (Some c), s1) /\
    db c = d /\ trace s1 = trace s /\ heap s1 = heap s /\ lb s1 = lb s /\
    lastMasterLSN s1 = lastMasterLSN s.
Proof.
  unfold getOrCreateChecker.
  destruct (checkers s !! d); eexists; eexists; (split; [reflexivity|]); repeat split.
Qed.

Lemma GetCurrentWALLSN_run (c : PGLSNChecker) w s :
  exists s',
    trace s' = (trace s ++ [QueryRowCall (db c) captureQuery])%list /\
    lb s' = lb s /\ heap s' = heap s /\ lastMasterLSN s' = lastMasterLSN s /\
    checkers s' = checkers s /\
    match observed_position w (trace s) (db c) with
    | Some l => GetCurrentWALLSN c w s = (Ok (l, None), s')
    | None => exists e, GetCurrentWALLSN c w s = (Ok (LSN.zero, Some e), s')
    end.
Proof.
  unfold GetCurrentWALLSN, scanLSN, observed_position, bind, send, captureQuery.
  eexists. split; [|split; [|split; [|split; [|split]]]]; cycle 5.
  - destruct (err (w (trace s) _)) as [e|].
    + eexists. reflexivity.
    + destruct (LSN.ParseLSN _); [reflexivity | eexists; reflexivity].
  - reflexivity.
  - reflexivity.
  - reflexivity.
  - reflexivity.
  - reflexivity.
Qed.

(** ** The cached position of the primary *)

(** X10.  [GetCurrentMasterLSN] asks the first primary, whatever the
    balancer would pick, once.  A position that is had is returned and
    cached, so that [GetLastKnownMasterLSN] gives it without a query; when
    it cannot be had the call fails and the cache keeps what it held. *)
Theorem master_position_is_cached (r : CausalRouter) (p : DBProvider) ctx
    (d : Sys.DB) (ds : list Sys.DB) w s :
  Enabled (config r) = true -> dbProvider r = Some p -> PrimaryDBs p = d :: ds ->
  exists s',
    trace s' = (trace s ++ [QueryRowCall d captureQuery])%list /\
    lb s' = lb s /\ heap s' = heap s /\
    match observed_position w (trace s) d with
    | Some l =>
        GetCurrentMasterLSN r ctx w s = (Ok (l, None), s') /\
        GetLastKnownMasterLSN r w s' = (Ok l, s')
    | None =>
        (exists e, GetCurrentMasterLSN r ctx w s = (Ok (LSN.zero, Some e), s')) /\
        GetLastKnownMasterLSN r w s' = (Ok (lastMasterLSN s), s')
    end.
Proof.
  intros He Hp Hd.
  destruct (getOrCreateChecker_run d (routerQueryTimeout r) w s)
    as (c & s1 & Hc & Hdc & Ht1 & Hh1 & Hl1 & Hm1).
  destruct (GetCurrentWALLSN_run c w s1) as (s2 & Ht2 & Hl2 & Hh2 & Hm2 & Hc2 & Hrun).
  rewrite Hdc, Ht1 in *.
  assert (Hgo : GetCurrentMasterLSN r ctx w s =
    bind (GetCurrentWALLSN c)
      (fun res => let (lsn, e) := res in
         match e with
         | Some e => ret (LSN.zero, Some (Errorw "failed to get master LSN" e))
         | None => bind (setLastMasterLSN lsn) (fun _ => ret (lsn, None))
         end) w s1).
  { unfold GetCurrentMasterLSN. rewrite He, Hp, Hd. cbn [negb].
    unfold bind at 1. rewrite Hc. reflexivity. }
  rewrite Hgo.
  destruct (observed_position w (trace s) d) as [l|]; unfold bind at 1.
  - exists (mkState (lb s2) (heap s2) l (checkers s2) (trace s2)).
    cbn [trace lb heap]. split; [exact Ht2|]. split; [congruence|].
    split; [congruence|]. rewrite Hrun. split; reflexivity.
  - destruct Hrun as (e & Hrun). unfold GetLastKnownMasterLSN.
    exists s2. split; [exact Ht2|]. split; [congruence|]. split; [congruence|].
    rewrite Hrun.
    split; [eexists; reflexivity|]. rewrite Hm2, Hm1. reflexivity.
Qed.

(** X11.  A capture that fails (the primary does not answer, or answers
    with something that is no LSN) returns the zero LSN with an error and
    leaves every token and the cached position as they were: the request
    goes on with the requirement it had. *)
Theorem failed_capture_changes_nothing (r : CausalRouter) ctx (d : Sys.DB) w s :
  Enabled (config r) = true ->
  observed_position w (trace s) d = None ->
  exists e s',
    UpdateLSNAfterWrite r ctx (Some d) w s = (Ok (LSN.zero, Some e), s') /\
    heap s' = heap s /\ token s' ctx = token s ctx /\
    lastMasterLSN s' = lastMasterLSN s /\
    trace s' = (trace s ++ [QueryRowCall d captureQuery])%list.
Proof.
  intros He Ho.
  destruct (getOrCreateChecker_run d (routerQueryTimeout r) w s)
    as (c & s1 & Hc & Hdc & Ht1 & Hh1 & Hl1 & Hm1).
  destruct (GetCurrentWALLSN_run c w s1) as (s2 & Ht2 & Hl2 & Hh2 & Hm2 & Hc2 & Hrun).
  rewrite Hdc, Ht1 in *. rewrite Ho in Hrun. destruct Hrun as (e & Hrun).
  exists (Errorw "failed to get master LSN after write" e), s2.
  assert (Hh : heap s2 = heap s) by congruence.
  split; [|split; [exact Hh|split; [unfold token; rewrite Hh; reflexivity|
                                     split; [congruence | exact Ht2]]]].
  unfold UpdateLSNAfterWrite. rewrite He.
  unfold bind at 1. rewrite Hc. cbv beta iota.
  unfold bind at 1. rewrite Hrun. reflexivity.
Qed.

(** ** Where a query goes *)

(** X12.  A token that forces the primary, and the level StrongConsistency,
    send every query to a primary, reads too, whatever the required LSN,
    and no replica is asked for its position. *)
Theorem pinned_to_primary (r : CausalRouter) (p : DBProvider) ctx qt w s :
  Enabled (config r) = true -> dbProvider r = Some p -> PrimaryDBs p <> [] ->
  (exists t, token s ctx = Some t /\ ForceMaster t = true) \/
  cfgLevel (config r) = StrongConsistency ->
  let pri := Resolve (lb s) (PrimaryDBs p) in
  RouteQuery r ctx qt w s = (Ok (Some (fst pri), None), with_lb s (snd pri)) /\
  In (fst pri) (PrimaryDBs p).
Proof.
  intros He Hp Hne Hpin pri. split; [|apply Resolve_In, Hne].
  rewrite (RouteQuery_enabled r p ctx qt w s He Hp Hne). cbv zeta.
  rewrite (primary_nonempty _ w s Hne). fold pri.
  destruct Hpin as [(t & -> & ->) | Hlvl]; [reflexivity|].
  rewrite Hlvl.
  destruct (match token s ctx with Some t => ForceMaster t | None => false end);
    [reflexivity|].
  destruct (QueryType_eqb qt QueryTypeWrite); reflexivity.
Qed.

(** X13.  A read under a token that asks for nothing, at level
    ReadYourWrites, and any read that is not forced to the primary at
    level NoneCausalConsistency, goes to a replica when there is one and
    to a primary when there is none; no replica is asked for its
    position. *)
Theorem unconstrained_read_takes_any_replica (r : CausalRouter) (p : DBProvider)
    ctx qt w s :
  Enabled (config r) = true -> dbProvider r = Some p -> PrimaryDBs p <> [] ->
  qt <> QueryTypeWrite ->
  (cfgLevel (config r) = ReadYourWrites /\ idle (token s ctx) true) \/
  (cfgLevel (config r) = NoneCausalConsistency /\ idle (token s ctx) false) ->
  let pool := match ReplicaDBs p with [] => PrimaryDBs p | _ => ReplicaDBs p end in
  let sel := Resolve (lb s) pool in
  RouteQuery r ctx qt w s = (Ok (Some (fst sel), None), with_lb s (snd sel)) /\
  In (fst sel) pool.
Proof.
  intros He Hp Hne Hqt Hlvl pool sel.
  assert (Hpool : pool <> []).
  { subst pool. destruct (ReplicaDBs p); [exact Hne | discriminate]. }
  split; [|apply Resolve_In, Hpool].
  rewrite (RouteQuery_enabled r p ctx qt w s He Hp Hne). cbv zeta.
  replace (QueryType_eqb qt QueryTypeWrite) with false
    by (destruct qt; try reflexivity; congruence).
  assert (Hsimple :
    (if (0 <? length (ReplicaDBs p))%nat
     then bind (resolve (ReplicaDBs p)) (fun d => ret (Some d, None))
     else primary (PrimaryDBs p)) w s
    = (Ok (Some (fst sel), None), with_lb s (snd sel))).
  { subst sel pool. destruct (ReplicaDBs p) as [|x xs] eqn:Er.
    - cbn [length Nat.ltb Nat.leb]. apply primary_nonempty, Hne.
    - cbn [length Nat.ltb Nat.leb]. unfold bind.
      rewrite resolve_nonempty by discriminate. reflexivity. }
  destruct Hlvl as [[-> Hidle] | [-> Hidle]]; unfold idle in Hidle;
    destruct (token s ctx) as [t|]; try exact Hsimple.
  - destruct Hidle as [-> Hz]. rewrite (Hz eq_refl). exact Hsimple.
  - destruct Hidle as [-> _]. exact Hsimple.
Qed.

(** A scan sends its query and changes nothing else. *)
Lemma scanLSN_sent (c : PGLSNChecker) (fn m1 m2 : string) w s :
  snd (scanLSN c fn m1 m2 w s) = sent s (QueryRowCall (db c) ("SELECT " ++ fn)).
Proof.
  unfold scanLSN, bind, send, sent.
  destruct (err _); [reflexivity|]. destruct (LSN.ParseLSN _); reflexivity.
Qed.

Lemma shouldUseReplica_frame (r : CausalRouter) (p : DBProvider) ctx (L : LSN.LSN) w s :
  dbProvider r = Some p ->
  exists b d s',
    shouldUseReplica r ctx L w s = (Ok (b, d, None), s') /\
    (b = true -> exists x, d = Some x /\ In x (ReplicaDBs p)) /\
    heap s' = heap s /\ lastMasterLSN s' = lastMasterLSN s /\
    (trace s' = trace s \/
     exists x, In x (ReplicaDBs p) /\
               trace s' = (trace s ++ [QueryRowCall x replayQuery])%list).
Proof.
  intros Hp. unfold shouldUseReplica. rewrite Hp.
  destruct (length (ReplicaDBs p) =? 0)%nat eqn:Hlen.
  { unfold ret. exists false, None, s. split; [reflexivity|].
    split; [discriminate|]. repeat split. left. reflexivity. }
  apply nonempty_of_length in Hlen.
  pose proof (Resolve_In (lb s) _ Hlen) as Hin.
  destruct (LSN.IsZero L).
  { unfold bind. rewrite resolve_nonempty by exact Hlen. unfold ret.
    eexists _, _, _. split; [reflexivity|].
    split; [intros _; eexists; split; [reflexivity | exact Hin]|].
    repeat split. left. reflexivity. }
  unfold bind at 1. rewrite resolve_nonempty by exact Hlen.
  set (d := fst (Resolve (lb s) (ReplicaDBs p))) in *.
  unfold bind at 1.
  destruct (getOrCreateChecker_run d (routerQueryTimeout r) w
              (with_lb s (snd (Resolve (lb s) (ReplicaDBs p)))))
    as (c & s1 & -> & Hdc & Ht1 & Hh1 & Hl1 & Hm1).
  cbv beta iota. unfold bind at 1.
  destruct (GetLastReplayLSN_run c w s1) as (s2 & Ht2 & Hl2 & Hh2 & Hrun).
  assert (Hm2 : lastMasterLSN s2 = lastMasterLSN s1).
  { pose proof (scanLSN_sent c PGLastWalReplayLSN "failed to get last replay LSN"
                  "failed to parse replica LSN" w s1) as Hs.
    change (scanLSN c PGLastWalReplayLSN _ _ w s1) with (GetLastReplayLSN c w s1) in Hs.
    destruct (observed_replay w (trace s1) (db c)).
    - rewrite Hrun in Hs. cbn [snd] in Hs. rewrite Hs. reflexivity.
    - destruct Hrun as (e & Hrun). rewrite Hrun in Hs. cbn [snd] in Hs.
      rewrite Hs. reflexivity. }
  rewrite Hdc, Ht1 in *. cbn [with_lb heap lastMasterLSN trace] in *.
  assert (Hfr : heap s2 = heap s /\ lastMasterLSN s2 = lastMasterLSN s /\
                (trace s2 = trace s \/
                 exists x, In x (ReplicaDBs p) /\
                           trace s2 = (trace s ++ [QueryRowCall x replayQuery])%list)).
  { split; [congruence|]. split; [congruence|]. right. exists d. split; assumption. }
  destruct (observed_replay w (trace s) d) as [l|].
  - rewrite Hrun. destruct (negb (LSN.LessThan l L)); unfold ret.
    + exists true, (Some d), s2. split; [reflexivity|].
      split; [intros _; exists d; split; [reflexivity | exact Hin]|]. exact Hfr.
    + exists false, None, s2. split; [reflexivity|]. split; [discriminate | exact Hfr].
  - destruct Hrun as (e & ->). unfold ret.
    exists false, None, s2. split; [reflexivity|]. split; [discriminate | exact Hfr].
Qed.

(** What [RouteQuery] of a router with a provider comes to, the pools
    holding handles that are not nil. *)
Lemma RouteQuery_outcome (r : CausalRouter) (p : DBProvider) ctx qt w s :
  dbProvider r = Some p ->
  exists d e s',
    RouteQuery r ctx qt w s = (Ok (d, e), s') /\
    (e = None <-> d <> None) /\
    heap s' = heap s /\ lastMasterLSN s' = lastMasterLSN s /\
    (forall x, d = Some x -> In x (PrimaryDBs p ++ ReplicaDBs p)) /\
    (trace s' = trace s \/
     exists x, In x (ReplicaDBs p) /\
               trace s' = (trace s ++ [QueryRowCall x replayQuery])%list).
Proof.
  intros Hp.
  set (Q := fun (res : Res (option Sys.DB * option error) * State LB) =>
    exists d e s',
      res = (Ok (d, e), s') /\ (e = None <-> d <> None) /\
      heap s' = heap s /\ lastMasterLSN s' = lastMasterLSN s /\
      (forall x, d = Some x -> In x (PrimaryDBs p ++ ReplicaDBs p)) /\
      (trace s' = trace s \/
       exists x, In x (ReplicaDBs p) /\
                 trace s' = (trace s ++ [QueryRowCall x replayQuery])%list)).
  change (Q (RouteQuery r ctx qt w s)). unfold RouteQuery. rewrite Hp.
  assert (Herr : forall (e : error) s0,
    heap s0 = heap s -> lastMasterLSN s0 = lastMasterLSN s ->
    (trace s0 = trace s \/
     exists x, In x (ReplicaDBs p) /\
               trace s0 = (trace s ++ [QueryRowCall x replayQuery])%list) ->
    Q (ret (@None Sys.DB, Some e) w s0)).
  { intros e s0 Hh Hm Ht. unfold ret. exists None, (Some e), s0.
    split; [reflexivity|]. split; [split; [discriminate | congruence]|].
    split; [exact Hh|]. split; [exact Hm|]. split; [discriminate | exact Ht]. }
  destruct (Enabled (config r)); [|apply Herr; auto].
  destruct (length (PrimaryDBs p) =? 0)%nat eqn:Hlen; [apply Herr; auto|].
  apply nonempty_of_length in Hlen.
  assert (Hres : forall (dbs : list Sys.DB) s0,
    dbs <> [] -> (forall x, In x dbs -> In x (PrimaryDBs p ++ ReplicaDBs p)) ->
    heap s0 = heap s -> lastMasterLSN s0 = lastMasterLSN s ->
    (trace s0 = trace s \/
     exists x, In x (ReplicaDBs p) /\
               trace s0 = (trace s ++ [QueryRowCall x replayQuery])%list) ->
    Q (bind (resolve dbs) (fun d => ret (Some d, None)) w s0)).
  { intros dbs s0 Hne Hsub Hh Hm Ht. unfold bind.
    rewrite resolve_nonempty by exact Hne. unfold ret.
    eexists _, _, _. split; [reflexivity|].
    split; [split; [discriminate | reflexivity]|].
    split; [exact Hh|]. split; [exact Hm|].
    split; [|exact Ht]. intros x [= <-]. apply Hsub, Resolve_In, Hne. }
  assert (Hprim : forall s0,
    heap s0 = heap s -> lastMasterLSN s0 = lastMasterLSN s ->
    (trace s0 = trace s \/
     exists x, In x (ReplicaDBs p) /\
               trace s0 = (trace s ++ [QueryRowCall x replayQuery])%list) ->
    Q (primary (PrimaryDBs p) w s0)).
  { intros s0. apply Hres; [exact Hlen|]. intros x Hx. apply in_or_app. left. exact Hx. }
  assert (Hsimple :
    Q ((if (0 <? length (ReplicaDBs p))%nat
        then bind (resolve (ReplicaDBs p)) (fun d => ret (Some d, None))
        else primary (PrimaryDBs p)) w s)).
  { destruct (0 <? length (ReplicaDBs p))%nat eqn:Hr; [|apply Hprim; auto].
    apply Hres; auto.
    - destruct (ReplicaDBs p); [discriminate | congruence].
    - intros x Hx. apply in_or_app. right. exact Hx. }
  unfold bind at 1.
  set (ld := match GetLSNContext ctx with Some ptr => _ | None => _ end).
  assert (Hld : exists tok, ld w s = (Ok tok, s)).
  { subst ld. destruct (GetLSNContext ctx); unfold bind, load, ret; eauto. }
  destruct Hld as (tok & ->).
  destruct (match tok with Some t => ForceMaster t | None => false end);
    [apply Hprim; auto|].
  destruct (QueryType_eqb qt QueryTypeWrite); [apply Hprim; auto|].
  destruct (cfgLevel (config r)); try (apply Hprim; auto; fail);
    try exact Hsimple.
  - destruct tok as [t|]; [|exact Hsimple].
    destruct (negb (LSN.IsZero (RequiredLSN t))); [|exact Hsimple].
    unfold bind at 1.
    destruct (shouldUseReplica_frame r p ctx (RequiredLSN t) w s Hp)
      as (b & d & s1 & -> & Hd & Hh & Hm & Ht).
    destruct b.
    + destruct (Hd eq_refl) as (x & -> & Hx). unfold ret.
      exists (Some x), None, s1. split; [reflexivity|].
      split; [split; [discriminate | reflexivity]|].
      split; [exact Hh|]. split; [exact Hm|]. split; [|exact Ht].
      intros y [= <-]. apply in_or_app. right. exact Hx.
    + destruct (FallbackToMaster (config r)); [apply Hprim | apply Herr]; assumption.
  - destruct (FallbackToMaster (config r)); [apply Hprim | apply Herr]; auto.
Qed.

(** X14.  When [RouteQuery] returns, whatever the router, the context and
    the query: an error comes with no handle; a handle is one of the
    provider's backends; tokens and the cached position are left as they
    were; and at most one thing was sent, the question for its replay
    position, to one replica. *)
Theorem RouteQuery_frame (r : CausalRouter) ctx qt w s
    (d : option Sys.DB) (e : option error) s' :
  RouteQuery r ctx qt w s = (Ok (d, e), s') ->
  (e <> None -> d = None) /\
  heap s' = heap s /\ lastMasterLSN s' = lastMasterLSN s /\
  match dbProvider r with
  | Some p =>
      (forall x, d = Some x -> In x (PrimaryDBs p ++ ReplicaDBs p)) /\
      (trace s' = trace s \/
       exists x, In x (ReplicaDBs p) /\
                 trace s' = (trace s ++ [QueryRowCall x replayQuery])%list)
  | None => d = None /\ trace s' = trace s
  end.
Proof.
  intros E. destruct (dbProvider r) as [p|] eqn:Hp.
  - destruct (RouteQuery_outcome r p ctx qt w s Hp)
      as (d0 & e0 & s0 & E0 & He & Hh & Hm & Hd & Ht).
    rewrite E in E0. injection E0 as <- <- <-.
    split; [|repeat split; assumption].
    intros Hne. destruct d as [x|]; [|reflexivity].
    exfalso. apply Hne, He. discriminate.
  - unfold RouteQuery in E. rewrite Hp in E.
    destruct (Enabled (config r)); unfold ret in E; injection E as <- <- <-;
      repeat split.
Qed.

(** ** A capture and the read after it *)

Lemma UpdateLSNAfterWrite_token (r : CausalRouter) ctx (d : Sys.DB) w s
    (ptr : addr) (L : LSN.LSN) :
  Enabled (config r) = true -> GetLSNContext ctx = Some ptr ->
  observed_position w (trace s) d = Some L ->
  exists s1,
    UpdateLSNAfterWrite r ctx (Some d) w s = (Ok (L, None), s1) /\
    lb s1 = lb s /\
    trace s1 = (trace s ++ [QueryRowCall d captureQuery])%list /\
    heap s1 =
      <[ptr := let t := default zeroLSNContext (heap s !! ptr) in
               mkLSNContext L (Level t) (ForceMaster t) (HasWriteOperation t)]> (heap s).
Proof.
  intros He Hctx Ho.
  destruct (getOrCreateChecker_run d (routerQueryTimeout r) w s)
    as (c & s1 & Hc & Hdc & Ht1 & Hh1 & Hl1 & Hm1).
  destruct (GetCurrentWALLSN_run c w s1) as (s2 & Ht2 & Hl2 & Hh2 & Hm2 & Hc2 & Hrun).
  rewrite Hdc, Ht1 in *. rewrite Ho in Hrun.
  unfold UpdateLSNAfterWrite. rewrite He.
  unfold bind at 1. rewrite Hc. cbv beta iota.
  unfold bind at 1. rewrite Hrun. cbv beta iota.
  rewrite Hctx. unfold bind, setLastMasterLSN, ret, load, store.
  cbn [lb heap checkers trace lastMasterLSN].
  eexists. split; [reflexivity|]. cbn [lb heap trace].
  split; [congruence|]. split; [exact Ht2|]. rewrite Hh2, Hh1. reflexivity.
Qed.

(** A read under a token that requires a position, at level
    ReadYourWrites. *)
Lemma RouteQuery_required (r : CausalRouter) (p : DBProvider) ctx qt w s
    (tok : LSNContext) :
  Enabled (config r) = true -> dbProvider r = Some p ->
  PrimaryDBs p <> [] -> ReplicaDBs p <> [] ->
  cfgLevel (config r) = ReadYourWrites -> qt <> QueryTypeWrite ->
  token s ctx = Some tok -> ForceMaster tok = false ->
  LSN.IsZero (RequiredLSN tok) = false -> LSN.wf (RequiredLSN tok) ->
  let sel := Resolve (lb s) (ReplicaDBs p) in
  let pri := Resolve (snd sel) (PrimaryDBs p) in
  fst (RouteQuery r ctx qt w s) =
    (if caught_up (observed_replay w (trace s) (fst sel)) (RequiredLSN tok)
     then Ok (Some (fst sel), None)
     else if FallbackToMaster (config r) then Ok (Some (fst pri), None)
     else Ok (None, Some (Errorf "no replica has caught up to required LSN"))).
Proof.
  intros He Hp Hpri Hrep Hlvl Hqt Htok Hfm Hz Hwf sel pri.
  rewrite (RouteQuery_enabled r p ctx qt w s He Hp Hpri). cbv zeta.
  rewrite Htok, Hfm, Hlvl, Hz.
  replace (QueryType_eqb qt QueryTypeWrite) with false
    by (destruct qt; try reflexivity; congruence).
  cbn [negb]. unfold bind at 1.
  destruct (shouldUseReplica_run r p ctx (RequiredLSN tok) w s Hp Hrep Hz Hwf)
    as (s1 & Ht & Hl & Hh & ->).
  fold sel.
  destruct (caught_up (observed_replay w (trace s) (fst sel)) (RequiredLSN tok)).
  - reflexivity.
  - destruct (FallbackToMaster (config r)); [|reflexivity].
    rewrite (primary_nonempty _ w s1 Hpri). rewrite Hl. reflexivity.
Qed.

(** X15.  After a capture on a context that carries a token which does not
    force the primary, of a position that is not 0/0, a read on the same
    context at level ReadYourWrites is held to the captured position:
    it goes to the replica the balancer picks when that replica has
    replayed up to the position, and else to a primary when
    [FallbackToMaster] is set and to no backend when it is not. *)
Theorem capture_then_read (r : CausalRouter) (p : DBProvider) ctx qt (d : Sys.DB)
    w s (ptr : addr) (tok : LSNContext) (L : LSN.LSN) :
  Enabled (config r) = true -> dbProvider r = Some p ->
  PrimaryDBs p <> [] -> ReplicaDBs p <> [] ->
  cfgLevel (config r) = ReadYourWrites -> qt <> QueryTypeWrite ->
  GetLSNContext ctx = Some ptr -> heap s !! ptr = Some tok ->
  ForceMaster tok = false ->
  observed_position w (trace s) d = Some L -> LSN.IsZero L = false ->
  exists s1,
    UpdateLSNAfterWrite r ctx (Some d) w s = (Ok (L, None), s1) /\
    trace s1 = (trace s ++ [QueryRowCall d captureQuery])%list /\
    let sel := Resolve (lb s) (ReplicaDBs p) in
    let pri := Resolve (snd sel) (PrimaryDBs p) in
    fst (RouteQuery r ctx qt w s1) =
      (if caught_up (observed_replay w (trace s1) (fst sel)) L
       then Ok (Some (fst sel), None)
       else if FallbackToMaster (config r) then Ok (Some (fst pri), None)
       else Ok (None, Some (Errorf "no replica has caught up to required LSN"))).
Proof.
  intros He Hp Hpri Hrep Hlvl Hqt Hctx Hheap Hfm Ho Hz.
  destruct (UpdateLSNAfterWrite_token r ctx d w s ptr L He Hctx Ho)
    as (s1 & Hup & Hl & Ht & Hh).
  exists s1. split; [exact Hup|]. split; [exact Ht|]. intros sel pri.
  rewrite Hheap in Hh. cbn [default from_option id] in Hh.
  assert (Hwf : LSN.wf L).
  { unfold observed_position in Ho. destruct (err _); [discriminate|].
    exact (ParseLSN_wf _ _ Ho). }
  assert (Htok : token s1 ctx =
                 Some (mkLSNContext L (Level tok) (ForceMaster tok) (HasWriteOperation tok))).
  { unfold token. rewrite Hctx, Hh, lookup_insert_eq. reflexivity. }
  pose proof (RouteQuery_required r p ctx qt w s1 _ He Hp Hpri Hrep Hlvl Hqt Htok
                Hfm Hz Hwf) as Hr.
  cbv zeta in Hr. rewrite Hl in Hr. exact Hr.
Qed.

End Facts.

Lemma master_position_is_cached_witness :
  Enabled (config router0) = true /\ dbProvider router0 = Some pools /\
  PrimaryDBs pools = [1%nat] /\
  fst (GetCurrentMasterLSN router0 Background lagging init) = Ok (lsn60, None) /\
  fst (bind (GetCurrentMasterLSN router0 Background)
         (fun _ => GetLastKnownMasterLSN router0) lagging init) = Ok lsn60.
Proof.
  split; [reflexivity|]. split; [reflexivity|]. split; [reflexivity|].
  destruct (master_position_is_cached router0 pools Background 1%nat [] lagging init
              eq_refl eq_refl eq_refl) as (s' & _ & _ & _ & Hrun).
  change (observed_position lagging (trace init) 1%nat) with (Some lsn60) in Hrun.
  destruct Hrun as [E Hk]. unfold bind. rewrite E. split; [reflexivity|].
  rewrite Hk. reflexivity.
Defined.

Lemma failed_capture_changes_nothing_witness :
  Enabled (config router0) = true /\
  observed_position replicaDown (trace (withToken tok60)) 1%nat = None /\
  token (snd (UpdateLSNAfterWrite router0 ctxTok (@Some Sys.DB 1%nat) replicaDown (withToken tok60)))
    ctxTok = Some tok60.
Proof.
  split; [reflexivity|]. split; [reflexivity|].
  destruct (failed_capture_changes_nothing router0 ctxTok 1%nat replicaDown
              (withToken tok60) eq_refl eq_refl) as (e & s' & E & _ & Htok & _).
  rewrite E. cbn [snd]. rewrite Htok. reflexivity.
Defined.

Lemma pinned_to_primary_witness :
  Enabled (config router0) = true /\ dbProvider router0 = Some pools /\
  PrimaryDBs pools <> [] /\
  ((exists t, token (withToken tokForced) ctxTok = Some t /\ ForceMaster t = true) \/
   cfgLevel (config router0) = StrongConsistency) /\
  fst (RouteQuery router0 ctxTok QueryTypeRead caughtUp (withToken tokForced))
    = Ok (Some 1%nat, None).
Proof.
  assert (Hne : PrimaryDBs pools <> []) by discriminate.
  assert (Hpin : (exists t, token (withToken tokForced) ctxTok = Some t /\
                            ForceMaster t = true) \/
                 cfgLevel (config router0) = StrongConsistency).
  { left. exists tokForced. split; reflexivity. }
  split; [reflexivity|]. split; [reflexivity|]. split; [exact Hne|]. split; [exact Hpin|].
  destruct (pinned_to_primary router0 pools ctxTok QueryTypeRead caughtUp
              (withToken tokForced) eq_refl eq_refl Hne Hpin) as [E _].
  rewrite E. reflexivity.
Defined.

Lemma unconstrained_read_takes_any_replica_witness :
  Enabled (config router0) = true /\ dbProvider router0 = Some pools /\
  PrimaryDBs pools <> [] /\ QueryTypeRead <> QueryTypeWrite /\
  ((cfgLevel (config router0) = ReadYourWrites /\
    idle (token (withToken tokIdle) ctxTok) true) \/
   (cfgLevel (config router0) = NoneCausalConsistency /\
    idle (token (withToken tokIdle) ctxTok) false)) /\
  RouteQuery router0 ctxTok QueryTypeRead lagging (withToken tokIdle)
    = (Ok (Some 2%nat, None), with_lb (withToken tokIdle) 1%nat).
Proof.
  assert (Hne : PrimaryDBs pools <> []) by discriminate.
  assert (Hqt : QueryTypeRead <> QueryTypeWrite) by discriminate.
  assert (Hl : (cfgLevel (config router0) = ReadYourWrites /\
                idle (token (withToken tokIdle) ctxTok) true) \/
               (cfgLevel (config router0) = NoneCausalConsistency /\
                idle (token (withToken tokIdle) ctxTok) false)).
  { left. split; [reflexivity|]. split; reflexivity. }
  split; [reflexivity|]. split; [reflexivity|]. split; [exact Hne|].
  split; [exact Hqt|]. split; [exact Hl|].
  exact (proj1 (unconstrained_read_takes_any_replica router0 pools ctxTok QueryTypeRead
                  lagging (withToken tokIdle) eq_refl eq_refl Hne Hqt Hl)).
Defined.

Lemma capture_then_read_witness :
  Enabled (config router0) = true /\ dbProvider router0 = Some pools /\
  PrimaryDBs pools <> [] /\ ReplicaDBs pools <> [] /\
  cfgLevel (config router0) = ReadYourWrites /\ QueryTypeRead <> QueryTypeWrite /\
  GetLSNContext ctxTok = Some 0%nat /\ heap (withToken tokIdle) !! 0%nat = Some tokIdle /\
  ForceMaster tokIdle = false /\
  observed_position lagging (trace (withToken tokIdle)) 1%nat = Some lsn60 /\
  LSN.IsZero lsn60 = false /\
  fst (bind (UpdateLSNAfterWrite router0 ctxTok (@Some Sys.DB 1%nat))
         (fun _ => RouteQuery router0 ctxTok QueryTypeRead) lagging (withToken tokIdle))
    = Ok (Some 1%nat, None).
Proof.
  assert (Hp : PrimaryDBs pools <> []) by discriminate.
  assert (Hr : ReplicaDBs pools <> []) by discriminate.
  assert (Hqt : QueryTypeRead <> QueryTypeWrite) by discriminate.
  assert (Hh : heap (withToken tokIdle) !! 0%nat = Some tokIdle) by reflexivity.
  repeat (split; [first [reflexivity | assumption]|]).
  destruct (capture_then_read router0 pools ctxTok QueryTypeRead 1%nat lagging
              (withToken tokIdle) 0%nat tokIdle lsn60
              eq_refl eq_refl Hp Hr eq_refl Hqt eq_refl Hh eq_refl eq_refl eq_refl)
    as (s1 & E & Ht & Hread).
  unfold bind. rewrite E. cbv zeta in Hread. rewrite Hread, Ht. reflexivity.
Defined.

Lemma RouteQuery_frame_witness :
  RouteQuery router0 ctxTok QueryTypeRead lagging (withToken tok60) =
    (Ok (Some 1%nat, None),
     snd (RouteQuery router0 ctxTok QueryTypeRead lagging (withToken tok60))) /\
  heap (snd (RouteQuery router0 ctxTok QueryTypeRead lagging (withToken tok60)))
    = heap (withToken tok60) /\
  In 1%nat (PrimaryDBs pools ++ ReplicaDBs pools).
Proof.
  assert (E : RouteQuery router0 ctxTok QueryTypeRead lagging (withToken tok60) =
    (Ok (Some 1%nat, None),
     snd (RouteQuery router0 ctxTok QueryTypeRead lagging (withToken tok60))))
    by (vm_compute; reflexivity).
  split; [exact E|].
  destruct (RouteQuery_frame router0 ctxTok QueryTypeRead lagging (withToken tok60)
              (Some 1%nat) None _ E) as (_ & Hh & _ & Hd & _).
  split; [exact Hh | exact (Hd 1%nat eq_refl)].
Defined.

End RoutingFacts.

(* ===================================================================== *)
(** * Properties of the options *)
(* ===================================================================== *)

Module OptionsFacts.
Import Sys QueryKind Router Facade Options RouterFacts FacadeFacts Example.

Lemma applied_snoc (opts : list OptionFunc) (o : OptionFunc) :
  applied (opts ++ [o]) = o (applied opts).
Proof. unfold applied. rewrite fold_left_app. reflexivity. Qed.

(** X16.  Each of the options that tune causal consistency (the level, the
    query timeout, the fallback) also switches it on: a facade built with
    one of them last has a causal router, enabled, over the facade's own
    pools, whatever configuration came before, and its adapters run with
    a timeout of three seconds, whatever timeout was asked for.  With the
    pools alone the facade has no router. *)
Theorem tuning_switches_causal_consistency_on (opts : list OptionFunc)
    (tune : OptionFunc) :
  optPrimaryDBs (applied opts) <> [] -> tuning tune ->
  (exists db r,
     Options.New (opts ++ [tune]) = Ok db /\
     IsCausalConsistencyEnabled db = true /\
     queryRouter db = Some (Causal r) /\
     Enabled (config r) = true /\ config r = orDefault (tune (applied opts)) /\
     dbProvider r = Some (provider db) /\
     routerQueryTimeout r = (3 * second)%Z /\
     primaries db = optPrimaryDBs (applied opts) /\
     replicas db = optReplicaDBs (applied opts)) /\
  (forall ps rs, ps <> [] ->
     exists db, Options.New [WithPrimaryDBs ps; WithReplicaDBs rs] = Ok db /\
                IsCausalConsistencyEnabled db = false /\ queryRouter db = None).
Proof.
  intros Hne Htune. split.
  - unfold Options.New. rewrite applied_snoc. unfold Facade.New.
    assert (Hp : optPrimaryDBs (tune (applied opts)) = optPrimaryDBs (applied opts))
      by (destruct Htune; reflexivity).
    assert (Hr : optReplicaDBs (tune (applied opts)) = optReplicaDBs (applied opts))
      by (destruct Htune; reflexivity).
    assert (Hc : exists c, CCConfig (tune (applied opts)) = Some c /\ Enabled c = true)
      by (destruct Htune; eexists; split; reflexivity).
    destruct Hc as (c & Hc & He). rewrite Hp.
    destruct (optPrimaryDBs (applied opts)) as [|x xs] eqn:E; [congruence|].
    rewrite Hc, He. eexists. eexists. split; [reflexivity|].
    cbn. unfold orDefault. rewrite Hc, Hr. repeat split; try reflexivity. exact He.
  - intros ps rs Hps. destruct ps as [|x xs]; [congruence|].
    eexists. split; [reflexivity|]. split; reflexivity.
Qed.

Lemma tuning_switches_causal_consistency_on_witness :
  optPrimaryDBs (applied [WithPrimaryDBs [1%nat]; WithReplicaDBs [2%nat]]) <> [] /\
  tuning (WithMasterFallback false) /\
  exists db,
    Options.New [WithPrimaryDBs [1%nat]; WithReplicaDBs [2%nat]; WithMasterFallback false]
      = Ok db /\
    IsCausalConsistencyEnabled db = true.
Proof.
  assert (Hne : optPrimaryDBs (applied [WithPrimaryDBs [1%nat]; WithReplicaDBs [2%nat]])
                <> []) by discriminate.
  split; [exact Hne|]. split; [constructor|].
  destruct (tuning_switches_causal_consistency_on
              [WithPrimaryDBs [1%nat]; WithReplicaDBs [2%nat]]
              (WithMasterFallback false) Hne (tune_fallback false))
    as [(db & r & E & Hen & _) _].
  exists db. split; [exact E | exact Hen].
Defined.

End OptionsFacts.

(* ===================================================================== *)
(** * Further properties of the facade *)
(* ===================================================================== *)

Module FacadeMore.
Import Sys QueryKind Router Facade Options Notions.
Import RouterFacts FacadeFacts RoutingFacts Example ExampleMore.

Section Facts.
Context {LB : Type} `{LoadBalancer LB}.
Variable isDBConnectionError : option error -> bool.

Implicit Types (s : State LB) (w : World) (db : Facade.DB).

Lemma ReadOnly_run db w s :
  primaries db <> [] ->
  let pool := match replicas db with [] => primaries db | _ => replicas db end in
  ReadOnly db w s =
    (Ok (fst (Resolve (lb s) pool)), with_lb s (snd (Resolve (lb s) pool))) /\
  In (fst (Resolve (lb s) pool)) pool.
Proof.
  intros Hne pool. unfold ReadOnly. subst pool.
  destruct (replicas db) as [|x xs] eqn:E.
  - cbn [length Nat.eqb]. split; [apply resolve_nonempty, Hne | apply Resolve_In, Hne].
  - cbn [length Nat.eqb].
    split; [apply resolve_nonempty; discriminate | apply Resolve_In; discriminate].
Qed.

(** X17.  The facade does not pass the router's refusal on.  With
    [FallbackToMaster] off, a read whose replica has not replayed up to
    the required position is refused by the router, and [ReadWithLSN] then
    takes the next replica from the balancer, without a check: the read is
    served, possibly from a replica that lags. *)
Theorem refused_read_is_served_by_a_replica db (r : CausalRouter) ctx w s
    (tok : LSNContext) :
  queryRouter db = Some (Causal r) ->
  Enabled (config r) = true -> dbProvider r = Some (provider db) ->
  primaries db <> [] -> replicas db <> [] ->
  cfgLevel (config r) = ReadYourWrites -> FallbackToMaster (config r) = false ->
  token s ctx = Some tok -> ForceMaster tok = false ->
  LSN.IsZero (RequiredLSN tok) = false -> LSN.wf (RequiredLSN tok) ->
  let sel := Resolve (lb s) (replicas db) in
  caught_up (observed_replay w (trace s) (fst sel)) (RequiredLSN tok) = false ->
  let served := Resolve (snd sel) (replicas db) in
  exists s',
    fst (RouteQuery r ctx QueryTypeRead w s) =
      Ok (None, Some (Errorf "no replica has caught up to required LSN")) /\
    ReadWithLSN db ctx w s = (Ok (Some (fst served)), s') /\
    In (fst served) (replicas db) /\
    trace s' = (trace s ++ [QueryRowCall (fst sel) replayQuery])%list.
Proof.
  intros Hqr He Hp Hpri Hrep Hlvl Hfb Htok Hfm Hz Hwf sel Hlag served.
  assert (Hrq : exists s1,
    RouteQuery r ctx QueryTypeRead w s =
      (Ok (None, Some (Errorf "no replica has caught up to required LSN")), s1) /\
    lb s1 = snd sel /\
    trace s1 = (trace s ++ [QueryRowCall (fst sel) replayQuery])%list).
  { rewrite (RouteQuery_enabled r (provider db) ctx QueryTypeRead w s He Hp Hpri).
    cbv zeta. rewrite Htok, Hfm, Hlvl, Hz, Hfb. cbn [QueryType_eqb negb].
    unfold bind at 1.
    destruct (shouldUseReplica_run r (provider db) ctx (RequiredLSN tok) w s Hp Hrep Hz Hwf)
      as (s1 & Ht & Hl & Hh & ->).
    cbn [ReplicaDBs provider]. fold sel. rewrite Hlag.
    exists s1. split; [reflexivity|]. split; [exact Hl | exact Ht]. }
  destruct Hrq as (s1 & Hrq & Hl & Ht).
  destruct (replicas db) as [|x xs] eqn:Er; [congruence|].
  exists (with_lb s1 (snd served)).
  split; [rewrite Hrq; reflexivity|].
  split; [|split; [apply Resolve_In; discriminate | exact Ht]].
  unfold ReadWithLSN. rewrite Hqr. cbn [QueryRouter_RouteQuery].
  unfold bind at 1. rewrite Hrq. cbv beta iota.
  unfold bind. unfold ReadOnly. rewrite Er. cbn [length Nat.eqb].
  rewrite resolve_nonempty by discriminate. rewrite Hl. reflexivity.
Qed.

(** The choice of a backend for a statement. *)
Lemma selectDB_frame db ctx (writeFlag : bool) w s :
  primaries db <> [] -> own_router db ->
  exists d s',
    selectDB db ctx writeFlag w s = (Ok (Some d), s') /\
    In d (primaries db ++ replicas db) /\
    (writeFlag = true -> In d (primaries db)) /\
    heap s' = heap s /\ lastMasterLSN s' = lastMasterLSN s /\
    (trace s' = trace s \/
     exists x, In x (replicas db) /\ writeFlag = false /\
               trace s' = (trace s ++ [QueryRowCall x replayQuery])%list).
Proof.
  intros Hne Hown. unfold selectDB.
  assert (Hro : forall s0,
    heap s0 = heap s -> lastMasterLSN s0 = lastMasterLSN s ->
    (trace s0 = trace s \/
     exists x, In x (replicas db) /\ writeFlag = false /\
               trace s0 = (trace s ++ [QueryRowCall x replayQuery])%list) ->
    writeFlag = false ->
    exists d s',
      bind (ReadOnly db) (fun d => ret (Some d)) w s0 = (Ok (Some d), s') /\
      In d (primaries db ++ replicas db) /\
      (writeFlag = true -> In d (primaries db)) /\
      heap s' = heap s /\ lastMasterLSN s' = lastMasterLSN s /\
      (trace s' = trace s \/
       exists x, In x (replicas db) /\ writeFlag = false /\
                 trace s' = (trace s ++ [QueryRowCall x replayQuery])%list)).
  { intros s0 Hh Hm Ht Hw. unfold bind.
    destruct (ReadOnly_run db w s0 Hne) as [-> Hin]. unfold ret.
    eexists. eexists. split; [reflexivity|].
    split; [|split; [congruence | repeat split; assumption]].
    apply in_or_app. destruct (replicas db); [left | right]; exact Hin. }
  destruct writeFlag.
  { unfold bind. rewrite ReadWrite_run by exact Hne. unfold ret.
    eexists. eexists. split; [reflexivity|].
    pose proof (Resolve_In (lb s) _ Hne) as Hin.
    split; [apply in_or_app; left; exact Hin|].
    split; [intros _; exact Hin|]. repeat split. left. reflexivity. }
  unfold own_router in Hown.
  destruct (queryRouter db) as [[r|r]|] eqn:Eqr; [| contradiction | apply Hro; auto].
  unfold ReadWithLSN. rewrite Eqr. cbn [QueryRouter_RouteQuery].
  unfold bind at 1.
  destruct (RouteQuery_outcome r (provider db) ctx QueryTypeRead w s Hown)
    as (d & e & s1 & -> & Hde & Hh & Hm & Hd & Ht).
  cbn [PrimaryDBs ReplicaDBs provider] in *.
  assert (Ht' : trace s1 = trace s \/
     exists x, In x (replicas db) /\ false = false /\
               trace s1 = (trace s ++ [QueryRowCall x replayQuery])%list).
  { destruct Ht as [Ht | (x & Hx & Ht)]; [left; exact Ht|].
    right. exists x. repeat split; assumption. }
  destruct e as [e|]; [apply Hro; auto|].
  destruct d as [d|]; [|exfalso; apply (proj1 Hde); reflexivity].
  unfold ret. exists d, s1. split; [reflexivity|].
  split; [apply Hd; reflexivity|]. split; [discriminate|].
  repeat split; assumption.
Qed.

(** What [QueryContext] comes to, the pools holding handles that are not
    nil. *)
Lemma QueryContext_outcome db ctx (query : string) w s :
  primaries db <> [] -> own_router db ->
  exists a s' pre d0,
    QueryContext isDBConnectionError db ctx query w s = (Ok a, s') /\
    heap s' = heap s /\ lastMasterLSN s' = lastMasterLSN s /\
    (pre = [] \/ exists x, In x (replicas db) /\ pre = [QueryRowCall x replayQuery]) /\
    In d0 (primaries db ++ replicas db) /\
    (queryTypeChecker db query = QueryTypeWrite -> pre = [] /\ In d0 (primaries db)) /\
    (trace s' = (trace s ++ pre ++ [QueryCall d0 query])%list \/
     exists d1, In d1 (primaries db) /\
                queryTypeChecker db query <> QueryTypeWrite /\
                trace s' = (trace s ++ pre ++ [QueryCall d0 query; QueryCall d1 query])%list).
Proof.
  intros Hne Hown. unfold QueryContext. cbv zeta.
  set (writeFlag := QueryType_eqb (queryTypeChecker db query) QueryTypeWrite).
  assert (Hwf : queryTypeChecker db query = QueryTypeWrite <-> writeFlag = true).
  { subst writeFlag. destruct (queryTypeChecker db query); split;
      (reflexivity || discriminate). }
  destruct (selectDB_frame db ctx writeFlag w s Hne Hown)
    as (d0 & s1 & Hsel & Hin & Hw & Hh & Hm & Ht).
  assert (Hpre : exists pre,
    trace s1 = (trace s ++ pre)%list /\
    (pre = [] \/ exists x, In x (replicas db) /\ pre = [QueryRowCall x replayQuery]) /\
    (writeFlag = true -> pre = [])).
  { destruct Ht as [Ht | (x & Hx & Hf & Ht)].
    - exists []. rewrite app_nil_r. split; [exact Ht|]. split; [left|]; reflexivity.
    - exists [QueryRowCall x replayQuery]. split; [exact Ht|].
      split; [right; exists x; split; [exact Hx | reflexivity] | congruence]. }
  destruct Hpre as (pre & Hts & Hpre & Hprew).
  unfold bind at 1. rewrite Hsel. unfold bind at 1. cbn [on].
  unfold send at 1. cbv beta iota.
  destruct (isDBConnectionError _ && negb writeFlag) eqn:Eretry.
  - apply andb_true_iff in Eretry as [_ Hnw]. apply negb_true_iff in Hnw.
    unfold bind. rewrite ReadWrite_run by exact Hne. unfold send.
    cbn [lb heap lastMasterLSN checkers trace with_lb].
    eexists. eexists. exists pre, d0. split; [reflexivity|].
    cbn [heap lastMasterLSN trace].
    split; [exact Hh|]. split; [exact Hm|]. split; [exact Hpre|]. split; [exact Hin|].
    split; [intros Hq; apply Hwf in Hq; congruence|].
    right. eexists. split; [apply Resolve_In, Hne|].
    split; [intros Hq; apply Hwf in Hq; congruence|].
    rewrite Hts, <- !app_assoc. reflexivity.
  - unfold ret. eexists. eexists. exists pre, d0. split; [reflexivity|].
    cbn [heap lastMasterLSN trace].
    split; [exact Hh|]. split; [exact Hm|]. split; [exact Hpre|]. split; [exact Hin|].
    split; [intros Hq; apply Hwf in Hq; split; [apply Hprew | apply Hw]; exact Hq|].
    left. rewrite Hts, <- app_assoc. reflexivity.
Qed.

(** X18.  What [QueryContext] has sent when it returns.  On a facade with a
    primary, the router asked at most one replica for its replay position,
    then the statement ran on one backend of the facade's pools (a primary
    for a write), and then at most once more, on a primary; nothing else
    was sent, and no token was changed: no position is captured, not even
    after a write that returns rows. *)
Theorem QueryContext_frame db ctx (query : string) w s (a : Answer) s' :
  primaries db <> [] -> own_router db ->
  QueryContext isDBConnectionError db ctx query w s = (Ok a, s') ->
  heap s' = heap s /\ lastMasterLSN s' = lastMasterLSN s /\
  exists pre d0,
    (pre = [] \/ exists x, In x (replicas db) /\ pre = [QueryRowCall x replayQuery]) /\
    In d0 (primaries db ++ replicas db) /\
    (queryTypeChecker db query = QueryTypeWrite -> pre = [] /\ In d0 (primaries db)) /\
    (trace s' = (trace s ++ pre ++ [QueryCall d0 query])%list \/
     exists d1, In d1 (primaries db) /\
                queryTypeChecker db query <> QueryTypeWrite /\
                trace s' = (trace s ++ pre ++ [QueryCall d0 query; QueryCall d1 query])%list).
Proof.
  intros Hne Hown E.
  destruct (QueryContext_outcome db ctx query w s Hne Hown)
    as (a0 & s0 & pre & d0 & E0 & Hh & Hm & Hpre & Hin & Hw & Ht).
  rewrite E in E0. injection E0 as <- <-.
  split; [exact Hh|]. split; [exact Hm|].
  exists pre, d0. repeat split; try assumption; apply Hw; assumption.
Qed.

End Facts.

Lemma refused_read_is_served_by_a_replica_witness :
  queryRouter strictDB = Some (Causal strictRouter) /\
  FallbackToMaster (config strictRouter) = false /\
  token (withToken tok60) ctxTok = Some tok60 /\
  LSN.wf (RequiredLSN tok60) /\
  caught_up (observed_replay lagging (trace (withToken tok60)) 2%nat) lsn60 = false /\
  fst (RouteQuery strictRouter ctxTok QueryTypeRead lagging (withToken tok60)) =
    Ok (None, Some (Errorf "no replica has caught up to required LSN")) /\
  fst (ReadWithLSN strictDB ctxTok lagging (withToken tok60)) = Ok (Some 2%nat).
Proof.
  assert (Hp : primaries strictDB <> []) by discriminate.
  assert (Hr : replicas strictDB <> []) by discriminate.
  assert (Hwf : LSN.wf (RequiredLSN tok60)) by (split; reflexivity).
  assert (Hlag : caught_up (observed_replay lagging (trace (withToken tok60))
                   (fst (Resolve (lb (withToken tok60)) (replicas strictDB))))
                   (RequiredLSN tok60) = false) by reflexivity.
  split; [reflexivity|]. split; [reflexivity|]. split; [reflexivity|].
  split; [exact Hwf|]. split; [exact Hlag|].
  destruct (refused_read_is_served_by_a_replica strictDB strictRouter ctxTok lagging
              (withToken tok60) tok60 eq_refl eq_refl eq_refl Hp Hr eq_refl eq_refl
              eq_refl eq_refl eq_refl Hwf Hlag) as (s' & Hrq & E & _).
  split; [exact Hrq|]. rewrite E. reflexivity.
Defined.

Lemma QueryContext_frame_witness :
  primaries db0 <> [] /\ own_router db0 /\
  QueryContext isConn db0 ctxTok selectStmt lagging (withToken tok60) =
    (Ok (mkAnswer None ""),
     snd (QueryContext isConn db0 ctxTok selectStmt lagging (withToken tok60))) /\
  heap (snd (QueryContext isConn db0 ctxTok selectStmt lagging (withToken tok60)))
    = heap (withToken tok60).
Proof.
  assert (Hp : primaries db0 <> []) by discriminate.
  assert (Ho : own_router db0) by reflexivity.
  assert (E : QueryContext isConn db0 ctxTok selectStmt lagging (withToken tok60) =
    (Ok (mkAnswer None ""),
     snd (QueryContext isConn db0 ctxTok selectStmt lagging (withToken tok60))))
    by (vm_compute; reflexivity).
  split; [exact Hp|]. split; [exact Ho|]. split; [exact E|].
  exact (proj1 (QueryContext_frame isConn db0 ctxTok selectStmt lagging (withToken tok60)
                  _ _ Hp Ho E)).
Defined.

End FacadeMore.

(* ===================================================================== *)
(** * Further properties of the HTTP transport *)
(* ===================================================================== *)

Module MiddlewareMore.
Import Sys QueryKind Router Facade Middleware RouterFacts FacadeFacts MiddlewareFacts.
Import LSNArith RoutingFacts Example ExampleMore.

Section Facts.
Context {LB : Type} `{LoadBalancer LB}.

Implicit Types (s : State LB) (w : World).

(** X19.  For a request whose LSN cookie parses, the middleware hands the
    request on with a context that carries a new token whose required LSN
    is the cookie's (level and flags at their zero values), leaving every
    other object as it was.  A read the handler then routes at level
    ReadYourWrites is held to that position. *)
Theorem usable_cookie_sets_requirement (m : HTTPMiddleware) (next : Handler)
    (hw : Header) (r : Request) w s (v : string) (L : LSN.LSN) :
  Request_Cookie r (cookieName m) = Some v -> LSN.ParseLSN v = Some L ->
  let p := fresh (dom (heap s)) in
  let t := mkLSNContext L NoneCausalConsistency false false in
  let ctx' := WithLSNContext (reqContext r) (Some p) in
  exists s',
    Middleware m next hw r w s = next hw (WithContext r ctx') w s' /\
    token s' ctx' = Some t /\
    (forall q x, heap s !! q = Some x -> heap s' !! q = Some x) /\
    trace s' = trace s /\ lb s' = lb s /\
    forall (cr : CausalRouter) (pp : DBProvider) qt w',
      Enabled (config cr) = true -> dbProvider cr = Some pp ->
      PrimaryDBs pp <> [] -> ReplicaDBs pp <> [] ->
      cfgLevel (config cr) = ReadYourWrites -> qt <> QueryTypeWrite ->
      LSN.IsZero L = false ->
      let sel := Resolve (lb s) (ReplicaDBs pp) in
      let pri := Resolve (snd sel) (PrimaryDBs pp) in
      fst (RouteQuery cr ctx' qt w' s') =
        (if caught_up (observed_replay w' (trace s) (fst sel)) L
         then Ok (Some (fst sel), None)
         else if FallbackToMaster (config cr) then Ok (Some (fst pri), None)
         else Ok (None, Some (Errorf "no replica has caught up to required LSN"))).
Proof.
  intros Hc Hparse p t ctx'.
  assert (Hv : negb (String.eqb v "") = true).
  { destruct v; [discriminate Hparse | reflexivity]. }
  exists (mkState (lb s) (<[p := t]> (<[p := zeroLSNContext]> (heap s)))
            (lastMasterLSN s) (checkers s) (trace s)).
  assert (Htok : token
    (mkState (lb s) (<[p := t]> (<[p := zeroLSNContext]> (heap s)))
       (lastMasterLSN s) (checkers s) (trace s)) ctx' = Some t).
  { unfold token. change (GetLSNContext ctx') with (Some p).
    cbv beta iota. cbn [heap]. rewrite lookup_insert_eq. reflexivity. }
  split; [|split; [exact Htok|split; [|split; [reflexivity|split; [reflexivity|]]]]].
  - unfold Middleware, GetLSNFromCookie. rewrite Hc, Hv, Hparse.
    unfold bind, alloc, store, ret. reflexivity.
  - intros q x Hq. cbn [heap].
    assert (Hne : p <> q).
    { intros <-. apply (is_fresh (dom (heap s))).
      apply elem_of_dom. exists x. exact Hq. }
    rewrite !lookup_insert_ne by exact Hne. exact Hq.
  - intros cr pp qt w' He Hp Hpri Hrep Hlvl Hqt Hz sel pri.
    pose proof (RouteQuery_required cr pp ctx' qt w' _ t He Hp Hpri Hrep Hlvl Hqt Htok
                  eq_refl Hz (ParseLSN_wf _ _ Hparse)) as Hr.
    exact Hr.
Qed.

(** X20.  The cookie [SetLSNCookie] writes for an LSN carries it back: a
    request that presents the value under the cookie's name gives the same
    LSN to [GetLSNFromCookie]. *)
Theorem cookie_carries_the_lsn (hw : Header) (lsn : LSN.LSN) (name : string)
    (maxAge : Z) (secure : bool) :
  LSN.wf lsn -> LSN.IsZero lsn = false ->
  isCookieNameValid (if String.eqb name "" then "pg_min_lsn" else name) = true ->
  exists c,
    SetLSNCookie hw lsn name maxAge secure = (hw ++ [SetCookieLine c])%list /\
    Name c = (if String.eqb name "" then "pg_min_lsn" else name) /\
    forall r : Request,
      Request_Cookie r (Name c) = Some (Value c) ->
      GetLSNFromCookie r (Name c) = (lsn, true).
Proof.
  intros Hwf Hz Hname. unfold SetLSNCookie, SetCookie. rewrite Hz.
  cbv zeta. cbn [Name]. rewrite Hname.
  eexists. split; [reflexivity|]. cbn [Name Value]. split; [reflexivity|].
  intros r Hr. unfold GetLSNFromCookie. rewrite Hr.
  rewrite (ParseLSN_String lsn Hwf).
  destruct (LSN.String lsn) eqn:E; [|reflexivity].
  exfalso. pose proof (ParseLSN_String lsn Hwf) as Hp. rewrite E in Hp. discriminate.
Qed.

End Facts.

Lemma usable_cookie_sets_requirement_witness :
  Request_Cookie goodCookie (cookieName mw0) = Some "0/3000060" /\
  LSN.ParseLSN "0/3000060" = Some lsn60 /\
  token (snd (Middleware mw0 probe [] goodCookie lagging init))
    (WithLSNContext Background (Some 0%nat)) =
    Some (mkLSNContext lsn60 NoneCausalConsistency false false) /\
  fst (Middleware mw0 probe [] goodCookie lagging init) = Ok [Line "X-Token" "attached"].
Proof.
  split; [reflexivity|]. split; [reflexivity|].
  destruct (usable_cookie_sets_requirement mw0 probe [] goodCookie lagging init
              "0/3000060" lsn60 eq_refl eq_refl) as (s' & E & Htok & _).
  rewrite E. split; [exact Htok | reflexivity].
Defined.

Lemma cookie_carries_the_lsn_witness :
  LSN.wf lsn60 /\ LSN.IsZero lsn60 = false /\
  isCookieNameValid (if String.eqb "" "" then "pg_min_lsn" else "") = true /\
  SetLSNCookie [] lsn60 "" 0 false =
    [SetCookieLine (mkCookie "pg_min_lsn" "0/3000060" 300 true false "/" SameSiteLaxMode)] /\
  GetLSNFromCookie goodCookie "pg_min_lsn" = (lsn60, true).
Proof.
  assert (Hwf : LSN.wf lsn60) by (split; reflexivity).
  assert (Hn : isCookieNameValid (if String.eqb "" "" then "pg_min_lsn" else "") = true)
    by reflexivity.
  split; [exact Hwf|]. split; [reflexivity|]. split; [exact Hn|].
  destruct (cookie_carries_the_lsn [] lsn60 "" 0 false Hwf eq_refl Hn)
    as (c & E & Hname & Hback).
  assert (Ec : c = mkCookie "pg_min_lsn" "0/3000060" 300 true false "/" SameSiteLaxMode).
  { assert (E0 : SetLSNCookie [] lsn60 "" 0 false =
      [SetCookieLine (mkCookie "pg_min_lsn" "0/3000060" 300 true false "/" SameSiteLaxMode)])
      by reflexivity.
    rewrite E0 in E. injection E as <-. reflexivity. }
  subst c. split; [exact E|]. apply (Hback goodCookie). reflexivity.
Defined.

End MiddlewareMore.

(* ===================================================================== *)
(** * Properties of the round-robin router *)
(* ===================================================================== *)

Module RoutersFacts.
Import Sys QueryKind Router Routers ExampleMore.

Lemma int_small (z : Z) : (- 2 ^ 63 <= z < 2 ^ 63)%Z -> int z = z.
Proof.
  intros Hz. unfold int. rewrite Z.mod_small by lia. lia.
Qed.

Lemma at_index_nth (dbs : list DB) (k : nat) :
  (k < length dbs)%nat -> at_index dbs (Z.of_nat k) = Ok (nth k dbs 0%nat).
Proof.
  intros Hk. unfold at_index.
  destruct (Z.leb_spec 0 (Z.of_nat k)); [|lia].
  destruct (Z.ltb_spec (Z.of_nat k) (Z.of_nat (length dbs))); [|lia].
  cbn [andb]. rewrite Nat2Z.id.
  rewrite (nth_error_nth' dbs 0%nat Hk). reflexivity.
Qed.

(** One read on a router with replicas, its counter in range. *)
Lemma read_step (r : RoundRobinRouter) (p : DBProvider) ctx (i : nat) :
  rrProvider r = Some p -> PrimaryDBs p <> [] -> ReplicaDBs p <> [] ->
  replicasIndex r = Z.of_nat i -> (Z.of_nat i + 1 < 2 ^ 63)%Z ->
  RoundRobin_RouteQuery r ctx QueryTypeRead =
    (Ok (Some (nth (i mod length (ReplicaDBs p)) (ReplicaDBs p) 0%nat), None),
     mkRoundRobinRouter (rrProvider r) (primariesIndex r) (Z.of_nat (S i))).
Proof.
  intros Hp Hpri Hrep Hi Hb. unfold RoundRobin_RouteQuery. rewrite Hp. cbv zeta.
  destruct (PrimaryDBs p) as [|x xs] eqn:Ep; [congruence|]. cbn [length Nat.eqb].
  destruct (ReplicaDBs p) as [|y ys] eqn:Er; [congruence|].
  set (n := length (y :: ys)).
  assert (Hn : (0 < n)%nat) by (subst n; cbn [length]; lia).
  replace (0 <? n)%nat with true by (symmetry; apply Nat.ltb_lt; exact Hn).
  rewrite Hi. rewrite Z.rem_mod_nonneg by lia.
  rewrite <- Nat2Z.inj_mod.
  rewrite at_index_nth by (apply Nat.mod_upper_bound; lia).
  rewrite int_small by lia. rewrite Nat2Z.inj_succ. unfold Z.succ. reflexivity.
Qed.

(** The handles of [m] reads in a row, from the counter [i]. *)
Lemma reads_in_a_row (p : DBProvider) ctx (m : nat) : forall (r : RoundRobinRouter) (i : nat),
  rrProvider r = Some p -> PrimaryDBs p <> [] -> ReplicaDBs p <> [] ->
  replicasIndex r = Z.of_nat i -> (Z.of_nat i + Z.of_nat m < 2 ^ 63)%Z ->
  routed r ctx (repeat QueryTypeRead m) =
    (map (fun j => nth ((i + j) mod length (ReplicaDBs p)) (ReplicaDBs p) 0%nat) (seq 0 m),
     mkRoundRobinRouter (rrProvider r) (primariesIndex r) (Z.of_nat (i + m))).
Proof.
  induction m as [|m IH]; intros r i Hp Hpri Hrep Hi Hb.
  - cbn [repeat routed seq map]. rewrite Nat.add_0_r, <- Hi. destruct r; reflexivity.
  - cbn [repeat routed].
    rewrite (read_step r p ctx i Hp Hpri Hrep Hi) by lia.
    rewrite (IH _ (S i)); [|exact Hp|exact Hpri|exact Hrep|reflexivity|lia].
    cbn [rrProvider primariesIndex seq map]. rewrite Nat.add_0_r.
    f_equal; [|f_equal; f_equal; lia].
    f_equal. rewrite <- seq_shift, map_map.
    apply map_ext. intros j. f_equal. f_equal. lia.
Qed.

(** Reading a list around, from the position [k]. *)
Lemma rotation (l : list DB) (k : nat) :
  (k < length l)%nat ->
  map (fun j => nth ((k + j) mod length l) l 0%nat) (seq 0 (length l)) =
  (skipn k l ++ firstn k l)%list.
Proof.
  intros Hk. apply (nth_ext _ _ 0%nat 0%nat).
  - rewrite length_map, length_seq, length_app, length_skipn, length_firstn. lia.
  - intros j Hj. rewrite length_map, length_seq in Hj.
    rewrite (nth_indep _ 0%nat (nth ((k + 0) mod length l) l 0%nat))
      by (rewrite length_map, length_seq; exact Hj).
    rewrite (map_nth (fun j => nth ((k + j) mod length l) l 0%nat)).
    rewrite seq_nth by exact Hj. cbn [Nat.add].
    destruct (Nat.lt_ge_cases (k + j) (length l)) as [Hlt | Hge].
    + rewrite Nat.mod_small by exact Hlt.
      rewrite app_nth1 by (rewrite length_skipn; lia).
      rewrite nth_skipn. reflexivity.
    + assert (Hm : ((k + j) mod length l = k + j - length l)%nat).
      { replace (k + j)%nat with ((k + j - length l) + 1 * length l)%nat at 1 by lia.
        rewrite Nat.Div0.mod_add. apply Nat.mod_small. lia. }
      rewrite Hm.
      rewrite app_nth2 by (rewrite length_skipn; lia).
      rewrite length_skipn. rewrite nth_firstn.
      replace (j - (length l - k))%nat with (k + j - length l)%nat by lia.
      destruct (Nat.ltb_spec (k + j - length l) k); [reflexivity | lia].
Qed.

(** X21.  The round-robin router is fair to the replicas: as many reads in
    a row as there are replicas get each replica once, in the order of the
    list, starting where the counter stands; writes in between would not
    move that counter.  (The counter must not run past the largest [int].) *)
Theorem reads_visit_every_replica (r : RoundRobinRouter) (p : DBProvider) ctx (i : nat) :
  rrProvider r = Some p -> PrimaryDBs p <> [] -> ReplicaDBs p <> [] ->
  replicasIndex r = Z.of_nat i ->
  (Z.of_nat i + Z.of_nat (length (ReplicaDBs p)) < 2 ^ 63)%Z ->
  let n := length (ReplicaDBs p) in
  let k := (i mod n)%nat in
  routed r ctx (repeat QueryTypeRead n) =
    ((skipn k (ReplicaDBs p) ++ firstn k (ReplicaDBs p))%list,
     mkRoundRobinRouter (rrProvider r) (primariesIndex r) (Z.of_nat (i + n))) /\
  Permutation (fst (routed r ctx (repeat QueryTypeRead n))) (ReplicaDBs p) /\
  (forall qt, qt <> QueryTypeRead ->
     replicasIndex (snd (RoundRobin_RouteQuery r ctx qt)) = replicasIndex r).
Proof.
  intros Hp Hpri Hrep Hi Hb n k.
  assert (Hn : (0 < n)%nat).
  { subst n. destruct (ReplicaDBs p); [congruence | cbn [length]; lia]. }
  assert (Hk : (k < n)%nat) by (apply Nat.mod_upper_bound; lia).
  assert (E : routed r ctx (repeat QueryTypeRead n) =
    ((skipn k (ReplicaDBs p) ++ firstn k (ReplicaDBs p))%list,
     mkRoundRobinRouter (rrProvider r) (primariesIndex r) (Z.of_nat (i + n)))).
  { rewrite (reads_in_a_row p ctx n r i Hp Hpri Hrep Hi Hb).
    f_equal. rewrite <- (rotation (ReplicaDBs p) k Hk).
    apply map_ext. intros j. f_equal. fold n. subst k.
    rewrite Nat.Div0.add_mod_idemp_l. reflexivity. }
  split; [exact E|]. split.
  - rewrite E. cbn [fst]. rewrite Permutation_app_comm, firstn_skipn. reflexivity.
  - intros qt Hqt. unfold RoundRobin_RouteQuery. rewrite Hp. cbv zeta.
    destruct (length (PrimaryDBs p) =? 0)%nat; [reflexivity|].
    destruct qt; try congruence;
      destruct (at_index (PrimaryDBs p) _); reflexivity.
Qed.

Lemma reads_visit_every_replica_witness :
  rrProvider rr4 = Some threeReplicas /\ PrimaryDBs threeReplicas <> [] /\
  ReplicaDBs threeReplicas <> [] /\ replicasIndex rr4 = Z.of_nat 4 /\
  (Z.of_nat 4 + Z.of_nat (length (ReplicaDBs threeReplicas)) < 2 ^ 63)%Z /\
  fst (routed rr4 Background [QueryTypeRead; QueryTypeRead; QueryTypeRead])
    = [3%nat; 4%nat; 2%nat].
Proof.
  assert (Hpri : PrimaryDBs threeReplicas <> []) by discriminate.
  assert (Hrep : ReplicaDBs threeReplicas <> []) by discriminate.
  assert (Hb : (Z.of_nat 4 + Z.of_nat (length (ReplicaDBs threeReplicas)) < 2 ^ 63)%Z)
    by reflexivity.
  split; [reflexivity|]. split; [exact Hpri|]. split; [exact Hrep|].
  split; [reflexivity|]. split; [exact Hb|].
  destruct (reads_visit_every_replica rr4 threeReplicas Background 4 eq_refl Hpri Hrep
              eq_refl Hb) as (E & _).
  change (repeat QueryTypeRead (length (ReplicaDBs threeReplicas)))
    with [QueryTypeRead; QueryTypeRead; QueryTypeRead] in E.
  rewrite E. reflexivity.
Defined.

End RoutersFacts.

(* ===================================================================== *)
(** * Properties of transactions *)
(* ===================================================================== *)

Module ScriptFacts.
Import Sys QueryKind Router Facade Script RouterFacts FacadeFacts Example.

Lemma captures_app (l l' : list Call) :
  captures (l ++ l') = (captures l ++ captures l')%list.
Proof.
  induction l as [|x l IH]; [reflexivity|].
  cbn [app captures]. destruct x; try exact IH.
  destruct (String.eqb query captureQuery); [cbn [app]; f_equal|]; exact IH.
Qed.

Lemma captures_quiet (l : list Call) : Forall quiet l -> captures l = [].
Proof.
  induction 1 as [|c l Hc _ IH]; [reflexivity|].
  destruct c; cbn [captures]; try exact IH. contradiction.
Qed.

Section Facts.
Context {LB : Type} `{LoadBalancer LB}.

Implicit Types (s : State LB) (w : World).

(** The state after more calls were sent and logged. *)
Lemma sent_app s (l : list Call) (c : Call) :
  sent (mkState (lb s) (heap s) (lastMasterLSN s) (checkers s) (trace s ++ l)) c =
  mkState (lb s) (heap s) (lastMasterLSN s) (checkers s) (trace s ++ (l ++ [c])).
Proof. unfold sent. cbn [lb heap lastMasterLSN checkers trace]. rewrite app_assoc. reflexivity. Qed.

Lemma tx_step_frame (t : tx) ctx (op : TxOp) w s :
  exists t' c,
    tx_step t ctx op w s = (Ok t', sent s c) /\
    txQueryRouter t' = txQueryRouter t /\ txDB t' = txDB t /\
    backend c = txDB t /\ quiet c.
Proof.
  assert (Hm : forall e, txQueryRouter (markWriteOperation t ctx e) = txQueryRouter t /\
                         txDB (markWriteOperation t ctx e) = txDB t).
  { intros e. unfold markWriteOperation. destruct (is_nil e); split; reflexivity. }
  destruct op as [q | q | q]; unfold tx_step, bind, send, ret, sent;
    [unfold tx_ExecContext | unfold tx_QueryContext | unfold tx_QueryRowContext];
    unfold bind, send, ret; cbv zeta; cbn [fst];
    eexists; eexists; (split; [reflexivity|]);
    try (destruct (tx_writeFlag t q)); cbn [backend quiet];
    repeat split; try apply Hm; reflexivity.
Qed.

Lemma tx_run_frame ctx (ops : list TxOp) w : forall (t : tx) s,
  exists t' l,
    tx_run t ctx ops w s =
      (Ok t', mkState (lb s) (heap s) (lastMasterLSN s) (checkers s) (trace s ++ l)) /\
    txQueryRouter t' = txQueryRouter t /\ txDB t' = txDB t /\
    Forall (fun c => backend c = txDB t /\ quiet c) l.
Proof.
  induction ops as [|op ops IH]; intros t s.
  - exists t, []. cbn [tx_run]. unfold ret. rewrite app_nil_r.
    split; [destruct s; reflexivity|]. repeat split. constructor.
  - cbn [tx_run]. unfold bind.
    destruct (tx_step_frame t ctx op w s) as (t1 & c & -> & Hr1 & Hd1 & Hb & Hq).
    destruct (IH t1 (sent s c)) as (t' & l & -> & Hr & Hd & Hl).
    exists t', (c :: l). unfold sent. cbn [lb heap lastMasterLSN checkers trace].
    rewrite <- app_assoc. split; [reflexivity|].
    split; [congruence|]. split; [congruence|].
    constructor; [split; assumption|]. rewrite <- Hd1. exact Hl.
Qed.

(** X22.  A transaction stays on the primary it began on: every statement,
    and the commit or the rollback, goes to the backend [BeginTx] took from
    the balancer.  And it captures nothing: whatever its statements and
    whether it commits or rolls back, no position is asked of a backend,
    and no token and not the cached position is changed. *)
Theorem transaction_stays_on_its_primary (db : Facade.DB) ctx (ops : list TxOp)
    (commit : bool) w s :
  primaries db <> [] ->
  let d := fst (Resolve (lb s) (primaries db)) in
  exists e s' l,
    transaction db ctx ops commit w s = (Ok e, s') /\
    In d (primaries db) /\
    trace s' = (trace s ++ BeginCall d :: l)%list /\
    Forall (fun c => backend c = d) l /\
    captures (trace s') = captures (trace s) /\
    heap s' = heap s /\ lastMasterLSN s' = lastMasterLSN s.
Proof.
  intros Hne d. pose proof (Resolve_In (lb s) _ Hne) as Hin.
  unfold transaction. unfold bind at 1. unfold BeginTx.
  unfold bind at 1. rewrite ReadWrite_run by exact Hne. fold d.
  unfold bind at 1. unfold send at 1. cbn [trace with_lb].
  set (s0 := mkState _ _ _ _ _).
  destruct (err (w (trace s) (BeginCall d))) as [e|].
  - unfold ret. exists (Some e), s0, []. split; [reflexivity|].
    split; [exact Hin|]. subst s0. cbn [trace heap lastMasterLSN].
    split; [reflexivity|]. split; [constructor|].
    split; [|split; reflexivity].
    rewrite captures_app. cbn [captures]. apply app_nil_r.
  - unfold ret at 1. cbv beta iota. unfold bind at 1.
    set (t := mkTx _ _ _ _ _).
    destruct (tx_run_frame ctx ops w t s0) as (t' & l & -> & Hr & Hd & Hl).
    subst t. cbn [txQueryRouter txDB] in Hr, Hd, Hl.
    set (s1 := mkState _ _ _ _ _).
    assert (Hfin : exists e c,
      (if commit then Commit t' else Rollback t') w s1 = (Ok e, sent s1 c) /\
      backend c = d /\ quiet c).
    { destruct commit.
      - rewrite (Commit_without_router t' w s1 Hr). rewrite Hd.
        eexists. eexists. split; [reflexivity|]. split; reflexivity.
      - unfold Rollback, bind, send, ret, sent. rewrite Hd.
        eexists. eexists. split; [reflexivity|]. split; reflexivity. }
    destruct Hfin as (e & c & -> & Hbc & Hqc).
    exists e, (sent s1 c), (l ++ [c])%list. split; [reflexivity|].
    split; [exact Hin|].
    assert (Ht : trace (sent s1 c) = (trace s ++ BeginCall d :: l ++ [c])%list).
    { subst s1 s0. unfold sent. cbn [trace]. rewrite <- !app_assoc. reflexivity. }
    split; [exact Ht|].
    split.
    { apply Forall_app. split; [|constructor; [exact Hbc | constructor]].
      eapply Forall_impl; [exact Hl|]. intros x [Hx _]. exact Hx. }
    split; [|split; reflexivity].
    rewrite Ht, captures_app, (captures_quiet (BeginCall d :: l ++ [c]));
      [apply app_nil_r|].
    constructor; [exact I|]. apply Forall_app.
    split; [|constructor; [exact Hqc | constructor]].
    eapply Forall_impl; [exact Hl|]. intros x [_ Hx]. exact Hx.
Qed.

End Facts.

Lemma transaction_stays_on_its_primary_witness :
  primaries db0 <> [] /\
  exists s',
    snd (transaction db0 Background [OpExec insertStmt; OpQuery selectStmt] true
           lagging init) = s' /\
    trace s' = [BeginCall 1%nat; TxExecCall 1%nat insertStmt;
                TxQueryCall 1%nat selectStmt; CommitCall 1%nat] /\
    captures (trace s') = [].
Proof.
  assert (Hne : primaries db0 <> []) by discriminate.
  split; [exact Hne|].
  destruct (transaction_stays_on_its_primary db0 Background
              [OpExec insertStmt; OpQuery selectStmt] true lagging init Hne)
    as (e & s' & l & E & _ & _ & _ & Hc & _).
  exists s'. rewrite E. split; [reflexivity|]. split; [|exact Hc].
  assert (Et : trace (snd (transaction db0 Background
                 [OpExec insertStmt; OpQuery selectStmt] true lagging init))
               = [BeginCall 1%nat; TxExecCall 1%nat insertStmt;
                  TxQueryCall 1%nat selectStmt; CommitCall 1%nat])
    by (vm_compute; reflexivity).
  rewrite E in Et. exact Et.
Defined.

End ScriptFacts.
